(** * VideoShare: the REST layer and the in-memory store

    A shallow embedding of the server side of the repository:
    - the schema module ([@shared/schema]): the records [User], [Video],
      [Category] and the request schemas;
    - the storage module: the class [MemStorage];
    - the routes module: the middlewares and the handlers registered by
      [registerRoutes].

    Conventions.
    - A JavaScript number that the server computes with is either [NaN] or an
      integer; it is an [option Z] with [None] for [NaN].  Every integer that
      reaches a response went through a check against
      [Number.MAX_SAFE_INTEGER] or is a counter or a length, so the doubles of
      the source are exact on them.
    - A JavaScript string is a [string] of the Standard Library, which
      holds the UTF-8 bytes of the text: one byte for a character of ASCII,
      and a literal of this file is the text it shows.  Lengths are counted
      on ASCII text.
    - A stored video is a record of the type its table gives it
      ([Video.t]).  The handler of an update does not validate the body it
      spreads over the video; the model reads each key of that body at the
      type of its column and leaves out a key whose value has another type,
      so what is proved of an update is about the keys that are well typed.
    - A [Map] keeps its keys in insertion order, and [Array.from(m.values())]
      observes that order: the maps of the store are association lists.
    - [async] functions of the store never suspend before they return; they
      are state-passing functions.  The clock ([new Date()]), the generated
      file name ([uuidv4()]) and the file system are explicit arguments. *)

From Stdlib Require Import ZArith NArith List String Ascii Bool Lia.
From Stdlib Require Import Decimal DecimalString DecimalPos DecimalN DecimalZ.
From Stdlib Require Import Sorting.Sorted Sorting.Permutation.
Import ListNotations.

Local Open Scope string_scope.
Local Open Scope Z_scope.

(* ================================================================== *)
(** ** Case conversion of Unicode text

    [String.prototype.toLowerCase] is the default case conversion of
    Unicode, on code points: the lower-case mapping of each character, one
    character with a mapping of two code points, and a capital sigma that is
    final in its word.  The tables are those of Unicode 14. *)

Module Unicode.

(** The simple lower-case mappings: from [lo] to [hi], every [step]-th code
    point goes to itself plus [delta]. *)
Definition lower_table : list (Z * Z * Z * Z) :=
  [(65, 90, 1, 32); (192, 214, 1, 32); (216, 222, 1, 32); (256, 302, 2, 1);
   (306, 310, 2, 1); (313, 327, 2, 1); (330, 374, 2, 1);
   (376, 376, 1, (-121)); (377, 381, 2, 1); (385, 385, 1, 210);
   (386, 388, 2, 1); (390, 390, 1, 206); (391, 391, 1, 1);
   (393, 394, 1, 205); (395, 395, 1, 1); (398, 398, 1, 79);
   (399, 399, 1, 202); (400, 400, 1, 203); (401, 401, 1, 1);
   (403, 403, 1, 205); (404, 404, 1, 207); (406, 406, 1, 211);
   (407, 407, 1, 209); (408, 408, 1, 1); (412, 412, 1, 211);
   (413, 413, 1, 213); (415, 415, 1, 214); (416, 420, 2, 1);
   (422, 422, 1, 218); (423, 423, 1, 1); (425, 425, 1, 218);
   (428, 428, 1, 1); (430, 430, 1, 218); (431, 431, 1, 1);
   (433, 434, 1, 217); (435, 437, 2, 1); (439, 439, 1, 219);
   (440, 440, 1, 1); (444, 444, 1, 1); (452, 452, 1, 2); (453, 453, 1, 1);
   (455, 455, 1, 2); (456, 456, 1, 1); (458, 458, 1, 2); (459, 475, 2, 1);
   (478, 494, 2, 1); (497, 497, 1, 2); (498, 500, 2, 1);
   (502, 502, 1, (-97)); (503, 503, 1, (-56)); (504, 542, 2, 1);
   (544, 544, 1, (-130)); (546, 562, 2, 1); (570, 570, 1, 10795);
   (571, 571, 1, 1); (573, 573, 1, (-163)); (574, 574, 1, 10792);
   (577, 577, 1, 1); (579, 579, 1, (-195)); (580, 580, 1, 69);
   (581, 581, 1, 71); (582, 590, 2, 1); (880, 882, 2, 1); (886, 886, 1, 1);
   (895, 895, 1, 116); (902, 902, 1, 38); (904, 906, 1, 37);
   (908, 908, 1, 64); (910, 911, 1, 63); (913, 929, 1, 32);
   (931, 939, 1, 32); (975, 975, 1, 8); (984, 1006, 2, 1);
   (1012, 1012, 1, (-60)); (1015, 1015, 1, 1); (1017, 1017, 1, (-7));
   (1018, 1018, 1, 1); (1021, 1023, 1, (-130)); (1024, 1039, 1, 80);
   (1040, 1071, 1, 32); (1120, 1152, 2, 1); (1162, 1214, 2, 1);
   (1216, 1216, 1, 15); (1217, 1229, 2, 1); (1232, 1326, 2, 1);
   (1329, 1366, 1, 48); (4256, 4293, 1, 7264); (4295, 4295, 1, 7264);
   (4301, 4301, 1, 7264); (5024, 5103, 1, 38864); (5104, 5109, 1, 8);
   (7312, 7354, 1, (-3008)); (7357, 7359, 1, (-3008)); (7680, 7828, 2, 1);
   (7838, 7838, 1, (-7615)); (7840, 7934, 2, 1); (7944, 7951, 1, (-8));
   (7960, 7965, 1, (-8)); (7976, 7983, 1, (-8)); (7992, 7999, 1, (-8));
   (8008, 8013, 1, (-8)); (8025, 8031, 2, (-8)); (8040, 8047, 1, (-8));
   (8072, 8079, 1, (-8)); (8088, 8095, 1, (-8)); (8104, 8111, 1, (-8));
   (8120, 8121, 1, (-8)); (8122, 8123, 1, (-74)); (8124, 8124, 1, (-9));
   (8136, 8139, 1, (-86)); (8140, 8140, 1, (-9)); (8152, 8153, 1, (-8));
   (8154, 8155, 1, (-100)); (8168, 8169, 1, (-8)); (8170, 8171, 1, (-112));
   (8172, 8172, 1, (-7)); (8184, 8185, 1, (-128)); (8186, 8187, 1, (-126));
   (8188, 8188, 1, (-9)); (8486, 8486, 1, (-7517)); (8490, 8490, 1, (-8383));
   (8491, 8491, 1, (-8262)); (8498, 8498, 1, 28); (8544, 8559, 1, 16);
   (8579, 8579, 1, 1); (9398, 9423, 1, 26); (11264, 11311, 1, 48);
   (11360, 11360, 1, 1); (11362, 11362, 1, (-10743));
   (11363, 11363, 1, (-3814)); (11364, 11364, 1, (-10727));
   (11367, 11371, 2, 1); (11373, 11373, 1, (-10780));
   (11374, 11374, 1, (-10749)); (11375, 11375, 1, (-10783));
   (11376, 11376, 1, (-10782)); (11378, 11378, 1, 1); (11381, 11381, 1, 1);
   (11390, 11391, 1, (-10815)); (11392, 11490, 2, 1); (11499, 11501, 2, 1);
   (11506, 11506, 1, 1); (42560, 42604, 2, 1); (42624, 42650, 2, 1);
   (42786, 42798, 2, 1); (42802, 42862, 2, 1); (42873, 42875, 2, 1);
   (42877, 42877, 1, (-35332)); (42878, 42886, 2, 1); (42891, 42891, 1, 1);
   (42893, 42893, 1, (-42280)); (42896, 42898, 2, 1); (42902, 42920, 2, 1);
   (42922, 42922, 1, (-42308)); (42923, 42923, 1, (-42319));
   (42924, 42924, 1, (-42315)); (42925, 42925, 1, (-42305));
   (42926, 42926, 1, (-42308)); (42928, 42928, 1, (-42258));
   (42929, 42929, 1, (-42282)); (42930, 42930, 1, (-42261));
   (42931, 42931, 1, 928); (42932, 42946, 2, 1); (42948, 42948, 1, (-48));
   (42949, 42949, 1, (-42307)); (42950, 42950, 1, (-35384));
   (42951, 42953, 2, 1); (42960, 42960, 1, 1); (42966, 42968, 2, 1);
   (42997, 42997, 1, 1); (65313, 65338, 1, 32); (66560, 66599, 1, 40);
   (66736, 66771, 1, 40); (66928, 66938, 1, 39); (66940, 66954, 1, 39);
   (66956, 66962, 1, 39); (66964, 66965, 1, 39); (68736, 68786, 1, 64);
   (71840, 71871, 1, 32); (93760, 93791, 1, 32); (125184, 125217, 1, 34)].

(** The code points that are Case_Ignorable. *)
Definition case_ignorable_ranges : list (Z * Z) :=
  [(39, 39); (46, 46); (58, 58); (94, 94); (96, 96); (168, 168); (173, 173);
   (175, 175); (180, 180); (183, 184); (688, 879); (884, 885); (890, 890);
   (900, 901); (903, 903); (1155, 1161); (1369, 1369); (1375, 1375);
   (1425, 1469); (1471, 1471); (1473, 1474); (1476, 1477); (1479, 1479);
   (1524, 1524); (1536, 1541); (1552, 1562); (1564, 1564); (1600, 1600);
   (1611, 1631); (1648, 1648); (1750, 1757); (1759, 1768); (1770, 1773);
   (1807, 1807); (1809, 1809); (1840, 1866); (1958, 1968); (2027, 2037);
   (2042, 2042); (2045, 2045); (2070, 2093); (2137, 2139); (2184, 2184);
   (2192, 2193); (2200, 2207); (2249, 2306); (2362, 2362); (2364, 2364);
   (2369, 2376); (2381, 2381); (2385, 2391); (2402, 2403); (2417, 2417);
   (2433, 2433); (2492, 2492); (2497, 2500); (2509, 2509); (2530, 2531);
   (2558, 2558); (2561, 2562); (2620, 2620); (2625, 2626); (2631, 2632);
   (2635, 2637); (2641, 2641); (2672, 2673); (2677, 2677); (2689, 2690);
   (2748, 2748); (2753, 2757); (2759, 2760); (2765, 2765); (2786, 2787);
   (2810, 2815); (2817, 2817); (2876, 2876); (2879, 2879); (2881, 2884);
   (2893, 2893); (2901, 2902); (2914, 2915); (2946, 2946); (3008, 3008);
   (3021, 3021); (3072, 3072); (3076, 3076); (3132, 3132); (3134, 3136);
   (3142, 3144); (3146, 3149); (3157, 3158); (3170, 3171); (3201, 3201);
   (3260, 3260); (3263, 3263); (3270, 3270); (3276, 3277); (3298, 3299);
   (3328, 3329); (3387, 3388); (3393, 3396); (3405, 3405); (3426, 3427);
   (3457, 3457); (3530, 3530); (3538, 3540); (3542, 3542); (3633, 3633);
   (3636, 3642); (3654, 3662); (3761, 3761); (3764, 3772); (3782, 3782);
   (3784, 3789); (3864, 3865); (3893, 3893); (3895, 3895); (3897, 3897);
   (3953, 3966); (3968, 3972); (3974, 3975); (3981, 3991); (3993, 4028);
   (4038, 4038); (4141, 4144); (4146, 4151); (4153, 4154); (4157, 4158);
   (4184, 4185); (4190, 4192); (4209, 4212); (4226, 4226); (4229, 4230);
   (4237, 4237); (4253, 4253); (4348, 4348); (4957, 4959); (5906, 5908);
   (5938, 5939); (5970, 5971); (6002, 6003); (6068, 6069); (6071, 6077);
   (6086, 6086); (6089, 6099); (6103, 6103); (6109, 6109); (6155, 6159);
   (6211, 6211); (6277, 6278); (6313, 6313); (6432, 6434); (6439, 6440);
   (6450, 6450); (6457, 6459); (6679, 6680); (6683, 6683); (6742, 6742);
   (6744, 6750); (6752, 6752); (6754, 6754); (6757, 6764); (6771, 6780);
   (6783, 6783); (6823, 6823); (6832, 6862); (6912, 6915); (6964, 6964);
   (6966, 6970); (6972, 6972); (6978, 6978); (7019, 7027); (7040, 7041);
   (7074, 7077); (7080, 7081); (7083, 7085); (7142, 7142); (7144, 7145);
   (7149, 7149); (7151, 7153); (7212, 7219); (7222, 7223); (7288, 7293);
   (7376, 7378); (7380, 7392); (7394, 7400); (7405, 7405); (7412, 7412);
   (7416, 7417); (7468, 7530); (7544, 7544); (7579, 7679); (8125, 8125);
   (8127, 8129); (8141, 8143); (8157, 8159); (8173, 8175); (8189, 8190);
   (8203, 8207); (8216, 8217); (8228, 8228); (8231, 8231); (8234, 8238);
   (8288, 8292); (8294, 8303); (8305, 8305); (8319, 8319); (8336, 8348);
   (8400, 8432); (11388, 11389); (11503, 11505); (11631, 11631);
   (11647, 11647); (11744, 11775); (11823, 11823); (12293, 12293);
   (12330, 12333); (12337, 12341); (12347, 12347); (12441, 12446);
   (12540, 12542); (40981, 40981); (42232, 42237); (42508, 42508);
   (42607, 42610); (42612, 42621); (42623, 42623); (42652, 42655);
   (42736, 42737); (42752, 42785); (42864, 42864); (42888, 42890);
   (42994, 42996); (43000, 43001); (43010, 43010); (43014, 43014);
   (43019, 43019); (43045, 43046); (43052, 43052); (43204, 43205);
   (43232, 43249); (43263, 43263); (43302, 43309); (43335, 43345);
   (43392, 43394); (43443, 43443); (43446, 43449); (43452, 43453);
   (43471, 43471); (43493, 43494); (43561, 43566); (43569, 43570);
   (43573, 43574); (43587, 43587); (43596, 43596); (43632, 43632);
   (43644, 43644); (43696, 43696); (43698, 43700); (43703, 43704);
   (43710, 43711); (43713, 43713); (43741, 43741); (43756, 43757);
   (43763, 43764); (43766, 43766); (43867, 43871); (43881, 43883);
   (44005, 44005); (44008, 44008); (44013, 44013); (64286, 64286);
   (64434, 64450); (65024, 65039); (65043, 65043); (65056, 65071);
   (65106, 65106); (65109, 65109); (65279, 65279); (65287, 65287);
   (65294, 65294); (65306, 65306); (65342, 65342); (65344, 65344);
   (65392, 65392); (65438, 65439); (65507, 65507); (65529, 65531);
   (66045, 66045); (66272, 66272); (66422, 66426); (67456, 67461);
   (67463, 67504); (67506, 67514); (68097, 68099); (68101, 68102);
   (68108, 68111); (68152, 68154); (68159, 68159); (68325, 68326);
   (68900, 68903); (69291, 69292); (69446, 69456); (69506, 69509);
   (69633, 69633); (69688, 69702); (69744, 69744); (69747, 69748);
   (69759, 69761); (69811, 69814); (69817, 69818); (69821, 69821);
   (69826, 69826); (69837, 69837); (69888, 69890); (69927, 69931);
   (69933, 69940); (70003, 70003); (70016, 70017); (70070, 70078);
   (70089, 70092); (70095, 70095); (70191, 70193); (70196, 70196);
   (70198, 70199); (70206, 70206); (70367, 70367); (70371, 70378);
   (70400, 70401); (70459, 70460); (70464, 70464); (70502, 70508);
   (70512, 70516); (70712, 70719); (70722, 70724); (70726, 70726);
   (70750, 70750); (70835, 70840); (70842, 70842); (70847, 70848);
   (70850, 70851); (71090, 71093); (71100, 71101); (71103, 71104);
   (71132, 71133); (71219, 71226); (71229, 71229); (71231, 71232);
   (71339, 71339); (71341, 71341); (71344, 71349); (71351, 71351);
   (71453, 71455); (71458, 71461); (71463, 71467); (71727, 71735);
   (71737, 71738); (71995, 71996); (71998, 71998); (72003, 72003);
   (72148, 72151); (72154, 72155); (72160, 72160); (72193, 72202);
   (72243, 72248); (72251, 72254); (72263, 72263); (72273, 72278);
   (72281, 72283); (72330, 72342); (72344, 72345); (72752, 72758);
   (72760, 72765); (72767, 72767); (72850, 72871); (72874, 72880);
   (72882, 72883); (72885, 72886); (73009, 73014); (73018, 73018);
   (73020, 73021); (73023, 73029); (73031, 73031); (73104, 73105);
   (73109, 73109); (73111, 73111); (73459, 73460); (78896, 78904);
   (92912, 92916); (92976, 92982); (92992, 92995); (94031, 94031);
   (94095, 94111); (94176, 94177); (94179, 94180); (110576, 110579);
   (110581, 110587); (110589, 110590); (113821, 113822); (113824, 113827);
   (118528, 118573); (118576, 118598); (119143, 119145); (119155, 119170);
   (119173, 119179); (119210, 119213); (119362, 119364); (121344, 121398);
   (121403, 121452); (121461, 121461); (121476, 121476); (121499, 121503);
   (121505, 121519); (122880, 122886); (122888, 122904); (122907, 122913);
   (122915, 122916); (122918, 122922); (123184, 123197); (123566, 123566);
   (123628, 123631); (125136, 125142); (125252, 125259); (127995, 127999);
   (917505, 917505); (917536, 917631); (917760, 917999)].

(** The code points that are Cased and not Case_Ignorable. *)
Definition cased_ranges : list (Z * Z) :=
  [(65, 90); (97, 122); (170, 170); (181, 181); (186, 186); (192, 214);
   (216, 246); (248, 442); (444, 447); (452, 659); (661, 687); (880, 883);
   (886, 887); (891, 893); (895, 895); (902, 902); (904, 906); (908, 908);
   (910, 929); (931, 1013); (1015, 1153); (1162, 1327); (1329, 1366);
   (1376, 1416); (4256, 4293); (4295, 4295); (4301, 4301); (4304, 4346);
   (4349, 4351); (5024, 5109); (5112, 5117); (7296, 7304); (7312, 7354);
   (7357, 7359); (7424, 7467); (7531, 7543); (7545, 7578); (7680, 7957);
   (7960, 7965); (7968, 8005); (8008, 8013); (8016, 8023); (8025, 8025);
   (8027, 8027); (8029, 8029); (8031, 8061); (8064, 8116); (8118, 8124);
   (8126, 8126); (8130, 8132); (8134, 8140); (8144, 8147); (8150, 8155);
   (8160, 8172); (8178, 8180); (8182, 8188); (8450, 8450); (8455, 8455);
   (8458, 8467); (8469, 8469); (8473, 8477); (8484, 8484); (8486, 8486);
   (8488, 8488); (8490, 8493); (8495, 8500); (8505, 8505); (8508, 8511);
   (8517, 8521); (8526, 8526); (8544, 8575); (8579, 8580); (9398, 9449);
   (11264, 11387); (11390, 11492); (11499, 11502); (11506, 11507);
   (11520, 11557); (11559, 11559); (11565, 11565); (42560, 42605);
   (42624, 42651); (42786, 42863); (42865, 42887); (42891, 42894);
   (42896, 42954); (42960, 42961); (42963, 42963); (42965, 42969);
   (42997, 42998); (43002, 43002); (43824, 43866); (43872, 43880);
   (43888, 43967); (64256, 64262); (64275, 64279); (65313, 65338);
   (65345, 65370); (66560, 66639); (66736, 66771); (66776, 66811);
   (66928, 66938); (66940, 66954); (66956, 66962); (66964, 66965);
   (66967, 66977); (66979, 66993); (66995, 67001); (67003, 67004);
   (68736, 68786); (68800, 68850); (71840, 71903); (93760, 93823);
   (119808, 119892); (119894, 119964); (119966, 119967); (119970, 119970);
   (119973, 119974); (119977, 119980); (119982, 119993); (119995, 119995);
   (119997, 120003); (120005, 120069); (120071, 120074); (120077, 120084);
   (120086, 120092); (120094, 120121); (120123, 120126); (120128, 120132);
   (120134, 120134); (120138, 120144); (120146, 120485); (120488, 120512);
   (120514, 120538); (120540, 120570); (120572, 120596); (120598, 120628);
   (120630, 120654); (120656, 120686); (120688, 120712); (120714, 120744);
   (120746, 120770); (120772, 120779); (122624, 122633); (122635, 122654);
   (125184, 125251); (127280, 127305); (127312, 127337); (127344, 127369)].

Definition in_ranges (c : Z) (ranges : list (Z * Z)) : bool :=
  existsb (fun r => (fst r <=? c) && (c <=? snd r)) ranges.

Definition case_ignorable (c : Z) : bool :=
  in_ranges c case_ignorable_ranges.

Definition cased (c : Z) : bool := in_ranges c cased_ranges.

Definition maps (c : Z) (e : Z * Z * Z * Z) : bool :=
  let '(lo, hi, step, _) := e in
  (lo <=? c) && (c <=? hi) && ((c - lo) mod step =? 0).

(** The lower case of one code point, out of context. *)
Definition lower_point (c : Z) : list Z :=
  if c =? 304 then [105; 775]
  else
    match find (maps c) lower_table with
    | Some (_, _, _, delta) => [c + delta]
    | None => [c]
    end.

(** After the case-ignorable code points at the head of [l], a cased
    letter. *)
Fixpoint cased_after_ignorable (l : list Z) : bool :=
  match l with
  | [] => false
  | c :: l' =>
      if case_ignorable c then cased_after_ignorable l' else cased c
  end.

(** A sigma is final when a cased letter is before it and none is after it,
    code points that are case-ignorable not counting; [before] is what is
    before it, the nearest first. *)
Definition final_sigma (before after : list Z) : bool :=
  cased_after_ignorable before && negb (cased_after_ignorable after).

Fixpoint lower_points (before l : list Z) : list Z :=
  match l with
  | [] => []
  | c :: rest =>
      (if c =? 931
       then if final_sigma before rest then [962] else [963]
       else lower_point c)
      ++ lower_points (c :: before) rest
  end.

End Unicode.

(* ================================================================== *)
(** ** The JavaScript primitives the server calls *)

Module JS.

(** [NaN] or an integer. *)
Definition number := option Z.

Definition NaN : number := None.

(** Truthiness of a string: [""] is falsy. *)
Definition truthy (s : string) : bool :=
  match s with
  | EmptyString => false
  | String _ _ => true
  end.

(** Truthiness of [string | undefined]. *)
Definition truthy_opt (o : option string) : bool :=
  match o with
  | Some s => truthy s
  | None => false
  end.

Definition code (c : ascii) : Z := Z.of_N (N_of_ascii c).

(** [StrWhiteSpaceChar] within ASCII: TAB, LF, VT, FF, CR, SP. *)
Definition is_white_space (c : ascii) : bool :=
  ((9 <=? code c) && (code c <=? 13)) || (code c =? 32).

Fixpoint trim_start (s : string) : string :=
  match s with
  | EmptyString => EmptyString
  | String c s' => if is_white_space c then trim_start s' else s
  end.

(** The value of a character as a digit of a radix up to 36. *)
Definition digit_value (c : ascii) : option Z :=
  let n := code c in
  if (48 <=? n) && (n <=? 57) then Some (n - 48)
  else if (97 <=? n) && (n <=? 122) then Some (n - 87)
  else if (65 <=? n) && (n <=? 90) then Some (n - 55)
  else None.

(** The longest prefix of [s] made of digits of radix [R], read as an
    integer; [acc] is the value read so far, [None] when no digit was. *)
Fixpoint parse_digits (R : Z) (s : string) (acc : number) : number :=
  match s with
  | EmptyString => acc
  | String c s' =>
      match digit_value c with
      | Some d =>
          if d <? R
          then parse_digits R s'
                 (Some (match acc with Some a => a * R + d | None => d end))
          else acc
      | None => acc
      end
  end.

Definition strip_sign (s : string) : Z * string :=
  match s with
  | String "-" s' => (-1, s')
  | String "+" s' => (1, s')
  | _ => (1, s)
  end.

Definition strip_hex_prefix (s : string) : option string :=
  match s with
  | String "0" (String "x" s') => Some s'
  | String "0" (String "X" s') => Some s'
  | _ => None
  end.

(** [parseInt(s, radix)]; [radix = 0] stands for a call without radix. *)
Definition parseInt (s : string) (radix : Z) : number :=
  let '(sign, s1) := strip_sign (trim_start s) in
  if (radix =? 0) || ((2 <=? radix) && (radix <=? 36)) then
    let R := if radix =? 0 then 10 else radix in
    let '(R, s2) :=
      if (radix =? 0) || (radix =? 16) then
        match strip_hex_prefix s1 with
        | Some s' => (16, s')
        | None => (R, s1)
        end
      else (R, s1) in
    match parse_digits R s2 None with
    | Some v => Some (sign * v)
    | None => NaN
    end
  else NaN.

(** [`${n}`] for a number. *)
Definition to_string (n : number) : string :=
  match n with
  | Some z => NilZero.string_of_int (Z.to_int z)
  | None => "NaN"
  end.

(** Arithmetic on numbers: [NaN] is absorbing. *)
Definition add (a b : number) : number :=
  match a, b with
  | Some x, Some y => Some (x + y)
  | _, _ => NaN
  end.

Definition sub (a b : number) : number :=
  match a, b with
  | Some x, Some y => Some (x - y)
  | _, _ => NaN
  end.

Fixpoint drop (n : nat) (s : string) : string :=
  match n, s with
  | O, _ => s
  | S n', String _ s' => drop n' s'
  | S _, EmptyString => EmptyString
  end.

(** [s.startsWith(p)]. *)
Definition startsWith (s p : string) : bool := String.prefix p s.

(** [s.replace(/pat/, rep)] for a pattern without metacharacters: the
    first occurrence of [pat] is replaced. *)
Fixpoint replace_first (pat rep s : string) : string :=
  if String.prefix pat s then (rep ++ drop (String.length pat) s)%string
  else
    match s with
    | EmptyString => EmptyString
    | String c s' => String c (replace_first pat rep s')
    end.

(** [s.split(sep)] for a separator of one character. *)
Fixpoint split (sep : ascii) (s : string) : list string :=
  match s with
  | EmptyString => [EmptyString]
  | String c s' =>
      if Ascii.eqb c sep then EmptyString :: split sep s'
      else
        match split sep s' with
        | h :: t => String c h :: t
        | [] => [String c EmptyString]
        end
  end.

(** [hay.includes(needle)]. *)
Fixpoint includes (hay needle : string) : bool :=
  String.prefix needle hay
  || match hay with
     | EmptyString => false
     | String _ hay' => includes hay' needle
     end.

(** The code points of a text from its UTF-8 bytes.  A byte that is not
    part of a UTF-8 sequence is read as the character of that code. *)
Definition continuation (b : Z) : bool := (128 <=? b) && (b <=? 191).

Fixpoint code_points (s : string) : list Z :=
  match s with
  | EmptyString => []
  | String a1 s1 =>
      let b1 := code a1 in
      if b1 <? 128 then b1 :: code_points s1
      else
        match s1 with
        | EmptyString => [b1]
        | String a2 s2 =>
            let b2 := code a2 in
            if (194 <=? b1) && (b1 <=? 223) && continuation b2
            then ((b1 - 192) * 64 + (b2 - 128)) :: code_points s2
            else
              match s2 with
              | EmptyString => b1 :: code_points s1
              | String a3 s3 =>
                  let b3 := code a3 in
                  let c3 :=
                    (b1 - 224) * 4096 + (b2 - 128) * 64 + (b3 - 128) in
                  if (224 <=? b1) && (b1 <=? 239) && continuation b2
                     && continuation b3 && (2048 <=? c3)
                     && negb ((55296 <=? c3) && (c3 <=? 57343))
                  then c3 :: code_points s3
                  else
                    match s3 with
                    | EmptyString => b1 :: code_points s1
                    | String a4 s4 =>
                        let b4 := code a4 in
                        let c4 :=
                          (b1 - 240) * 262144 + (b2 - 128) * 4096
                          + (b3 - 128) * 64 + (b4 - 128) in
                        if (240 <=? b1) && (b1 <=? 244) && continuation b2
                           && continuation b3 && continuation b4
                           && (65536 <=? c4) && (c4 <=? 1114111)
                        then c4 :: code_points s4
                        else b1 :: code_points s1
                    end
              end
        end
  end.

Definition byte (b : Z) : ascii := ascii_of_N (Z.to_N b).

(** The UTF-8 bytes of a code point. *)
Definition utf8 (c : Z) : string :=
  if c <? 128 then String (byte c) EmptyString
  else if c <? 2048
  then String (byte (192 + c / 64))
         (String (byte (128 + c mod 64)) EmptyString)
  else if c <? 65536
  then String (byte (224 + c / 4096))
         (String (byte (128 + (c / 64) mod 64))
            (String (byte (128 + c mod 64)) EmptyString))
  else String (byte (240 + c / 262144))
         (String (byte (128 + (c / 4096) mod 64))
            (String (byte (128 + (c / 64) mod 64))
               (String (byte (128 + c mod 64)) EmptyString))).

Fixpoint of_code_points (l : list Z) : string :=
  match l with
  | [] => EmptyString
  | c :: l' => (utf8 c ++ of_code_points l')%string
  end.

(** [s.toLowerCase()]. *)
Definition toLowerCase (s : string) : string :=
  of_code_points (Unicode.lower_points [] (code_points s)).

(** [arr.sort(cmp)]: the sort of the language is stable, so for a
    comparator that is a total preorder its result is the one of any stable
    sort; here insertion from the right.  [cmp a b <= 0] keeps [a] first. *)
Section Sort.
Context {A : Type} (cmp : A -> A -> Z).

Fixpoint insert (x : A) (l : list A) : list A :=
  match l with
  | [] => [x]
  | y :: l' => if cmp x y <=? 0 then x :: l else y :: insert x l'
  end.

Definition sort (l : list A) : list A := fold_right insert [] l.
End Sort.

End JS.

(* ================================================================== *)
(** ** The schema module *)

(** A row of [users]. *)
Module User.
Record t := mk {
  id : Z;
  username : string;
  password : string;
  isAdmin : bool
}.
End User.

(** [InsertUser]: the columns picked by [insertUserSchema]. *)
Module InsertUser.
Record t := mk {
  username : string;
  password : string;
  isAdmin : bool
}.
End InsertUser.

(** A row of [videos].  A nullable column is an [option]; [uploadDate] is
    the time of the [Date] in milliseconds. *)
Module Video.
Record t := mk {
  id : Z;
  title : string;
  description : option string;
  fileName : option string;
  filePath : option string;
  embedUrl : option string;
  isEmbedded : option bool;
  thumbnailPath : option string;
  category : option string;
  uploaderId : Z;
  views : Z;
  uploadDate : Z;
  duration : option Z
}.
End Video.

(** [InsertVideo]: [insertVideoSchema] omits [id], [views], [uploadDate]. *)
Module InsertVideo.
Record t := mk {
  title : string;
  description : option string;
  fileName : option string;
  filePath : option string;
  embedUrl : option string;
  isEmbedded : option bool;
  thumbnailPath : option string;
  category : option string;
  uploaderId : Z;
  duration : option Z
}.
End InsertVideo.

(** The object given to [updateVideo]: every key may be missing ([None]).
    Its declared type is [Partial<InsertVideo>]; at run time it is the body
    of a request, which can carry every key of a video, [id], [views] and
    [uploadDate] too. *)
Module VideoPatch.
Record t := mk {
  title : option string;
  description : option (option string);
  fileName : option (option string);
  filePath : option (option string);
  embedUrl : option (option string);
  isEmbedded : option (option bool);
  thumbnailPath : option (option string);
  category : option (option string);
  uploaderId : option Z;
  duration : option (option Z);
  id : option Z;
  views : option Z;
  uploadDate : option Z
}.
End VideoPatch.

Module Category.
Record t := mk {
  id : Z;
  name : string
}.
End Category.

Definition DEFAULT_CATEGORIES : list string :=
  ["All"; "Travel"; "Sports"; "Education"; "Technology"; "Entertainment";
   "Music"].

(* ================================================================== *)
(** ** A [Map<number, V>] in insertion order *)

Module NMap.
Section Ops.
Context {V : Type}.

Definition t := list (Z * V).

(** [m.get(k)]; no key of a map is [NaN]. *)
Fixpoint get (k : JS.number) (m : t) : option V :=
  match k, m with
  | Some z, (z', v) :: m' => if z =? z' then Some v else get k m'
  | _, _ => None
  end.

(** [m.set(k, v)]: a key that is present keeps its place. *)
Fixpoint set (k : Z) (v : V) (m : t) : t :=
  match m with
  | [] => [(k, v)]
  | (k', v') :: m' =>
      if k =? k' then (k, v) :: m' else (k', v') :: set k v m'
  end.

(** [m.delete(k)]. *)
Fixpoint delete (k : JS.number) (m : t) : t :=
  match k, m with
  | Some z, (z', v) :: m' =>
      if z =? z' then delete k m' else (z', v) :: delete k m'
  | _, _ => m
  end.

Definition has (k : JS.number) (m : t) : bool :=
  match get k m with
  | Some _ => true
  | None => false
  end.

(** [Array.from(m.values())]. *)
Definition values (m : t) : list V := map snd m.

Definition keys (m : t) : list Z := map fst m.
End Ops.
Arguments t : clear implicits.
End NMap.

(* ================================================================== *)
(** ** The storage module: class MemStorage *)

Module MemStorage.

Record t := mk {
  users : NMap.t User.t;
  videos : NMap.t Video.t;
  categories : NMap.t Category.t;
  nextUserId : Z;
  nextVideoId : Z;
  nextCategoryId : Z
}.

Definition set_users (s : t) (m : NMap.t User.t) (n : Z) : t :=
  mk m (videos s) (categories s) n (nextVideoId s) (nextCategoryId s).

Definition set_videos (s : t) (m : NMap.t Video.t) (n : Z) : t :=
  mk (users s) m (categories s) (nextUserId s) n (nextCategoryId s).

Definition set_categories (s : t) (m : NMap.t Category.t) (n : Z) : t :=
  mk (users s) (videos s) m (nextUserId s) (nextVideoId s) n.

(** *** Users *)

Definition getUser (id : JS.number) (s : t) : option User.t :=
  NMap.get id (users s).

Definition getUserByUsername (username : string) (s : t) : option User.t :=
  find (fun user => String.eqb (User.username user) username)
       (NMap.values (users s)).

Definition createUser (insertUser : InsertUser.t) (s : t) : User.t * t :=
  let id := nextUserId s in
  let user := User.mk id (InsertUser.username insertUser)
                (InsertUser.password insertUser)
                (InsertUser.isAdmin insertUser) in
  (user, set_users s (NMap.set id user (users s)) (id + 1)).

Definition getAllUsers (s : t) : list User.t := NMap.values (users s).

Definition updateUserPassword (id : JS.number) (newPassword : string) (s : t)
  : option User.t * t :=
  match id, NMap.get id (users s) with
  | Some k, Some user =>
      let updatedUser := User.mk (User.id user) (User.username user)
                           newPassword (User.isAdmin user) in
      (Some updatedUser,
       set_users s (NMap.set k updatedUser (users s)) (nextUserId s))
  | _, _ => (None, s)
  end.

(** *** Videos *)

Definition getVideo (id : JS.number) (s : t) : option Video.t :=
  NMap.get id (videos s).

(** The comparator of every listing:
    [new Date(b.uploadDate).getTime() - new Date(a.uploadDate).getTime()]. *)
Definition byUploadDateDesc (a b : Video.t) : Z :=
  Video.uploadDate b - Video.uploadDate a.

Definition getAllVideos (s : t) : list Video.t :=
  JS.sort byUploadDateDesc (NMap.values (videos s)).

(** [video.category === category]. *)
Definition category_is (category : string) (video : Video.t) : bool :=
  match Video.category video with
  | Some c => String.eqb c category
  | None => false
  end.

Definition getVideosByCategory (category : string) (s : t) : list Video.t :=
  if String.eqb category "All" then getAllVideos s
  else JS.sort byUploadDateDesc
         (filter (category_is category) (NMap.values (videos s))).

(** [now] is the value of [new Date()]. *)
Definition createVideo (insertVideo : InsertVideo.t) (now : Z) (s : t)
  : Video.t * t :=
  let id := nextVideoId s in
  let video :=
    Video.mk id
      (InsertVideo.title insertVideo)
      (InsertVideo.description insertVideo)
      (InsertVideo.fileName insertVideo)
      (InsertVideo.filePath insertVideo)
      (InsertVideo.embedUrl insertVideo)
      (InsertVideo.isEmbedded insertVideo)
      (InsertVideo.thumbnailPath insertVideo)
      (InsertVideo.category insertVideo)
      (InsertVideo.uploaderId insertVideo)
      0
      now
      (InsertVideo.duration insertVideo) in
  (video, set_videos s (NMap.set id video (videos s)) (id + 1)).

(** One key of [{ ...existingVideo, ...updates }]. *)
Definition patched {A : Type} (old : A) (upd : option A) : A :=
  match upd with
  | Some new => new
  | None => old
  end.

Definition updateVideo (id : JS.number) (updates : VideoPatch.t) (s : t)
  : option Video.t * t :=
  match id, NMap.get id (videos s) with
  | Some k, Some existingVideo =>
      let updatedVideo :=
        Video.mk
          (patched (Video.id existingVideo) (VideoPatch.id updates))
          (patched (Video.title existingVideo) (VideoPatch.title updates))
          (patched (Video.description existingVideo)
                   (VideoPatch.description updates))
          (patched (Video.fileName existingVideo)
                   (VideoPatch.fileName updates))
          (patched (Video.filePath existingVideo)
                   (VideoPatch.filePath updates))
          (patched (Video.embedUrl existingVideo)
                   (VideoPatch.embedUrl updates))
          (patched (Video.isEmbedded existingVideo)
                   (VideoPatch.isEmbedded updates))
          (patched (Video.thumbnailPath existingVideo)
                   (VideoPatch.thumbnailPath updates))
          (patched (Video.category existingVideo)
                   (VideoPatch.category updates))
          (patched (Video.uploaderId existingVideo)
                   (VideoPatch.uploaderId updates))
          (patched (Video.views existingVideo) (VideoPatch.views updates))
          (patched (Video.uploadDate existingVideo)
                   (VideoPatch.uploadDate updates))
          (patched (Video.duration existingVideo)
                   (VideoPatch.duration updates)) in
      (Some updatedVideo,
       set_videos s (NMap.set k updatedVideo (videos s)) (nextVideoId s))
  | _, _ => (None, s)
  end.

Definition deleteVideo (id : JS.number) (s : t) : bool * t :=
  (NMap.has id (videos s),
   set_videos s (NMap.delete id (videos s)) (nextVideoId s)).

Definition with_views (video : Video.t) (n : Z) : Video.t :=
  Video.mk (Video.id video) (Video.title video) (Video.description video)
    (Video.fileName video) (Video.filePath video) (Video.embedUrl video)
    (Video.isEmbedded video) (Video.thumbnailPath video)
    (Video.category video) (Video.uploaderId video) n
    (Video.uploadDate video) (Video.duration video).

Definition incrementViews (id : JS.number) (s : t) : option Video.t * t :=
  match id, NMap.get id (videos s) with
  | Some k, Some video =>
      let updatedVideo := with_views video (Video.views video + 1) in
      (Some updatedVideo,
       set_videos s (NMap.set k updatedVideo (videos s)) (nextVideoId s))
  | _, _ => (None, s)
  end.

(** [video.description && video.description.toLowerCase().includes(q)]:
    [null] and [""] are falsy. *)
Definition description_matches (lowerQuery : string) (video : Video.t)
  : bool :=
  match Video.description video with
  | Some d => JS.truthy d && JS.includes (JS.toLowerCase d) lowerQuery
  | None => false
  end.

Definition search_matches (lowerQuery : string) (video : Video.t) : bool :=
  JS.includes (JS.toLowerCase (Video.title video)) lowerQuery
  || description_matches lowerQuery video.

Definition searchVideos (query : string) (s : t) : list Video.t :=
  let lowerQuery := JS.toLowerCase query in
  JS.sort byUploadDateDesc
    (filter (search_matches lowerQuery) (NMap.values (videos s))).

(** *** Categories *)

Definition getAllCategories (s : t) : list Category.t :=
  NMap.values (categories s).

Definition createCategory (name : string) (s : t) : Category.t * t :=
  let id := nextCategoryId s in
  let category := Category.mk id name in
  (category, set_categories s (NMap.set id category (categories s)) (id + 1)).

(** *** The constructor *)

Definition empty : t := mk [] [] [] 1 1 1.

Definition constructor : t :=
  let s := snd (createUser (InsertUser.mk "admin" "admin123" true) empty) in
  fold_left (fun s name => snd (createCategory name s)) DEFAULT_CATEGORIES s.

End MemStorage.

(* ================================================================== *)
(** ** Request bodies and the schemas that validate them *)

(** A parsed JSON object, one level deep: no schema of the server accepts
    an array or an object as the value of a key. *)
Module Json.

Inductive value :=
| Null
| Bool (b : bool)
| Num (n : Z)
| Str (s : string)
| Other.

Definition object := list (string * value).

(** [o[k]]; [None] is [undefined]. *)
Fixpoint get (k : string) (o : object) : option value :=
  match o with
  | [] => None
  | (k', v) :: o' => if String.eqb k k' then Some v else get k o'
  end.

(** [{ ...o, k: v }]. *)
Definition set (k : string) (v : value) (o : object) : object :=
  (k, v) :: o.

End Json.

(** The result of [schema.parse]: a value, or a [ZodError] is thrown. *)
Module Zod.

Inductive result (A : Type) :=
| Ok (a : A)
| ZodError.
Arguments Ok {A} a.
Arguments ZodError {A}.

Definition bind {A B : Type} (r : result A) (k : A -> result B) : result B :=
  match r with
  | Ok a => k a
  | ZodError => ZodError
  end.

Notation "x <- r ;; k" := (bind r (fun x => k))
  (at level 61, r at next level, right associativity).

Definition refine (b : bool) : result unit :=
  if b then Ok tt else ZodError.

(** [z.string()] on a required key. *)
Definition string_ (k : string) (o : Json.object) : result string :=
  match Json.get k o with
  | Some (Json.Str s) => Ok s
  | _ => ZodError
  end.

(** [z.string().min(n)]. *)
Definition string_min (n : nat) (k : string) (o : Json.object)
  : result string :=
  s <- string_ k o ;;
  _ <- refine (Nat.leb n (String.length s)) ;;
  Ok s.

(** [z.string().optional()]. *)
Definition string_optional (k : string) (o : Json.object)
  : result (option string) :=
  match Json.get k o with
  | None => Ok None
  | Some (Json.Str s) => Ok (Some s)
  | Some _ => ZodError
  end.

(** A nullable text column of an insert schema: optional and nullable. *)
Definition string_nullish (k : string) (o : Json.object)
  : result (option string) :=
  match Json.get k o with
  | None => Ok None
  | Some Json.Null => Ok None
  | Some (Json.Str s) => Ok (Some s)
  | Some _ => ZodError
  end.

Definition boolean_nullish (k : string) (o : Json.object)
  : result (option bool) :=
  match Json.get k o with
  | None => Ok None
  | Some Json.Null => Ok None
  | Some (Json.Bool b) => Ok (Some b)
  | Some _ => ZodError
  end.

Definition number_ (k : string) (o : Json.object) : result Z :=
  match Json.get k o with
  | Some (Json.Num n) => Ok n
  | _ => ZodError
  end.

Definition number_nullish (k : string) (o : Json.object)
  : result (option Z) :=
  match Json.get k o with
  | None => Ok None
  | Some Json.Null => Ok None
  | Some (Json.Num n) => Ok (Some n)
  | Some _ => ZodError
  end.

(** [z.literal(true)]. *)
Definition literal_true (k : string) (o : Json.object) : result unit :=
  match Json.get k o with
  | Some (Json.Bool true) => Ok tt
  | _ => ZodError
  end.

End Zod.

Import Zod.

Module PasswordChange.
Record t := mk {
  currentPassword : string;
  newPassword : string;
  confirmPassword : string
}.
End PasswordChange.

Definition passwordChangeSchema (o : Json.object)
  : Zod.result PasswordChange.t :=
  c <- Zod.string_min 1 "currentPassword" o ;;
  n <- Zod.string_min 6 "newPassword" o ;;
  k <- Zod.string_min 6 "confirmPassword" o ;;
  _ <- Zod.refine (String.eqb n k) ;;
  Zod.Ok (PasswordChange.mk c n k).

Definition insertVideoSchema (o : Json.object) : Zod.result InsertVideo.t :=
  title <- Zod.string_ "title" o ;;
  description <- Zod.string_nullish "description" o ;;
  fileName <- Zod.string_nullish "fileName" o ;;
  filePath <- Zod.string_nullish "filePath" o ;;
  embedUrl <- Zod.string_nullish "embedUrl" o ;;
  isEmbedded <- Zod.boolean_nullish "isEmbedded" o ;;
  thumbnailPath <- Zod.string_nullish "thumbnailPath" o ;;
  category <- Zod.string_nullish "category" o ;;
  uploaderId <- Zod.number_ "uploaderId" o ;;
  duration <- Zod.number_nullish "duration" o ;;
  Zod.Ok (InsertVideo.mk title description fileName filePath embedUrl
            isEmbedded thumbnailPath category uploaderId duration).

Module EmbedVideo.
Record t := mk {
  title : string;
  description : option string;
  embedUrl : string;
  category : option string
}.
End EmbedVideo.

(** [embedVideoSchema]; [is_url s] says that [new URL(s)] does not throw,
    which is what [z.string().url()] checks. *)
Definition embedVideoSchema (is_url : string -> bool) (o : Json.object)
  : Zod.result EmbedVideo.t :=
  title <- Zod.string_min 1 "title" o ;;
  description <- Zod.string_optional "description" o ;;
  embedUrl <- Zod.string_ "embedUrl" o ;;
  _ <- Zod.refine (is_url embedUrl) ;;
  category <- Zod.string_optional "category" o ;;
  _ <- Zod.literal_true "isEmbedded" o ;;
  Zod.Ok (EmbedVideo.mk title description embedUrl category).

(* ================================================================== *)
(** ** The file system seen through [fs] *)

Module Fs.

(** The regular files, by path. *)
Definition t := string -> option (list Byte.byte).

Definition MAX_SAFE_INTEGER : Z := 2 ^ 53 - 1.

(** [fs.existsSync(path)]; it is [false] for a path that is [null]. *)
Definition existsSync (fs : t) (path : option string) : bool :=
  match path with
  | Some p => match fs p with Some _ => true | None => false end
  | None => false
  end.

(** [fs.statSync(path).size]; [None] when [statSync] throws. *)
Definition statSync_size (fs : t) (path : option string) : option Z :=
  match path with
  | Some p =>
      match fs p with
      | Some content => Some (Z.of_nat (List.length content))
      | None => None
      end
  | None => None
  end.

Definition unlinkSync (path : string) (fs : t) : t :=
  fun p => if String.eqb p path then None else fs p.

Definition writeFile (path : string) (content : list Byte.byte) (fs : t) : t :=
  fun p => if String.eqb p path then Some content else fs p.

(** The check of [start] and of [end] by the constructor of a read
    stream: an integer between [0] and [Number.MAX_SAFE_INTEGER]. *)
Definition valid_offset (n : JS.number) : option Z :=
  match n with
  | Some z => if (0 <=? z) && (z <=? MAX_SAFE_INTEGER) then Some z else None
  | None => None
  end.

(** The bytes at the offsets [start] to [end_], both included, that the
    file has. *)
Definition slice (start end_ : Z) (content : list Byte.byte)
  : list Byte.byte :=
  firstn (Z.to_nat (end_ - start + 1)) (skipn (Z.to_nat start) content).

(** [fs.createReadStream(path, { start, end })], read to its end.  The
    constructor throws ([None]) unless both offsets are valid and
    [start <= end]; the stream stops at the end of the file. *)
Definition createReadStream_range (fs : t) (path : option string)
    (start end_ : JS.number) : option (list Byte.byte) :=
  match valid_offset start, valid_offset end_ with
  | Some s, Some e =>
      if s <=? e then
        match path with
        | Some p =>
            match fs p with
            | Some content => Some (slice s e content)
            | None => None
            end
        | None => None
        end
      else None
  | _, _ => None
  end.

(** [fs.createReadStream(path)], read to its end. *)
Definition createReadStream (fs : t) (path : option string)
  : option (list Byte.byte) :=
  match path with
  | Some p => fs p
  | None => None
  end.

End Fs.

(* ================================================================== *)
(** ** The routes module *)

Module Routes.

(** A file part of a multipart body, as multer sees it. *)
Record FilePart := mkFilePart {
  fieldname : string;
  originalname : string;
  mimetype : string;
  content : list Byte.byte
}.

(** [req.file], once multer has stored the part. *)
Record StoredFile := mkStoredFile {
  file_originalname : string;
  file_path : string
}.

(** What the handlers read of a request.  [videoData] is the outcome of
    [JSON.parse(req.body.videoData)], [None] when it throws. *)
Record Request := mkRequest {
  session_user : option User.t;
  params_id : string;
  query_category : option string;
  query_search : option string;
  headers_range : option string;
  body : Json.object;
  videoData : option Json.object;
  files : list FilePart
}.

(** What a request cannot choose: the clock, the identifier drawn by
    [uuidv4()] and the directory of the uploads. *)
Record Env := mkEnv {
  now : Z;
  uuid : string;
  uploadsDir : string
}.

Record World := mkWorld {
  store : MemStorage.t;
  disk : Fs.t
}.

Inductive HeaderValue :=
| HNum (n : JS.number)
| HStr (s : string).

Inductive Payload :=
| Message (message : string)
| ValidationError
| Confirmation (message : string)
| Videos (videos : list Video.t)
| OneVideo (video : Video.t)
| Views (views : Z)
| Bytes (bytes : list Byte.byte).

(** A response: the status, the headers the handler writes itself, and
    the body. *)
Record Response := mkResponse {
  status : Z;
  headers : list (string * HeaderValue);
  payload : Payload
}.

(** [res.status(code).json(x)]. *)
Definition json (code : Z) (x : Payload) : Response := mkResponse code [] x.

(** A middleware chain ends with a response, or with an error given to
    [next], which the routes do not handle themselves. *)
Inductive Outcome :=
| Responded (r : Response)
| NextError (message : string).

Record Result := mkResult {
  outcome : Outcome;
  world : World;
  session : option User.t
}.

Definition respond (r : Response) (w : World) (req : Request) : Result :=
  mkResult (Responded r) w (session_user req).

(** *** Middlewares *)

Definition requireAuth (req : Request) (w : World)
    (next : User.t -> Result) : Result :=
  match session_user req with
  | None => respond (json 401 (Message "Unauthorized")) w req
  | Some user => next user
  end.

Definition validateRequest {A : Type}
    (schema : Json.object -> Zod.result A) (req : Request) (w : World)
    (next : A -> Result) : Result :=
  match schema (body req) with
  | Zod.Ok a => next a
  | Zod.ZodError => respond (json 400 ValidationError) w req
  end.

(** [fileFilter]: only a MIME type that starts with [video/] passes. *)
Definition fileFilter (file : FilePart) : bool :=
  JS.startsWith (mimetype file) "video/".

Definition fileSizeLimit : Z := 500 * 1024 * 1024.

(** [storage_config]: the destination and the file name. *)
Definition stored_path (env : Env) (file : FilePart) : string :=
  (uploadsDir env ++ "/" ++ uuid env ++ "-" ++ originalname file)%string.

(** [upload.single('file')] on the file parts in their order: a part of
    another field, or a second part, is unexpected; a part has to pass
    [fileFilter] and the size limit; then it is written to the disk.  After
    an error multer removes what it wrote. *)
Fixpoint upload_parts (env : Env) (parts : list FilePart)
    (stored : option StoredFile) (fs : Fs.t)
  : string + (option StoredFile * Fs.t) :=
  match parts with
  | [] => inr (stored, fs)
  | part :: parts' =>
      match stored with
      | Some _ => inl "Unexpected field"
      | None =>
          if negb (String.eqb (fieldname part) "file")
          then inl "Unexpected field"
          else if negb (fileFilter part)
          then inl "Only video files are allowed"
          else if fileSizeLimit <? Z.of_nat (List.length (content part))
          then inl "File too large"
          else
            let path := stored_path env part in
            upload_parts env parts'
              (Some (mkStoredFile (originalname part) path))
              (Fs.writeFile path (content part) fs)
      end
  end.

Definition upload_single (env : Env) (req : Request) (w : World)
    (next : option StoredFile -> World -> Result) : Result :=
  match upload_parts env (files req) None (disk w) with
  | inl message => mkResult (NextError message) w (session_user req)
  | inr (file, fs) => next file (mkWorld (store w) fs)
  end.

(** *** POST /auth/change-password *)

Definition change_password (req : Request) (w : World) : Result :=
  requireAuth req w (fun session_u =>
  validateRequest passwordChangeSchema req w (fun b =>
    let userId := Some (User.id session_u) in
    match MemStorage.getUser userId (store w) with
    | None => respond (json 404 (Message "User not found")) w req
    | Some user =>
        if negb (String.eqb (User.password user)
                            (PasswordChange.currentPassword b))
        then respond (json 400 (Message "Current password is incorrect"))
                     w req
        else
          let '(updatedUser, st) :=
            MemStorage.updateUserPassword userId
              (PasswordChange.newPassword b) (store w) in
          mkResult
            (Responded
               (json 200 (Confirmation "Password updated successfully")))
            (mkWorld st (disk w))
            (match updatedUser with
             | Some u => Some u
             | None => session_user req
             end)
    end)).

(** *** GET /videos *)

Definition videos_of_category (category : option string)
    (st : MemStorage.t) : list Video.t :=
  match category with
  | Some c =>
      if JS.truthy c then MemStorage.getVideosByCategory c st
      else MemStorage.getAllVideos st
  | None => MemStorage.getAllVideos st
  end.

Definition get_videos (req : Request) (w : World) : Result :=
  let category := query_category req in
  let search := query_search req in
  let videos :=
    match search with
    | Some q =>
        if JS.truthy q then MemStorage.searchVideos q (store w)
        else videos_of_category category (store w)
    | None => videos_of_category category (store w)
    end in
  respond (json 200 (Videos videos)) w req.

(** *** POST /videos *)

(** [{ ...videoData, fileName, filePath, uploaderId }]. *)
Definition upload_fields (videoData : Json.object) (file : StoredFile)
    (user : User.t) : Json.object :=
  Json.set "fileName" (Json.Str (file_originalname file))
    (Json.set "filePath" (Json.Str (file_path file))
       (Json.set "uploaderId" (Json.Num (User.id user)) videoData)).

Definition post_videos (env : Env) (req : Request) (w : World) : Result :=
  requireAuth req w (fun user =>
  upload_single env req w (fun file w1 =>
    match file with
    | None => respond (json 400 (Message "No video file uploaded")) w1 req
    | Some f =>
        match videoData req with
        | None => respond (json 500 (Message "Error uploading video")) w1 req
        | Some data =>
            match insertVideoSchema (upload_fields data f user) with
            | Zod.ZodError => respond (json 400 ValidationError) w1 req
            | Zod.Ok validated =>
                let '(video, st) :=
                  MemStorage.createVideo validated (now env) (store w1) in
                respond (json 201 (OneVideo video))
                        (mkWorld st (disk w1)) req
            end
        end
    end)).

(** *** DELETE /videos/:id *)

Definition delete_video (req : Request) (w : World) : Result :=
  requireAuth req w (fun user =>
    let id := JS.parseInt (params_id req) 0 in
    match MemStorage.getVideo id (store w) with
    | None => respond (json 404 (Message "Video not found")) w req
    | Some video =>
        if negb (User.isAdmin user)
           && negb (Video.uploaderId video =? User.id user)
        then respond
               (json 403 (Message "Not authorized to delete this video"))
               w req
        else
          let st := snd (MemStorage.deleteVideo id (store w)) in
          let fs :=
            match Video.filePath video with
            | Some p =>
                if Fs.existsSync (disk w) (Some p)
                then Fs.unlinkSync p (disk w)
                else disk w
            | None => disk w
            end in
          respond (json 200 (Confirmation "Video deleted successfully"))
                  (mkWorld st fs) req
    end).

(** *** POST /videos/:id/views *)

Definition post_views (req : Request) (w : World) : Result :=
  let id := JS.parseInt (params_id req) 0 in
  match MemStorage.incrementViews id (store w) with
  | (None, _) => respond (json 404 (Message "Video not found")) w req
  | (Some updatedVideo, st) =>
      respond (json 200 (Views (Video.views updatedVideo)))
              (mkWorld st (disk w)) req
  end.

(** *** GET /stream/:id *)

Definition streaming_error : Response :=
  json 500 (Message "Error streaming video").

(** The branch of a request with a [Range] header. *)
Definition stream_range (fs : Fs.t) (video : Video.t) (fileSize : Z)
    (range : string) : Response :=
  let parts := JS.split "-" (JS.replace_first "bytes=" "" range) in
  let start := JS.parseInt (nth 0 parts "") 10 in
  let end_ :=
    match nth_error parts 1 with
    | Some p => if JS.truthy p then JS.parseInt p 10 else Some (fileSize - 1)
    | None => Some (fileSize - 1)
    end in
  let chunksize := JS.add (JS.sub end_ start) (Some 1) in
  match Fs.createReadStream_range fs (Video.filePath video) start end_ with
  | None => streaming_error
  | Some file =>
      mkResponse 206
        [("Content-Range",
          HStr ("bytes " ++ JS.to_string start ++ "-" ++ JS.to_string end_
                ++ "/" ++ JS.to_string (Some fileSize))%string);
         ("Accept-Ranges", HStr "bytes");
         ("Content-Length", HNum chunksize);
         ("Content-Type", HStr "video/mp4")]
        (Bytes file)
  end.

(** The branch of a request without one. *)
Definition stream_full (fs : Fs.t) (video : Video.t) (fileSize : Z)
  : Response :=
  match Fs.createReadStream fs (Video.filePath video) with
  | None => streaming_error
  | Some file =>
      mkResponse 200
        [("Content-Length", HNum (Some fileSize));
         ("Content-Type", HStr "video/mp4")]
        (Bytes file)
  end.

Definition stream (req : Request) (w : World) : Result :=
  let id := JS.parseInt (params_id req) 0 in
  let response :=
    match MemStorage.getVideo id (store w) with
    | None => json 404 (Message "Video not found")
    | Some video =>
        if negb (Fs.existsSync (disk w) (Video.filePath video))
        then json 404 (Message "Video not found")
        else
          match Fs.statSync_size (disk w) (Video.filePath video) with
          | None => streaming_error
          | Some fileSize =>
              match headers_range req with
              | Some range =>
                  if JS.truthy range
                  then stream_range (disk w) video fileSize range
                  else stream_full (disk w) video fileSize
              | None => stream_full (disk w) video fileSize
              end
          end
    end in
  respond response w req.

End Routes.

(* ================================================================== *)
(** ** Notions used to state the properties *)

Module Numerals.

(** The value of the decimal numeral [d] read after the digits that gave
    [acc]. *)
Fixpoint uint_acc (d : uint) (acc : Z) : Z :=
  match d with
  | Nil => acc
  | D0 l => uint_acc l (acc * 10 + 0)
  | D1 l => uint_acc l (acc * 10 + 1)
  | D2 l => uint_acc l (acc * 10 + 2)
  | D3 l => uint_acc l (acc * 10 + 3)
  | D4 l => uint_acc l (acc * 10 + 4)
  | D5 l => uint_acc l (acc * 10 + 5)
  | D6 l => uint_acc l (acc * 10 + 6)
  | D7 l => uint_acc l (acc * 10 + 7)
  | D8 l => uint_acc l (acc * 10 + 8)
  | D9 l => uint_acc l (acc * 10 + 9)
  end.

Definition is_digit (c : ascii) : bool :=
  (48 <=? JS.code c) && (JS.code c <=? 57).

Fixpoint all_digits (s : string) : bool :=
  match s with
  | EmptyString => true
  | String c s' => is_digit c && all_digits s'
  end.

(** The header [bytes=<start>-<end>], [end] optional, as a client
    writes it. *)
Definition range_header (start : Z) (end_ : option Z) : string :=
  ("bytes=" ++ JS.to_string (Some start) ++ "-"
   ++ match end_ with
      | Some e => JS.to_string (Some e)
      | None => ""
      end)%string.

End Numerals.

(** The words of the specification for the search, on text of ASCII: a
    text contains a query case-insensitively when some segment of the text
    has the letters of the query, up to their case.  And what the store
    compares, on every text: the lower cases. *)
Module Search.





(** Two characters of ASCII that are equal, or the upper-case and the
    lower-case form of one letter. *)
Definition same_letter (a b : ascii) : Prop :=
  JS.code a = JS.code b
  \/ (65 <= JS.code a <= 90 /\ JS.code b = JS.code a + 32)
  \/ (65 <= JS.code b <= 90 /\ JS.code a = JS.code b + 32).

Inductive same_text : string -> string -> Prop :=
| same_empty : same_text EmptyString EmptyString
| same_cons a b s t :
    same_letter a b -> same_text s t -> same_text (String a s) (String b t).

Definition contains_ci (text query : string) : Prop :=
  exists before segment after,
    text = (before ++ segment ++ after)%string /\ same_text segment query.





End Search.

(** The operations of the store that change it, and their runs. *)
Module StoreOps.

Inductive op :=
| CreateUser (insertUser : InsertUser.t)
| UpdateUserPassword (id : JS.number) (newPassword : string)
| CreateVideo (insertVideo : InsertVideo.t) (now : Z)
| UpdateVideo (id : JS.number) (updates : VideoPatch.t)
| DeleteVideo (id : JS.number)
| IncrementViews (id : JS.number)
| CreateCategory (name : string).

Definition run (o : op) (s : MemStorage.t) : MemStorage.t :=
  match o with
  | CreateUser u => snd (MemStorage.createUser u s)
  | UpdateUserPassword id p => snd (MemStorage.updateUserPassword id p s)
  | CreateVideo v now => snd (MemStorage.createVideo v now s)
  | UpdateVideo id u => snd (MemStorage.updateVideo id u s)
  | DeleteVideo id => snd (MemStorage.deleteVideo id s)
  | IncrementViews id => snd (MemStorage.incrementViews id s)
  | CreateCategory name => snd (MemStorage.createCategory name s)
  end.

Definition run_all (ops : list op) (s : MemStorage.t) : MemStorage.t :=
  fold_left (fun s o => run o s) ops s.

(** The stores that the server can be in. *)
Inductive reachable : MemStorage.t -> Prop :=
| reachable_constructor : reachable MemStorage.constructor
| reachable_run o s : reachable s -> reachable (run o s).

(** No identifier of a video is ahead of the counter. *)
Definition ids_below_next (s : MemStorage.t) : Prop :=
  Forall (fun k => k < MemStorage.nextVideoId s)
         (NMap.keys (MemStorage.videos s)).

(** An operation that is not an update with a [views] key. *)
Definition keeps_views (o : op) : Prop :=
  match o with
  | UpdateVideo _ updates => VideoPatch.views updates = None
  | _ => True
  end.

(** An operation that is not an update with an [id] key. *)
Definition keeps_id (o : op) : Prop :=
  match o with
  | UpdateVideo _ updates => VideoPatch.id updates = None
  | _ => True
  end.

(** The stores that such operations lead to. *)
Inductive reachable_keeping_ids : MemStorage.t -> Prop :=
| keeping_constructor : reachable_keeping_ids MemStorage.constructor
| keeping_run o s :
    reachable_keeping_ids s -> keeps_id o ->
    reachable_keeping_ids (run o s).

(** [incrementViews(id)], [n] times. *)
Definition incrementViews_times (n : nat) (id : JS.number)
    (s : MemStorage.t) : MemStorage.t :=
  Nat.iter n (fun s => snd (MemStorage.incrementViews id s)) s.

End StoreOps.

(** Sample data: a store with one uploaded video, and its file. *)
Module Fixtures.
Import Routes.

(** The end offset of a range: the one given, or the last byte. *)
Definition range_end (fileSize : Z) (end_ : option Z) : Z :=
  match end_ with
  | Some e => e
  | None => fileSize - 1
  end.

(** The headers of a partial response. *)
Definition partial_headers (start end_ fileSize : Z)
  : list (string * HeaderValue) :=
  [("Content-Range",
    HStr ("bytes " ++ JS.to_string (Some start) ++ "-"
          ++ JS.to_string (Some end_) ++ "/"
          ++ JS.to_string (Some fileSize))%string);
   ("Accept-Ranges", HStr "bytes");
   ("Content-Length", HNum (Some (end_ - start + 1)));
   ("Content-Type", HStr "video/mp4")].

(** A store with one uploaded video and a disk with its file of a
    thousand bytes, the byte at offset [i] being [i mod 256]. *)
Definition clip_path : string := "/srv/uploads/1f0e-clip.mp4".

Definition clip : Video.t :=
  Video.mk 1 "Clip" None (Some "clip.mp4") (Some clip_path) None None None
    (Some "Travel") 1 0 1700000000000 None.

Definition clip_bytes : list Byte.byte :=
  map (fun n => match Byte.of_nat (n mod 256) with
                | Some b => b
                | None => Byte.x00
                end) (seq 0 1000).

Definition viewer : User.t := User.mk 2 "viewer" "viewer-pass" false.

Definition admin : User.t := User.mk 1 "admin" "admin123" true.

Definition clip_insert : InsertVideo.t :=
  InsertVideo.mk "Clip" None (Some "clip.mp4") (Some clip_path) None None
    None (Some "Travel") 1 None.

(** The store after the viewer signed up and the administrator uploaded
    the clip. *)
Definition clip_store : MemStorage.t :=
  StoreOps.run_all
    [StoreOps.CreateUser (InsertUser.mk "viewer" "viewer-pass" false);
     StoreOps.CreateVideo clip_insert 1700000000000]
    MemStorage.constructor.

Definition clip_world : World :=
  mkWorld clip_store (Fs.writeFile clip_path clip_bytes (fun _ => None)).

Definition stream_request (range : option string) : Request :=
  mkRequest None "1" None None range [] None [].

Definition sample_env : Env := mkEnv 1700000360000 "9b2d" "/srv/uploads".

(** The administrator, with a wrong current password. *)
Definition wrong_password_request : Request :=
  mkRequest (Some admin) "" None None None
    [("currentPassword", Json.Str "admin124");
     ("newPassword", Json.Str "s3cret-new");
     ("confirmPassword", Json.Str "s3cret-new")]
    None [].

(** The viewer asks to delete the clip of the administrator. *)
Definition foreign_delete_request : Request :=
  mkRequest (Some viewer) "1" None None None [] None [].

(** The viewer uploads a text file. *)
Definition text_upload_request : Request :=
  mkRequest (Some viewer) "" None None None []
    (Some [("title", Json.Str "Notes")])
    [mkFilePart "file" "notes.txt" "text/plain"
       [Byte.x68; Byte.x69]].

(** A search for [clip] within the category [Sports]. *)
Definition search_and_category_request : Request :=
  mkRequest None "" (Some "Sports") (Some "clip") None [] None [].

(** The viewer registers a link. *)
Definition embed_request : Request :=
  mkRequest (Some viewer) "" None None None
    [("title", Json.Str "Talk");
     ("embedUrl", Json.Str "https://example.org/v/1");
     ("category", Json.Str "Education");
     ("isEmbedded", Json.Bool true)]
    None [].

(** A stand-in for the check of [new URL]: a scheme of the web. *)
Definition web_url (s : string) : bool :=
  String.prefix "https://" s || String.prefix "http://" s.

End Fixtures.

(** Sample data: three videos, two of them created in the same
    millisecond. *)
Module Library.

Definition rome : InsertVideo.t :=
  InsertVideo.mk "Holiday in Rome" None (Some "rome.mp4")
    (Some "/srv/uploads/a1-rome.mp4") None None None (Some "Travel") 1 None.

Definition final : InsertVideo.t :=
  InsertVideo.mk "Cup final" (Some "Filmed in ROME") (Some "final.mp4")
    (Some "/srv/uploads/b2-final.mp4") None None None (Some "Sports") 1
    (Some 5400).

Definition lecture : InsertVideo.t :=
  InsertVideo.mk "Lecture" (Some "") None None
    (Some "https://example.org/lecture") (Some true) None None 1 None.

Definition store : MemStorage.t :=
  StoreOps.run_all
    [StoreOps.CreateVideo rome 1000;
     StoreOps.CreateVideo final 3000;
     StoreOps.CreateVideo lecture 3000]
    MemStorage.constructor.

Definition ids (l : list Video.t) : list Z := map Video.id l.



End Library.

(* ================================================================== *)
(** ** The rest of the routes module *)

Module Login.
Record t := mk {
  username : string;
  password : string
}.
End Login.

Definition loginSchema (o : Json.object) : Zod.result Login.t :=
  u <- Zod.string_min 3 "username" o ;;
  p <- Zod.string_min 6 "password" o ;;
  Zod.Ok (Login.mk u p).

(** The routes of the accounts, of the categories and of the
    administrator; their bodies have shapes of their own. *)
Module Accounts.
Import Routes.

Inductive Payload :=
| Message (message : string)
| ValidationError
| UserSummary (id : Z) (username : string) (isAdmin : bool)
| NotAuthenticated
| Me (id : Z) (username : string) (isAdmin : bool)
| Users (users : list User.t)
| Videos (videos : list Video.t)
| Categories (categories : list Category.t).

Record Response := mkResponse {
  status : Z;
  payload : Payload
}.

(** The response, and [req.session.user] after the handler. *)
Record Result := mkResult {
  response : Response;
  session : option User.t
}.

(** [POST /auth/login], after [validateRequest(loginSchema)]. *)
Definition login (req : Request) (w : World) : Result :=
  match loginSchema (body req) with
  | Zod.ZodError =>
      mkResult (mkResponse 400 ValidationError) (session_user req)
  | Zod.Ok credentials =>
      match MemStorage.getUserByUsername (Login.username credentials)
              (store w) with
      | Some user =>
          if negb (String.eqb (User.password user)
                              (Login.password credentials))
          then mkResult
                 (mkResponse 401 (Message "Invalid username or password"))
                 (session_user req)
          else mkResult
                 (mkResponse 200
                    (UserSummary (User.id user) (User.username user)
                       (User.isAdmin user)))
                 (Some user)
      | None =>
          mkResult (mkResponse 401 (Message "Invalid username or password"))
                   (session_user req)
      end
  end.

(** [GET /auth/me]. *)
Definition auth_me (req : Request) : Result :=
  match session_user req with
  | None => mkResult (mkResponse 401 NotAuthenticated) None
  | Some user =>
      mkResult
        (mkResponse 200
           (Me (User.id user) (User.username user) (User.isAdmin user)))
        (Some user)
  end.

(** The middleware of the administrator. *)
Definition requireAdmin (req : Request) (next : Result) : Result :=
  match session_user req with
  | None =>
      mkResult (mkResponse 403 (Message "Forbidden - Admin access required"))
               None
  | Some user =>
      if negb (User.isAdmin user)
      then mkResult
             (mkResponse 403 (Message "Forbidden - Admin access required"))
             (Some user)
      else next
  end.

(** [GET /admin/videos]. *)
Definition admin_videos (req : Request) (w : World) : Result :=
  requireAdmin req
    (mkResult (mkResponse 200 (Videos (MemStorage.getAllVideos (store w))))
              (session_user req)).

(** [GET /admin/users]. *)
Definition admin_users (req : Request) (w : World) : Result :=
  requireAdmin req
    (mkResult (mkResponse 200 (Users (MemStorage.getAllUsers (store w))))
              (session_user req)).

(** [GET /categories]. *)
Definition get_categories (req : Request) (w : World) : Result :=
  mkResult
    (mkResponse 200 (Categories (MemStorage.getAllCategories (store w))))
    (session_user req).

End Accounts.

(** Two more routes of one video: reading it and updating it. *)
Module VideoRoutes.
Import Routes.


(** One key of the body of an update, read at the type of its column: a
    text, a number (for [uploadDate] the milliseconds of the date), a
    boolean, [null] where the column allows it.  A value that the column
    cannot have is not a value of a field of [Video.t]: such a key is read
    as one that is missing, and what is proved of an update names the keys it
    is about and the values they have. *)
Definition text_key (k : string) (o : Json.object) : option string :=
  match Json.get k o with
  | Some (Json.Str s) => Some s
  | _ => None
  end.

Definition number_key (k : string) (o : Json.object) : option Z :=
  match Json.get k o with
  | Some (Json.Num n) => Some n
  | _ => None
  end.

Definition nullable_text_key (k : string) (o : Json.object)
  : option (option string) :=
  match Json.get k o with
  | Some (Json.Str s) => Some (Some s)
  | Some Json.Null => Some None
  | _ => None
  end.

Definition nullable_number_key (k : string) (o : Json.object)
  : option (option Z) :=
  match Json.get k o with
  | Some (Json.Num n) => Some (Some n)
  | Some Json.Null => Some None
  | _ => None
  end.

Definition nullable_boolean_key (k : string) (o : Json.object)
  : option (option bool) :=
  match Json.get k o with
  | Some (Json.Bool b) => Some (Some b)
  | Some Json.Null => Some None
  | _ => None
  end.

(** [req.body] as [updateVideo] spreads it over the video. *)
Definition patch_of_body (o : Json.object) : VideoPatch.t :=
  VideoPatch.mk
    (text_key "title" o)
    (nullable_text_key "description" o)
    (nullable_text_key "fileName" o)
    (nullable_text_key "filePath" o)
    (nullable_text_key "embedUrl" o)
    (nullable_boolean_key "isEmbedded" o)
    (nullable_text_key "thumbnailPath" o)
    (nullable_text_key "category" o)
    (number_key "uploaderId" o)
    (nullable_number_key "duration" o)
    (number_key "id" o)
    (number_key "views" o)
    (number_key "uploadDate" o).

(** [PUT /videos/:id]: the body goes to [updateVideo] as it is, without
    any validation. *)
Definition put_video (req : Request) (w : World) : Result :=
  requireAuth req w (fun user =>
    let id := JS.parseInt (params_id req) 0 in
    match MemStorage.getVideo id (store w) with
    | None => respond (json 404 (Message "Video not found")) w req
    | Some video =>
        if negb (User.isAdmin user)
           && negb (Video.uploaderId video =? User.id user)
        then respond
               (json 403 (Message "Not authorized to update this video"))
               w req
        else
          match MemStorage.updateVideo id (patch_of_body (body req))
                  (store w) with
          | (Some updatedVideo, st) =>
              respond (json 200 (OneVideo updatedVideo))
                      (mkWorld st (disk w)) req
          | (None, st) =>
              (* [res.json(undefined)], a response without a body; the
                 video was found above, so this does not occur *)
              respond (json 200 (Confirmation EmptyString))
                      (mkWorld st (disk w)) req
          end
    end).

End VideoRoutes.

(** What holds of every store the server can be in. *)
Module StoreInv.

(** The keys of a map are distinct, every record is under its own
    identifier, and the identifiers are from 1 up to the counter. *)
Definition keyed {V : Type} (id_of : V -> Z) (next : Z) (m : NMap.t V)
  : Prop :=
  1 <= next
  /\ NoDup (NMap.keys m)
  /\ Forall (fun kv => id_of (snd kv) = fst kv /\ 1 <= fst kv < next) m.

(** The same without the second clause: an update can give a video
    another [id] than its key. *)
Definition keys_ok {V : Type} (next : Z) (m : NMap.t V) : Prop :=
  1 <= next
  /\ NoDup (NMap.keys m)
  /\ Forall (fun kv => 1 <= fst kv < next) m.

(** Every video is under its own identifier. *)
Definition ids_are_keys (s : MemStorage.t) : Prop :=
  Forall (fun kv => Video.id (snd kv) = fst kv) (MemStorage.videos s).

Definition wf (s : MemStorage.t) : Prop :=
  keys_ok (MemStorage.nextVideoId s) (MemStorage.videos s)
  /\ keyed User.id (MemStorage.nextUserId s) (MemStorage.users s)
  /\ keyed Category.id (MemStorage.nextCategoryId s)
       (MemStorage.categories s).

(** Two videos with the same identifier and the same creation time. *)
Definition same_slot (a b : Video.t) : Prop :=
  Video.id a = Video.id b /\ Video.uploadDate a = Video.uploadDate b.

(** An account but for its password. *)
Definition same_account (a b : User.t) : Prop :=
  User.id a = User.id b /\ User.username a = User.username b
  /\ User.isAdmin a = User.isAdmin b.

End StoreInv.

(** Sample requests and stores for the routes of the accounts and of one
    video. *)
Module Cases.
Import Routes.

Definition login_request (username password : string) : Request :=
  mkRequest None "" None None None
    [("username", Json.Str username); ("password", Json.Str password)]
    None [].


(** A request for the video [id] in the session of [user]. *)
Definition video_request (user : option User.t) (id : string) : Request :=
  mkRequest user id None None None [] None [].

(** The viewer uploads a film of three bytes and claims another uploader. *)
Definition film_bytes : list Byte.byte := [Byte.x01; Byte.x02; Byte.x03].

Definition film_upload_request : Request :=
  mkRequest (Some Fixtures.viewer) "" None None None []
    (Some [("title", Json.Str "Film"); ("uploaderId", Json.Num 1);
           ("filePath", Json.Str "/etc/passwd")])
    [mkFilePart "file" "film.mp4" "video/mp4" film_bytes].

(** The same upload without a title. *)
Definition untitled_upload_request : Request :=
  mkRequest (Some Fixtures.viewer) "" None None None []
    (Some [("category", Json.Str "Travel")])
    [mkFilePart "file" "film.mp4" "video/mp4" film_bytes].

Definition film_path : string := "/srv/uploads/9b2d-film.mp4".

(** An update of the video [id] in the session of [user]. *)
Definition update_request (user : option User.t) (id : string)
    (body : Json.object) : Request :=
  mkRequest user id None None None body None [].

(** The clip after two requests for [POST /videos/1/views]. *)
Definition viewed_twice : World :=
  world (post_views (video_request None "1")
           (world (post_views (video_request None "1")
                     Fixtures.clip_world))).

(** The uploader of the clip sends [{"views": 0}] for it. *)
Definition reset_views_request : Request :=
  update_request (Some Fixtures.admin) "1" [("views", Json.Num 0)].

(** A patch of the identifier. *)
Definition renumber (id : Z) : VideoPatch.t :=
  VideoPatch.mk None None None None None None None None None None
    (Some id) None None.

(** A patch of the title. *)
Definition retitle (title : string) : VideoPatch.t :=
  VideoPatch.mk (Some title) None None None None None None None None None
    None None None.

(** The store after a second account took the name of the
    administrator. *)
Definition twin_store : MemStorage.t :=
  StoreOps.run
    (StoreOps.CreateUser (InsertUser.mk "admin" "other-pass" false))
    MemStorage.constructor.

End Cases.

(** An upload that passes the intake: a session, and one part, of the
    field [file], that [fileFilter] lets through and that is within the
    limit. *)
Module Intake.
Import Routes.

Definition accepted (req : Request) (user : User.t) (part : FilePart)
  : Prop :=
  session_user req = Some user
  /\ files req = [part]
  /\ fieldname part = "file"
  /\ fileFilter part = true
  /\ Z.of_nat (List.length (content part)) <= fileSizeLimit.

(** [req.file] for the part. *)
Definition stored (env : Env) (part : FilePart) : StoredFile :=
  mkStoredFile (originalname part) (stored_path env part).

End Intake.

(* ================================================================== *)
(** * Properties *)

(** ** Decimal numerals: [parseInt] reads what a template literal prints *)

Module JSFacts.
Import Numerals.

Lemma of_uint_acc_Z (d : uint) :
  forall p, Z.pos (Pos.of_uint_acc d p) = uint_acc d (Z.pos p).
Proof.
  induction d; intro p; cbn [Pos.of_uint_acc uint_acc]; try reflexivity;
    rewrite IHd; f_equal; lia.
Qed.

Lemma of_uint_Z (d : uint) : Z.of_N (Pos.of_uint d) = uint_acc d 0.
Proof.
  induction d; simpl; try reflexivity; try assumption;
    apply of_uint_acc_Z.
Qed.

Lemma uint_acc_to_uint (n : N) : uint_acc (N.to_uint n) 0 = Z.of_N n.
Proof.
  rewrite <- of_uint_Z.
  change (Pos.of_uint (N.to_uint n)) with (N.of_uint (N.to_uint n)).
  now rewrite DecimalN.Unsigned.of_to.
Qed.

Lemma parse_digits_uint (d : uint) :
  forall acc rest,
    (forall c rest', rest = String c rest' -> is_digit c = false) ->
    JS.parse_digits 10 (NilEmpty.string_of_uint d ++ rest) (Some acc)
    = Some (uint_acc d acc).
Proof.
  induction d; intros acc rest Hrest; simpl;
    try (rewrite IHd by assumption; reflexivity).
  destruct rest as [|c rest']; [reflexivity|].
  specialize (Hrest c rest' eq_refl).
  simpl. unfold JS.digit_value.
  unfold is_digit in Hrest. rewrite Hrest.
  destruct ((97 <=? JS.code c) && (JS.code c <=? 122)) eqn:Hlow.
  - destruct (JS.code c - 87 <? 10) eqn:Hlt; [|reflexivity]. lia.
  - destruct ((65 <=? JS.code c) && (JS.code c <=? 90)) eqn:Hup;
      [|reflexivity].
    destruct (JS.code c - 55 <? 10) eqn:Hlt; [|reflexivity]. lia.
Qed.

Lemma parse_digits_uint_start (d : uint) (rest : string) :
  d <> Nil ->
  (forall c rest', rest = String c rest' -> is_digit c = false) ->
  JS.parse_digits 10 (NilEmpty.string_of_uint d ++ rest) None
  = Some (uint_acc d 0).
Proof.
  intros Hd Hrest.
  destruct d; try congruence; simpl;
    now rewrite parse_digits_uint by assumption.
Qed.

Lemma to_uint_nonnil (n : N) : N.to_uint n <> Nil.
Proof.
  destruct n; simpl; [discriminate | apply DecimalPos.Unsigned.to_uint_nonnil].
Qed.

Lemma to_string_nonneg (z : Z) :
  0 <= z ->
  JS.to_string (Some z) = NilEmpty.string_of_uint (N.to_uint (Z.to_N z)).
Proof.
  intro Hz. unfold JS.to_string.
  destruct z as [|p|p]; try lia; try reflexivity.
  simpl. unfold NilZero.string_of_uint.
  pose proof (DecimalPos.Unsigned.to_uint_nonnil p) as Hp.
  destruct (Pos.to_uint p); congruence.
Qed.

Lemma string_of_uint_digits (d : uint) :
  all_digits (NilEmpty.string_of_uint d) = true.
Proof. induction d; simpl; auto. Qed.

Lemma string_of_uint_nonempty (d : uint) :
  d <> Nil -> NilEmpty.string_of_uint d <> EmptyString.
Proof. destruct d; simpl; congruence. Qed.

Lemma append_empty_r (s : string) : (s ++ "")%string = s.
Proof. induction s; simpl; congruence. Qed.

(** A numeral is left alone by the trimming and the sign of [parseInt]. *)
Lemma parseInt_digits_head (c : ascii) (s : string) :
  is_digit c = true ->
  JS.parseInt (String c s) 10 = JS.parse_digits 10 (String c s) None.
Proof.
  intro Hc. unfold is_digit in Hc.
  apply andb_true_iff in Hc as [Hlo Hhi].
  unfold JS.parseInt. cbn [JS.trim_start].
  assert (Hws : JS.is_white_space c = false).
  { unfold JS.is_white_space.
    apply orb_false_iff; split; [apply andb_false_iff|]; lia. }
  rewrite Hws.
  assert (Hsign : JS.strip_sign (String c s) = (1, String c s)).
  { unfold JS.strip_sign.
    destruct c as [[] [] [] [] [] [] [] []]; try reflexivity;
      vm_compute in Hlo, Hhi; congruence. }
  rewrite Hsign. cbn -[JS.parse_digits].
  destruct (JS.parse_digits 10 (String c s) None) as [v|]; [|reflexivity].
  f_equal. destruct v; reflexivity.
Qed.

(** [parseInt] of a printed non-negative integer, whatever follows it. *)
Lemma parseInt_to_string (z : Z) :
  0 <= z -> JS.parseInt (JS.to_string (Some z)) 10 = Some z.
Proof.
  intro Hz. rewrite to_string_nonneg by assumption.
  pose proof (to_uint_nonnil (Z.to_N z)) as Hnil.
  pose proof (string_of_uint_digits (N.to_uint (Z.to_N z))) as Hdig.
  pose proof (parse_digits_uint_start (N.to_uint (Z.to_N z)) "" Hnil) as Hp.
  rewrite append_empty_r in Hp.
  destruct (NilEmpty.string_of_uint (N.to_uint (Z.to_N z))) as [|c s] eqn:Hs.
  - exfalso. revert Hs. now apply string_of_uint_nonempty.
  - simpl in Hdig. apply andb_true_iff in Hdig as [Hc _].
    rewrite parseInt_digits_head by assumption.
    rewrite Hp by (intros; discriminate).
    rewrite uint_acc_to_uint. f_equal. lia.
Qed.

(** A string without the separator is one part. *)
Lemma split_digits (s : string) :
  all_digits s = true -> JS.split "-" s = [s].
Proof.
  induction s as [|c s IH]; simpl; intro H; [reflexivity|].
  apply andb_true_iff in H as [Hc Hs].
  rewrite (IH Hs).
  destruct (Ascii.eqb c "-") eqn:E; [|reflexivity].
  apply Ascii.eqb_eq in E. subst c. discriminate.
Qed.

Lemma split_digits_sep (s rest : string) :
  all_digits s = true ->
  JS.split "-" (s ++ String "-" rest) = s :: JS.split "-" rest.
Proof.
  induction s as [|c s IH]; simpl; intro H; [reflexivity|].
  apply andb_true_iff in H as [Hc Hs].
  rewrite (IH Hs).
  destruct (Ascii.eqb c "-") eqn:E; [|reflexivity].
  apply Ascii.eqb_eq in E. subst c. discriminate.
Qed.

Lemma to_string_digits (z : Z) :
  0 <= z -> all_digits (JS.to_string (Some z)) = true.
Proof.
  intro Hz. rewrite to_string_nonneg by assumption.
  apply string_of_uint_digits.
Qed.

Lemma to_string_truthy (z : Z) :
  0 <= z -> JS.truthy (JS.to_string (Some z)) = true.
Proof.
  intro Hz. rewrite to_string_nonneg by assumption.
  pose proof (string_of_uint_nonempty _ (to_uint_nonnil (Z.to_N z))).
  destruct (NilEmpty.string_of_uint (N.to_uint (Z.to_N z)));
    [congruence | reflexivity].
Qed.

Lemma replace_first_bytes (rest : string) :
  JS.replace_first "bytes=" "" ("bytes=" ++ rest) = rest.
Proof. destruct rest; reflexivity. Qed.

(** The parts that the handler cuts a well-formed header into. *)
Lemma range_header_parts (start : Z) (end_ : option Z) :
  0 <= start ->
  (forall e, end_ = Some e -> 0 <= e) ->
  JS.split "-" (JS.replace_first "bytes=" "" (range_header start end_))
  = [JS.to_string (Some start);
     match end_ with Some e => JS.to_string (Some e) | None => "" end].
Proof.
  intros Hs He. unfold range_header.
  rewrite replace_first_bytes.
  change ("-" ++ ?r)%string with (String "-" r).
  rewrite split_digits_sep by now apply to_string_digits.
  f_equal.
  destruct end_ as [e|]; [|reflexivity].
  apply split_digits, to_string_digits; auto.
Qed.

(** [parseInt] on what a client can put in a path or a header. *)
Example parseInt_decimal : JS.parseInt "100" 10 = Some 100.
Proof. reflexivity. Qed.

Example parseInt_hexadecimal : JS.parseInt " 0x1f" 0 = Some 31.
Proof. reflexivity. Qed.

Example parseInt_of_nothing : JS.parseInt "" 10 = JS.NaN.
Proof. reflexivity. Qed.

Example parseInt_stops_at_a_letter : JS.parseInt "-12px" 0 = Some (-12).
Proof. reflexivity. Qed.

Example split_open_range :
  JS.split "-" (JS.replace_first "bytes=" "" "bytes=100-") = ["100"; ""].
Proof. reflexivity. Qed.

Example split_suffix_range :
  JS.split "-" (JS.replace_first "bytes=" "" "bytes=-500") = [""; "500"].
Proof. reflexivity. Qed.

(** [toLowerCase] beyond ASCII: a letter with an accent, the capital I
    with a dot, whose lower case is two code points, a letter outside the
    basic plane, and the two lower cases of the sigma. *)
Example toLowerCase_accented : JS.toLowerCase "CAFÉ" = "café".
Proof. reflexivity. Qed.

Example toLowerCase_dotted_I :
  JS.code_points (JS.toLowerCase "İ") = [105; 775].
Proof. reflexivity. Qed.

Example toLowerCase_deseret :
  JS.code_points "𐐀" = [66560]
  /\ JS.code_points (JS.toLowerCase "𐐀") = [66600].
Proof. split; reflexivity. Qed.

Example toLowerCase_sigma :
  JS.toLowerCase "ΟΣΟ" = "οσο" /\ JS.toLowerCase "ΟΣ" = "ος".
Proof. split; reflexivity. Qed.

Example includes_ignoring_case :
  JS.includes (JS.toLowerCase "Holiday In ROME") (JS.toLowerCase "rome")
  = true.
Proof. reflexivity. Qed.

End JSFacts.

(* ================================================================== *)
(** ** GET /stream/:id *)

Module StreamFacts.
Import Routes Numerals Fixtures.

Lemma slice_length (start end_ : Z) (content : list Byte.byte) :
  0 <= start -> start <= end_ -> end_ < Z.of_nat (List.length content) ->
  Z.of_nat (List.length (Fs.slice start end_ content)) = end_ - start + 1.
Proof.
  intros H0 H1 H2. unfold Fs.slice.
  rewrite length_firstn, length_skipn. lia.
Qed.

Lemma slice_nth (start end_ : Z) (content : list Byte.byte) (i : nat)
    (d : Byte.byte) :
  0 <= start -> Z.of_nat i <= end_ - start ->
  nth i (Fs.slice start end_ content) d
  = nth (Z.to_nat start + i) content d.
Proof.
  intros H0 Hi. unfold Fs.slice.
  rewrite nth_firstn.
  replace (i <? Z.to_nat (end_ - start + 1))%nat with true
    by (symmetry; apply Nat.ltb_lt; lia).
  apply nth_skipn.
Qed.

Lemma range_header_truthy (start : Z) (end_ : option Z) :
  JS.truthy (range_header start end_) = true.
Proof. reflexivity. Qed.

(** The partial branch on a well-formed header whose range is not
    reversed. *)
Lemma stream_range_ok (fs : Fs.t) (video : Video.t) (path : string)
    (content : list Byte.byte) (start : Z) (oend : option Z) :
  Video.filePath video = Some path ->
  fs path = Some content ->
  0 <= start ->
  start <= range_end (Z.of_nat (List.length content)) oend ->
  range_end (Z.of_nat (List.length content)) oend <= Fs.MAX_SAFE_INTEGER ->
  stream_range fs video (Z.of_nat (List.length content))
    (range_header start oend)
  = mkResponse 206
      (partial_headers start
         (range_end (Z.of_nat (List.length content)) oend)
         (Z.of_nat (List.length content)))
      (Bytes (Fs.slice start
                (range_end (Z.of_nat (List.length content)) oend) content)).
Proof.
  intros Hpath Hfs H0 Hle Hmax.
  set (fileSize := Z.of_nat (List.length content)) in *.
  assert (He : forall e, oend = Some e -> 0 <= e).
  { intros e ->. simpl in Hle. lia. }
  unfold stream_range.
  rewrite JSFacts.range_header_parts by assumption.
  cbn [nth nth_error].
  rewrite JSFacts.parseInt_to_string by assumption.
  assert (Hend :
    (if JS.truthy
          match oend with Some e => JS.to_string (Some e) | None => "" end
     then JS.parseInt
            match oend with Some e => JS.to_string (Some e) | None => "" end
            10
     else Some (fileSize - 1))
    = Some (range_end fileSize oend)).
  { destruct oend as [e|]; cbn [range_end].
    - rewrite JSFacts.to_string_truthy by auto.
      now rewrite JSFacts.parseInt_to_string by auto.
    - reflexivity. }
  rewrite Hend.
  unfold Fs.createReadStream_range, Fs.valid_offset.
  replace ((0 <=? start) && (start <=? Fs.MAX_SAFE_INTEGER)) with true
    by (symmetry; apply andb_true_iff; split; lia).
  replace ((0 <=? range_end fileSize oend)
           && (range_end fileSize oend <=? Fs.MAX_SAFE_INTEGER)) with true
    by (symmetry; apply andb_true_iff; split; lia).
  replace (start <=? range_end fileSize oend) with true
    by (symmetry; lia).
  rewrite Hpath, Hfs.
  reflexivity.
Qed.

Lemma exists_of_file (fs : Fs.t) (path : string) (content : list Byte.byte) :
  fs path = Some content ->
  Fs.existsSync fs (Some path) = true
  /\ Fs.statSync_size fs (Some path) = Some (Z.of_nat (List.length content)).
Proof. intro H. unfold Fs.existsSync, Fs.statSync_size. now rewrite H. Qed.

(** A header whose range is reversed: the read stream is not created,
    and the handler answers 500. *)
Lemma stream_range_reversed (fs : Fs.t) (video : Video.t) (fileSize : Z)
    (start : Z) (oend : option Z) :
  0 <= start ->
  (forall e, oend = Some e -> 0 <= e) ->
  range_end fileSize oend < start ->
  stream_range fs video fileSize (range_header start oend)
  = streaming_error.
Proof.
  intros H0 He Hlt. unfold stream_range.
  rewrite JSFacts.range_header_parts by assumption.
  cbn [nth nth_error].
  rewrite JSFacts.parseInt_to_string by assumption.
  unfold Fs.createReadStream_range.
  destruct oend as [e|]; cbn [range_end] in Hlt.
  - rewrite JSFacts.to_string_truthy by auto.
    rewrite JSFacts.parseInt_to_string by auto.
    destruct (Fs.valid_offset (Some start)) as [s|] eqn:Hs; [|reflexivity].
    destruct (Fs.valid_offset (Some e)) as [e'|] eqn:He'; [|reflexivity].
    unfold Fs.valid_offset in Hs, He'.
    destruct ((0 <=? start) && (start <=? Fs.MAX_SAFE_INTEGER));
      [|discriminate].
    destruct ((0 <=? e) && (e <=? Fs.MAX_SAFE_INTEGER)); [|discriminate].
    injection Hs as <-. injection He' as <-.
    replace (start <=? e) with false by (symmetry; lia). reflexivity.
  - cbn [JS.truthy].
    destruct (Fs.valid_offset (Some start)) as [s|] eqn:Hs; [|reflexivity].
    destruct (Fs.valid_offset (Some (fileSize - 1))) as [e'|] eqn:He';
      [|reflexivity].
    unfold Fs.valid_offset in Hs, He'.
    destruct ((0 <=? start) && (start <=? Fs.MAX_SAFE_INTEGER));
      [|discriminate].
    destruct ((0 <=? fileSize - 1) && (fileSize - 1 <=? Fs.MAX_SAFE_INTEGER));
      [|discriminate].
    injection Hs as <-. injection He' as <-.
    replace (start <=? fileSize - 1) with false by (symmetry; lia).
    reflexivity.
Qed.

(** C1, as the code has it.  A request for a video whose record and file
    exist, with the header [bytes=<start>-<end>] or [bytes=<start>-], where
    [end] stands for [fileSize - 1] when it is left out: when
    [0 <= start <= end <= Number.MAX_SAFE_INTEGER] the response has status
    206, [Content-Range: bytes <start>-<end>/<fileSize>],
    [Accept-Ranges: bytes], [Content-Length: end - start + 1] and
    [Content-Type: video/mp4]; its body is the bytes of the file at the
    offsets [start] to [end] that the file has, and when [end < fileSize]
    these are exactly [end - start + 1] bytes, the [i]-th being the byte at
    offset [start + i].  The store and the disk are left as they were. *)
Theorem stream_range_partial_content
    (req : Request) (w : World) (video : Video.t) (path : string)
    (content : list Byte.byte) (start : Z) (oend : option Z) :
  MemStorage.getVideo (JS.parseInt (params_id req) 0) (store w)
    = Some video ->
  Video.filePath video = Some path ->
  disk w path = Some content ->
  headers_range req = Some (range_header start oend) ->
  0 <= start ->
  start <= range_end (Z.of_nat (List.length content)) oend ->
  range_end (Z.of_nat (List.length content)) oend <= Fs.MAX_SAFE_INTEGER ->
  outcome (stream req w)
  = Responded
      (mkResponse 206
         (partial_headers start
            (range_end (Z.of_nat (List.length content)) oend)
            (Z.of_nat (List.length content)))
         (Bytes (Fs.slice start
                   (range_end (Z.of_nat (List.length content)) oend)
                   content)))
  /\ world (stream req w) = w
  /\ (range_end (Z.of_nat (List.length content)) oend
        < Z.of_nat (List.length content) ->
      Z.of_nat
        (List.length
           (Fs.slice start (range_end (Z.of_nat (List.length content)) oend)
              content))
      = range_end (Z.of_nat (List.length content)) oend - start + 1
      /\ forall (i : nat) (d : Byte.byte),
           Z.of_nat i
           <= range_end (Z.of_nat (List.length content)) oend - start ->
           nth i
             (Fs.slice start
                (range_end (Z.of_nat (List.length content)) oend) content) d
           = nth (Z.to_nat start + i) content d).
Proof.
  intros Hget Hpath Hfs Hrange H0 Hle Hmax.
  destruct (exists_of_file _ _ _ Hfs) as [Hex Hsize].
  split; [|split].
  - unfold stream. rewrite Hget, Hpath, Hex, Hsize, Hrange.
    rewrite range_header_truthy. cbn [negb respond outcome].
    f_equal. now apply stream_range_ok with (path := path).
  - reflexivity.
  - intro Hin. split.
    + now apply slice_length.
    + intros i d Hi. now apply slice_nth.
Qed.

(** The two requests of the specification on the file of a thousand
    bytes: [bytes=100-199] gives 206, [Content-Range: bytes 100-199/1000]
    and a hundred bytes; [bytes=100-] gives [bytes 100-999/1000] and nine
    hundred bytes. *)
Lemma stream_range_partial_content_witness :
  (outcome (stream (stream_request (Some "bytes=100-199")) clip_world)
   = Responded
       (mkResponse 206
          [("Content-Range", HStr "bytes 100-199/1000");
           ("Accept-Ranges", HStr "bytes");
           ("Content-Length", HNum (Some 100));
           ("Content-Type", HStr "video/mp4")]
          (Bytes (Fs.slice 100 199 clip_bytes)))
   /\ List.length (Fs.slice 100 199 clip_bytes) = 100%nat)
  /\ (outcome (stream (stream_request (Some "bytes=100-")) clip_world)
      = Responded
          (mkResponse 206
             [("Content-Range", HStr "bytes 100-999/1000");
              ("Accept-Ranges", HStr "bytes");
              ("Content-Length", HNum (Some 900));
              ("Content-Type", HStr "video/mp4")]
             (Bytes (Fs.slice 100 999 clip_bytes)))
      /\ List.length (Fs.slice 100 999 clip_bytes) = 900%nat).
Proof.
  split.
  - split; [|reflexivity].
    apply (stream_range_partial_content
             (stream_request (Some "bytes=100-199")) clip_world clip
             clip_path clip_bytes 100 (Some 199));
      try reflexivity; vm_compute; congruence.
  - split; [|reflexivity].
    apply (stream_range_partial_content
             (stream_request (Some "bytes=100-")) clip_world clip
             clip_path clip_bytes 100 None);
      try reflexivity; vm_compute; congruence.
Defined.

(** C1, as it is stated, fails: a header of the same form whose range is
    reversed makes the constructor of the read stream throw before any header
    is written, and the handler answers 500.  So does [bytes=1000-] on the
    file of a thousand bytes, whose default end is 999. *)
Lemma stream_range_reversed_is_500 :
  MemStorage.getVideo (JS.parseInt "1" 0) (store clip_world) = Some clip
  /\ Video.filePath clip = Some clip_path
  /\ disk clip_world clip_path = Some clip_bytes
  /\ range_header 200 (Some 100) = "bytes=200-100"
  /\ outcome (stream (stream_request (Some "bytes=200-100")) clip_world)
     = Responded (json 500 (Message "Error streaming video"))
  /\ range_header 1000 None = "bytes=1000-"
  /\ outcome (stream (stream_request (Some "bytes=1000-")) clip_world)
     = Responded (json 500 (Message "Error streaming video")).
Proof. repeat split; reflexivity. Qed.

(** A range that ends after the file: the headers announce 2000 bytes and
    the body has the thousand of the file. *)
Example stream_range_past_the_end :
  outcome (stream (stream_request (Some "bytes=0-1999")) clip_world)
  = Responded
      (mkResponse 206
         [("Content-Range", HStr "bytes 0-1999/1000");
          ("Accept-Ranges", HStr "bytes");
          ("Content-Length", HNum (Some 2000));
          ("Content-Type", HStr "video/mp4")]
         (Bytes clip_bytes)).
Proof. reflexivity. Qed.



End StreamFacts.

(* ================================================================== *)
(** ** Sorting *)

Module SortFacts.

Section Generic.
Context {A : Type} (cmp : A -> A -> Z).

Lemma insert_perm (x : A) (l : list A) :
  Permutation (JS.insert cmp x l) (x :: l).
Proof.
  induction l as [|y l IH]; simpl; [reflexivity|].
  destruct (cmp x y <=? 0); [reflexivity|].
  rewrite IH. apply perm_swap.
Qed.

Lemma sort_perm (l : list A) : Permutation (JS.sort cmp l) l.
Proof.
  induction l as [|x l IH]; simpl; [reflexivity|].
  rewrite insert_perm. now constructor.
Qed.

Lemma sort_In (l : list A) (x : A) : In x (JS.sort cmp l) <-> In x l.
Proof.
  split; apply Permutation_in;
    [apply sort_perm | symmetry; apply sort_perm].
Qed.

(** A comparator that is total and transitive. *)
Hypothesis cmp_total : forall a b, 0 < cmp a b -> cmp b a <= 0.
Hypothesis cmp_trans :
  forall a b c, cmp a b <= 0 -> cmp b c <= 0 -> cmp a c <= 0.



End Generic.



End SortFacts.

(* ================================================================== *)
(** ** Case-insensitive containment *)

Module SearchFacts.
Import Search.



(** *** Text of ASCII *)










Lemma contains_ci_empty_text (query : string) :
  contains_ci EmptyString query -> query = EmptyString.
Proof.
  intros (x & m & z & H & Hm).
  destruct x; [|discriminate]. destruct m; [|discriminate].
  now inversion Hm.
Qed.

Lemma contains_ci_empty_query (text : string) : contains_ci text EmptyString.
Proof.
  exists EmptyString, EmptyString, text. split; [reflexivity|constructor].
Qed.

(** *** [toLowerCase] on text of ASCII *)







(** *** The filter of [searchVideos] *)






End SearchFacts.

(* ================================================================== *)
(** ** The maps of the store *)

Module NMapFacts.
Section Facts.
Context {V : Type}.
Implicit Types (m : NMap.t V) (k : Z) (v : V).

Lemma get_set_same m k v : NMap.get (Some k) (NMap.set k v m) = Some v.
Proof.
  induction m as [|[k' v'] m IH]; simpl.
  - now rewrite Z.eqb_refl.
  - destruct (k =? k') eqn:E; simpl; rewrite ?Z.eqb_refl, ?E; auto.
Qed.

Lemma get_set_other m k k' v :
  k <> k' -> NMap.get (Some k') (NMap.set k v m) = NMap.get (Some k') m.
Proof.
  intro Hne. induction m as [|[k0 v0] m IH]; simpl.
  - destruct (k' =? k) eqn:E; [lia | reflexivity].
  - destruct (k =? k0) eqn:E; simpl.
    + apply Z.eqb_eq in E. subst k0.
      destruct (k' =? k) eqn:E'; [lia | reflexivity].
    + destruct (k' =? k0); auto.
Qed.

Lemma get_delete_same m k : NMap.get (Some k) (NMap.delete (Some k) m) = None.
Proof.
  induction m as [|[k' v'] m IH]; simpl; [reflexivity|].
  destruct (k =? k') eqn:E; simpl; rewrite ?E; auto.
Qed.

Lemma get_delete_other m k k' :
  k <> k' ->
  NMap.get (Some k') (NMap.delete (Some k) m) = NMap.get (Some k') m.
Proof.
  intro Hne. induction m as [|[k0 v0] m IH]; simpl; [reflexivity|].
  destruct (k =? k0) eqn:E; simpl.
  - apply Z.eqb_eq in E. subst k0.
    destruct (k' =? k) eqn:E'; [lia | exact IH].
  - destruct (k' =? k0); auto.
Qed.

Lemma delete_NaN m : NMap.delete None m = m.
Proof. now destruct m. Qed.

Lemma get_NaN m : NMap.get None m = None.
Proof. now destruct m. Qed.

Lemma get_In_keys m k v : NMap.get (Some k) m = Some v -> In k (NMap.keys m).
Proof.
  induction m as [|[k' v'] m IH]; simpl; [discriminate|].
  destruct (k =? k') eqn:E; [left; lia | auto].
Qed.

Lemma keys_set m k v x :
  In x (NMap.keys (NMap.set k v m)) -> x = k \/ In x (NMap.keys m).
Proof.
  induction m as [|[k' v'] m IH]; simpl.
  - intros [<-|[]]; auto.
  - destruct (k =? k') eqn:E; simpl.
    + apply Z.eqb_eq in E. subst k'. intros [<-|H]; auto.
    + intros [<-|H]; auto. destruct (IH H); auto.
Qed.

Lemma keys_delete m id x :
  In x (NMap.keys (NMap.delete id m)) -> In x (NMap.keys m).
Proof.
  destruct id as [k|]; [|destruct m; auto].
  induction m as [|[k' v'] m IH]; simpl; [auto|].
  destruct (k =? k'); simpl; intuition.
Qed.

End Facts.
End NMapFacts.

(* ================================================================== *)
(** ** MemStorage *)

Module StoreFacts.
Import StoreOps.





(** *** The view counter *)

Lemma incrementViews_present (s : MemStorage.t) (id : Z) (v : Video.t) :
  MemStorage.getVideo (Some id) s = Some v ->
  MemStorage.getVideo (Some id) (snd (MemStorage.incrementViews (Some id) s))
  = Some (MemStorage.with_views v (Video.views v + 1)).
Proof.
  unfold MemStorage.getVideo, MemStorage.incrementViews. intro H.
  rewrite H. simpl. apply NMapFacts.get_set_same.
Qed.

Lemma with_views_views (v : Video.t) (n : Z) :
  Video.views (MemStorage.with_views v n) = n.
Proof. reflexivity. Qed.

Lemma with_views_twice (v : Video.t) (n m : Z) :
  MemStorage.with_views (MemStorage.with_views v n) m
  = MemStorage.with_views v m.
Proof. reflexivity. Qed.

Lemma with_views_same (v : Video.t) :
  MemStorage.with_views v (Video.views v) = v.
Proof. now destruct v. Qed.

Lemma incrementViews_times_present (n : nat) :
  forall (s : MemStorage.t) (id : Z) (v : Video.t),
    MemStorage.getVideo (Some id) s = Some v ->
    MemStorage.getVideo (Some id) (incrementViews_times n (Some id) s)
    = Some (MemStorage.with_views v (Video.views v + Z.of_nat n)).
Proof.
  induction n as [|n IH]; intros s id v H.
  - cbn. now rewrite Z.add_0_r, with_views_same.
  - change (incrementViews_times (S n) (Some id) s)
      with (snd (MemStorage.incrementViews (Some id)
                   (incrementViews_times n (Some id) s))).
    rewrite (incrementViews_present _ _ _ (IH s id v H)).
    rewrite with_views_twice, with_views_views. do 2 f_equal. lia.
Qed.

Lemma run_nextVideoId (o : op) (s : MemStorage.t) :
  MemStorage.nextVideoId s <= MemStorage.nextVideoId (run o s).
Proof.
  destruct o as [u|id p|iv now|id u|id|id|name]; simpl; try lia.
  - unfold MemStorage.updateUserPassword.
    destruct id; [destruct (NMap.get _ _)|]; simpl; lia.
  - unfold MemStorage.updateVideo.
    destruct id; [destruct (NMap.get _ _)|]; simpl; lia.
  - unfold MemStorage.incrementViews.
    destruct id; [destruct (NMap.get _ _)|]; simpl; lia.
Qed.

Lemma run_ids_below_next (o : op) (s : MemStorage.t) :
  ids_below_next s -> ids_below_next (run o s).
Proof.
  unfold ids_below_next. rewrite !Forall_forall. intros Hinv x.
  destruct o as [u|id p|iv now|id u|id|id|name]; simpl; auto.
  - unfold MemStorage.updateUserPassword.
    destruct id; [destruct (NMap.get _ _)|]; simpl; auto.
  - intro Hx. apply NMapFacts.keys_set in Hx as [->|Hx]; [lia|].
    specialize (Hinv _ Hx). lia.
  - unfold MemStorage.updateVideo.
    destruct id as [k|]; [destruct (NMap.get _ _) eqn:Hk|]; simpl; auto.
    intro Hx. apply NMapFacts.keys_set in Hx as [->|Hx]; auto.
    apply Hinv. eapply NMapFacts.get_In_keys; eassumption.
  - intro Hx. apply Hinv. eapply NMapFacts.keys_delete; eassumption.
  - unfold MemStorage.incrementViews.
    destruct id as [k|]; [destruct (NMap.get _ _) eqn:Hk|]; simpl; auto.
    intro Hx. apply NMapFacts.keys_set in Hx as [->|Hx]; auto.
    apply Hinv. eapply NMapFacts.get_In_keys; eassumption.
Qed.

Lemma reachable_ids_below_next (s : MemStorage.t) :
  reachable s -> ids_below_next s.
Proof.
  induction 1 as [|o s _ IH]; [constructor | now apply run_ids_below_next].
Qed.

Lemma present_below_next (s : MemStorage.t) (id : Z) (v : Video.t) :
  ids_below_next s -> MemStorage.getVideo (Some id) s = Some v ->
  id < MemStorage.nextVideoId s.
Proof.
  unfold ids_below_next. rewrite Forall_forall. intros Hinv H.
  apply Hinv. eapply NMapFacts.get_In_keys; eassumption.
Qed.

(** What one operation does to the video [id]. *)
Lemma run_getVideo (o : op) (s : MemStorage.t) (id : Z) :
  ids_below_next s -> id < MemStorage.nextVideoId s -> keeps_views o ->
  match MemStorage.getVideo (Some id) s,
        MemStorage.getVideo (Some id) (run o s) with
  | Some v, Some v' => Video.views v <= Video.views v'
  | None, Some _ => False
  | _, None => True
  end.
Proof.
  intros Hinv Hid Hkeep. unfold MemStorage.getVideo.
  destruct o as [u|k p|iv now|k u|k|k|name]; simpl in *.
  - destruct (NMap.get (Some id) (MemStorage.videos s)); auto; lia.
  - unfold MemStorage.updateUserPassword.
    destruct k; [destruct (NMap.get _ (MemStorage.users s))|]; simpl;
      destruct (NMap.get (Some id) (MemStorage.videos s)); auto; lia.
  - rewrite NMapFacts.get_set_other by lia.
    destruct (NMap.get (Some id) (MemStorage.videos s)); auto; lia.
  - unfold MemStorage.updateVideo.
    destruct k as [k|];
      [destruct (NMap.get (Some k) (MemStorage.videos s)) as [e|] eqn:Hk|];
      simpl;
      try (destruct (NMap.get (Some id) (MemStorage.videos s)); auto; lia).
    destruct (Z.eq_dec k id) as [->|Hne].
    + rewrite NMapFacts.get_set_same, Hk. simpl. rewrite Hkeep. simpl. lia.
    + rewrite NMapFacts.get_set_other by assumption.
      destruct (NMap.get (Some id) (MemStorage.videos s)); auto; lia.
  - destruct k as [k|];
      [|rewrite NMapFacts.delete_NaN;
        destruct (NMap.get (Some id) (MemStorage.videos s)); auto; lia].
    destruct (Z.eq_dec k id) as [->|Hne].
    + rewrite NMapFacts.get_delete_same.
      destruct (NMap.get (Some id) (MemStorage.videos s)); auto.
    + rewrite NMapFacts.get_delete_other by assumption.
      destruct (NMap.get (Some id) (MemStorage.videos s)); auto; lia.
  - unfold MemStorage.incrementViews.
    destruct k as [k|];
      [destruct (NMap.get (Some k) (MemStorage.videos s)) as [e|] eqn:Hk|];
      simpl;
      try (destruct (NMap.get (Some id) (MemStorage.videos s)); auto; lia).
    destruct (Z.eq_dec k id) as [->|Hne].
    + rewrite NMapFacts.get_set_same, Hk. simpl. lia.
    + rewrite NMapFacts.get_set_other by assumption.
      destruct (NMap.get (Some id) (MemStorage.videos s)); auto; lia.
  - destruct (NMap.get (Some id) (MemStorage.videos s)); auto; lia.
Qed.

(** An identifier that is gone does not come back. *)
Lemma run_absent (o : op) (s : MemStorage.t) (id : Z) :
  ids_below_next s -> id < MemStorage.nextVideoId s ->
  MemStorage.getVideo (Some id) s = None ->
  MemStorage.getVideo (Some id) (run o s) = None.
Proof.
  intros Hinv Hid. unfold MemStorage.getVideo.
  destruct o as [u|k p|iv now|k u|k|k|name]; simpl; auto.
  - unfold MemStorage.updateUserPassword.
    destruct k; [destruct (NMap.get _ (MemStorage.users s))|]; simpl; auto.
  - now rewrite NMapFacts.get_set_other by lia.
  - unfold MemStorage.updateVideo.
    destruct k as [k|];
      [destruct (NMap.get (Some k) (MemStorage.videos s)) as [e|] eqn:Hk|];
      simpl; auto.
    destruct (Z.eq_dec k id) as [->|Hne]; [congruence|].
    now rewrite NMapFacts.get_set_other by assumption.
  - destruct k as [k|]; [|now rewrite NMapFacts.delete_NaN].
    destruct (Z.eq_dec k id) as [->|Hne].
    + now rewrite NMapFacts.get_delete_same.
    + now rewrite NMapFacts.get_delete_other by assumption.
  - unfold MemStorage.incrementViews.
    destruct k as [k|];
      [destruct (NMap.get (Some k) (MemStorage.videos s)) as [e|] eqn:Hk|];
      simpl; auto.
    destruct (Z.eq_dec k id) as [->|Hne]; [congruence|].
    now rewrite NMapFacts.get_set_other by assumption.
Qed.

Lemma run_all_absent (ops : list op) :
  forall (s : MemStorage.t) (id : Z),
    ids_below_next s -> id < MemStorage.nextVideoId s ->
    MemStorage.getVideo (Some id) s = None ->
    MemStorage.getVideo (Some id) (run_all ops s) = None.
Proof.
  induction ops as [|o ops IH]; intros s id Hinv Hid Hnone; [exact Hnone|].
  cbn [run_all fold_left]. apply IH.
  - now apply run_ids_below_next.
  - pose proof (run_nextVideoId o s). lia.
  - now apply run_absent.
Qed.

(** Through operations none of which is an update with a [views] key, the
    counter of a video does not go down. *)
Lemma run_all_views (ops : list op) :
  forall (s : MemStorage.t) (id : Z) (v v' : Video.t),
    ids_below_next s ->
    Forall keeps_views ops ->
    MemStorage.getVideo (Some id) s = Some v ->
    MemStorage.getVideo (Some id) (run_all ops s) = Some v' ->
    Video.views v <= Video.views v'.
Proof.
  induction ops as [|o ops IH]; intros s id v v' Hinv Hkeep Hv Hv'.
  - cbn in Hv'. rewrite Hv in Hv'. injection Hv' as <-. lia.
  - cbn [run_all fold_left] in Hv'.
    inversion Hkeep as [|? ? Ho Hops]; subst.
    pose proof (present_below_next _ _ _ Hinv Hv) as Hid.
    pose proof (run_getVideo o s id Hinv Hid Ho) as H. rewrite Hv in H.
    destruct (MemStorage.getVideo (Some id) (run o s)) as [v1|] eqn:H1.
    + transitivity (Video.views v1); [exact H|].
      exact (IH (run o s) id v1 v' (run_ids_below_next o s Hinv) Hops
                H1 Hv').
    + pose proof (run_nextVideoId o s) as Hnext.
      assert (Hid' : id < MemStorage.nextVideoId (run o s)) by lia.
      pose proof (run_all_absent ops (run o s) id
                    (run_ids_below_next o s Hinv) Hid' H1) as Hnone.
      unfold run_all in Hnone. congruence.
Qed.

(** The listings on the sample library: the newest first, and of two
    videos of the same millisecond the one created first. *)
Example library_all :
  Library.ids (MemStorage.getAllVideos Library.store) = [2; 3; 1].
Proof. reflexivity. Qed.

Example library_category_all :
  Library.ids (MemStorage.getVideosByCategory "All" Library.store)
  = [2; 3; 1].
Proof. reflexivity. Qed.

Example library_category_travel :
  Library.ids (MemStorage.getVideosByCategory "Travel" Library.store) = [1].
Proof. reflexivity. Qed.

Example library_search_rome :
  Library.ids (MemStorage.searchVideos "rome" Library.store) = [2; 1].
Proof. reflexivity. Qed.

Example library_search_empty :
  Library.ids (MemStorage.searchVideos "" Library.store) = [2; 3; 1].
Proof. reflexivity. Qed.

Example library_views :
  option_map Video.views
    (MemStorage.getVideo (Some 2)
       (incrementViews_times 5 (Some 2) Library.store))
  = Some 5.
Proof. reflexivity. Qed.

Lemma clip_store_reachable : reachable Fixtures.clip_store.
Proof. unfold Fixtures.clip_store. repeat constructor. Qed.

End StoreFacts.

(* ================================================================== *)
(** ** The handlers *)

Module RoutesFacts.
Import Routes Fixtures.

(** A body that [passwordChangeSchema] accepts has its fields as strings,
    and the parsed [currentPassword] is the one of the body. *)
Lemma passwordChangeSchema_current (o : Json.object) (b : PasswordChange.t) :
  passwordChangeSchema o = Zod.Ok b ->
  Json.get "currentPassword" o
  = Some (Json.Str (PasswordChange.currentPassword b)).
Proof.
  unfold passwordChangeSchema, Zod.string_min, Zod.string_, Zod.bind,
    Zod.refine.
  destruct (Json.get "currentPassword" o) as [[| | |c|]|]; try discriminate.
  destruct (Nat.leb 1 (String.length c)); try discriminate.
  destruct (Json.get "newPassword" o) as [[| | |n|]|]; try discriminate.
  destruct (Nat.leb 6 (String.length n)); try discriminate.
  destruct (Json.get "confirmPassword" o) as [[| | |k|]|]; try discriminate.
  destruct (Nat.leb 6 (String.length k)); try discriminate.
  destruct (String.eqb n k); try discriminate.
  intro H. injection H as <-. reflexivity.
Qed.

(** C7.  An authenticated request to change the password whose
    [currentPassword] is not the stored password of the session user is
    answered with 400, and nothing is changed: the store, with the record and
    the password of that user, and the session are as before.  When the body
    passes the schema the message is that the current password is
    incorrect. *)
Theorem change_password_wrong_current
    (req : Request) (w : World) (su user : User.t) :
  session_user req = Some su ->
  MemStorage.getUser (Some (User.id su)) (store w) = Some user ->
  Json.get "currentPassword" (body req)
    <> Some (Json.Str (User.password user)) ->
  (exists x, outcome (change_password req w) = Responded (json 400 x))
  /\ (forall b, passwordChangeSchema (body req) = Zod.Ok b ->
         outcome (change_password req w)
         = Responded (json 400 (Message "Current password is incorrect")))
  /\ world (change_password req w) = w
  /\ session (change_password req w) = Some su
  /\ MemStorage.getUser (Some (User.id su))
       (store (world (change_password req w))) = Some user.
Proof.
  intros Hsess Huser Hwrong.
  unfold change_password, requireAuth, validateRequest. rewrite Hsess.
  destruct (passwordChangeSchema (body req)) as [b|] eqn:Hb.
  - rewrite Huser.
    assert (Hneq : String.eqb (User.password user)
                     (PasswordChange.currentPassword b) = false).
    { apply String.eqb_neq. intro Heq. apply Hwrong.
      rewrite (passwordChangeSchema_current _ _ Hb). now rewrite Heq. }
    rewrite Hneq. cbn [negb respond outcome world session store].
    repeat split; eauto.
  - cbn [respond outcome world session store].
    repeat split; eauto. discriminate.
Qed.

Lemma change_password_wrong_current_witness :
  outcome (change_password wrong_password_request clip_world)
  = Responded (json 400 (Message "Current password is incorrect"))
  /\ MemStorage.getUser (Some 1)
       (store (world (change_password wrong_password_request clip_world)))
     = Some admin.
Proof.
  assert (Hwrong :
    Json.get "currentPassword" (body wrong_password_request)
    <> Some (Json.Str (User.password admin))) by (vm_compute; congruence).
  destruct (change_password_wrong_current wrong_password_request clip_world
              admin admin eq_refl eq_refl Hwrong)
    as (_ & Hmsg & _ & _ & Hkept).
  split; [|exact Hkept].
  apply (Hmsg (PasswordChange.mk "admin124" "s3cret-new" "s3cret-new")).
  reflexivity.
Defined.

(** C8.  A request to delete a video by a session user who is not an
    administrator and not its uploader is answered with 403; the record stays
    in the store and the file on the disk: nothing is changed. *)
Theorem delete_video_forbidden
    (req : Request) (w : World) (su : User.t) (video : Video.t) :
  session_user req = Some su ->
  User.isAdmin su = false ->
  MemStorage.getVideo (JS.parseInt (params_id req) 0) (store w)
    = Some video ->
  Video.uploaderId video <> User.id su ->
  outcome (delete_video req w)
  = Responded (json 403 (Message "Not authorized to delete this video"))
  /\ world (delete_video req w) = w.
Proof.
  intros Hsess Hadmin Hget Hother.
  unfold delete_video, requireAuth. rewrite Hsess, Hget, Hadmin.
  replace (Video.uploaderId video =? User.id su) with false
    by (symmetry; now apply Z.eqb_neq).
  split; reflexivity.
Qed.

Lemma delete_video_forbidden_witness :
  outcome (delete_video foreign_delete_request clip_world)
  = Responded (json 403 (Message "Not authorized to delete this video"))
  /\ MemStorage.getVideo (Some 1)
       (store (world (delete_video foreign_delete_request clip_world)))
     = Some clip
  /\ disk (world (delete_video foreign_delete_request clip_world)) clip_path
     = Some clip_bytes.
Proof.
  assert (Hother : Video.uploaderId clip <> User.id viewer)
    by (vm_compute; congruence).
  destruct (delete_video_forbidden foreign_delete_request clip_world viewer
              clip eq_refl eq_refl eq_refl Hother) as [H403 Hworld].
  split; [exact H403|]. rewrite Hworld. split; reflexivity.
Defined.

(** A part that [fileFilter] refuses makes the intake fail, wherever it is
    among the parts. *)
Lemma upload_parts_rejects (env : Env) (part : FilePart)
    (parts : list FilePart) :
  In part parts -> fileFilter part = false ->
  forall stored fs, exists message,
    upload_parts env parts stored fs = inl message.
Proof.
  intros Hin Hbad.
  induction parts as [|p parts IH]; intros stored fs; [contradiction|].
  cbn [upload_parts].
  destruct stored as [f|]; [eauto|].
  destruct (negb (String.eqb (fieldname p) "file")); [eauto|].
  destruct (fileFilter p) eqn:Hp; cbn [negb]; [|eauto].
  destruct (fileSizeLimit <? Z.of_nat (List.length (content p))); [eauto|].
  destruct Hin as [->|Hin]; [congruence|].
  apply (IH Hin).
Qed.

(** C9.  A multipart upload with a file whose MIME type does not start
    with [video/] is refused before the handler runs: the chain ends with the
    error of the intake (or with 401 without a session), no record is
    created, and the store and the disk are as before. *)
Theorem upload_rejects_non_video
    (env : Env) (req : Request) (w : World) (part : FilePart) :
  In part (files req) ->
  JS.startsWith (mimetype part) "video/" = false ->
  world (post_videos env req w) = w
  /\ (session_user req = None ->
      outcome (post_videos env req w)
      = Responded (json 401 (Message "Unauthorized")))
  /\ (session_user req <> None ->
      exists message, outcome (post_videos env req w) = NextError message)
  /\ (session_user req <> None ->
      files req = [part] -> fieldname part = "file" ->
      outcome (post_videos env req w)
      = NextError "Only video files are allowed").
Proof.
  intros Hin Hbad.
  unfold post_videos, requireAuth, upload_single.
  destruct (session_user req) as [user|] eqn:Hsess.
  - destruct (upload_parts_rejects env part (files req) Hin Hbad None (disk w))
      as [message Hmsg].
    rewrite Hmsg. cbn [world outcome].
    split; [reflexivity|]. split; [discriminate|]. split; [eauto|].
    intros _ Hone Hfield. rewrite Hone in Hmsg. cbn [upload_parts] in Hmsg.
    rewrite Hfield in Hmsg. unfold fileFilter in Hmsg.
    rewrite Hbad in Hmsg. cbn in Hmsg. congruence.
  - cbn [respond world outcome].
    split; [reflexivity|]. split; [reflexivity|].
    split; intro H; now contradiction H.
Qed.

Lemma upload_rejects_non_video_witness :
  outcome (post_videos sample_env text_upload_request clip_world)
  = NextError "Only video files are allowed"
  /\ MemStorage.getAllVideos
       (store (world (post_videos sample_env text_upload_request
                        clip_world)))
     = [clip].
Proof.
  destruct (upload_rejects_non_video sample_env text_upload_request
              clip_world
              (mkFilePart "file" "notes.txt" "text/plain"
                 [Byte.x68; Byte.x69])
              (or_introl eq_refl) eq_refl)
    as (Hworld & _ & _ & Hmsg).
  split.
  - apply Hmsg; [discriminate | reflexivity | reflexivity].
  - rewrite Hworld. reflexivity.
Defined.

(** C10.  When both [search] and [category] are given and not empty, the
    response of [GET /videos] is the result of [searchVideos(search)]: the
    category does not enter it. *)
Theorem get_videos_search_first
    (req : Request) (w : World) (search category : string) :
  query_search req = Some search -> search <> "" ->
  query_category req = Some category -> category <> "" ->
  outcome (get_videos req w)
  = Responded (json 200 (Videos (MemStorage.searchVideos search (store w))))
  /\ world (get_videos req w) = w.
Proof.
  intros Hsearch Hs _ _. unfold get_videos. rewrite Hsearch.
  destruct search as [|c search]; [congruence|].
  split; reflexivity.
Qed.

Lemma get_videos_search_first_witness :
  outcome (get_videos search_and_category_request clip_world)
  = Responded (json 200 (Videos [clip]))
  /\ MemStorage.getVideosByCategory "Sports" clip_store = [].
Proof.
  split; [|reflexivity].
  apply (get_videos_search_first search_and_category_request clip_world
           "clip" "Sports");
    try reflexivity; discriminate.
Defined.

(** The route [POST /videos] of the sources has the upload variant only:
    without a file part it answers 400 and creates no record. *)
Lemma post_videos_without_file (env : Env) (req : Request) (w : World)
    (user : User.t) :
  session_user req = Some user -> files req = [] ->
  outcome (post_videos env req w)
  = Responded (json 400 (Message "No video file uploaded"))
  /\ world (post_videos env req w) = w.
Proof.
  intros Hsess Hfiles.
  unfold post_videos, requireAuth, upload_single.
  rewrite Hsess, Hfiles. destruct w. split; reflexivity.
Qed.

Lemma embedVideoSchema_url (is_url : string -> bool) (o : Json.object)
    (data : EmbedVideo.t) :
  embedVideoSchema is_url o = Zod.Ok data ->
  is_url (EmbedVideo.embedUrl data) = true
  /\ Json.get "embedUrl" o = Some (Json.Str (EmbedVideo.embedUrl data))
  /\ Json.get "title" o = Some (Json.Str (EmbedVideo.title data)).
Proof.
  unfold embedVideoSchema, Zod.string_min, Zod.string_, Zod.string_optional,
    Zod.literal_true, Zod.bind, Zod.refine.
  destruct (Json.get "title" o) as [[| | |t|]|]; try discriminate.
  destruct (Nat.leb 1 (String.length t)); try discriminate.
  destruct (Json.get "description" o) as [[| | |d|]|]; try discriminate;
    (destruct (Json.get "embedUrl" o) as [[| | |u|]|]; try discriminate;
     destruct (is_url u) eqn:Hu; try discriminate;
     destruct (Json.get "category" o) as [[| | |c|]|]; try discriminate;
     destruct (Json.get "isEmbedded" o) as [[|[]| | |]|]; try discriminate;
     intro H; injection H as <-; auto).
Qed.

End RoutesFacts.

(* ================================================================== *)
(** ** More on the maps of the store *)

Module MapInv.
Section Facts.
Context {V : Type}.
Implicit Types (m : NMap.t V) (k : Z) (v : V).

Lemma get_None_keys m k :
  NMap.get (Some k) m = None <-> ~ In k (NMap.keys m).
Proof.
  induction m as [|[k' v'] m IH]; simpl; [tauto|].
  destruct (k =? k') eqn:E.
  - apply Z.eqb_eq in E. subst. split; [discriminate | intro H; tauto].
  - apply Z.eqb_neq in E. rewrite IH. split.
    + intros H [H'|H']; [congruence | auto].
    + intros H H'. apply H. now right.
Qed.

Lemma get_In m k v : NMap.get (Some k) m = Some v -> In (k, v) m.
Proof.
  induction m as [|[k' v'] m IH]; simpl; [discriminate|].
  destruct (k =? k') eqn:E; [|auto].
  apply Z.eqb_eq in E. intro H. injection H as <-. subst. now left.
Qed.

Lemma In_get m k v :
  NoDup (NMap.keys m) -> In (k, v) m -> NMap.get (Some k) m = Some v.
Proof.
  induction m as [|[k' v'] m IH]; simpl; [contradiction|].
  intros Hnd [H|H]; inversion Hnd as [|? ? Hnotin Hnd']; subst.
  - injection H as -> ->. now rewrite Z.eqb_refl.
  - destruct (k =? k') eqn:E; [|auto].
    apply Z.eqb_eq in E. subst k'. exfalso. apply Hnotin.
    change k with (fst (k, v)). now apply in_map.
Qed.

(** A key that is new goes to the end. *)
Lemma set_absent m k v :
  NMap.get (Some k) m = None -> NMap.set k v m = (m ++ [(k, v)])%list.
Proof.
  induction m as [|[k' v'] m IH]; simpl; [reflexivity|].
  destruct (k =? k'); [discriminate|]. intro H. now rewrite IH.
Qed.

(** A key that is there keeps its place. *)
Lemma keys_set_present m k v v0 :
  NMap.get (Some k) m = Some v0 -> NMap.keys (NMap.set k v m) = NMap.keys m.
Proof.
  induction m as [|[k' v'] m IH]; simpl; [discriminate|].
  destruct (k =? k') eqn:E; simpl.
  - apply Z.eqb_eq in E. now subst.
  - intro H. now rewrite IH.
Qed.

Lemma delete_absent m k :
  NMap.get (Some k) m = None -> NMap.delete (Some k) m = m.
Proof.
  induction m as [|[k' v'] m IH]; simpl; [reflexivity|].
  destruct (k =? k'); [discriminate|]. intro H. now rewrite IH.
Qed.

Lemma In_set m k v x :
  In x (NMap.set k v m) -> x = (k, v) \/ In x m.
Proof.
  induction m as [|[k' v'] m IH]; simpl.
  - intros [<-|[]]; auto.
  - destruct (k =? k'); simpl.
    + intros [<-|H]; auto.
    + intros [<-|H]; auto. destruct (IH H); auto.
Qed.

Lemma In_delete m id x : In x (NMap.delete id m) -> In x m.
Proof.
  destruct id as [k|]; [|now rewrite NMapFacts.delete_NaN].
  induction m as [|[k' v'] m IH]; simpl; [auto|].
  destruct (k =? k'); simpl; intuition.
Qed.

Lemma NoDup_keys_delete m id :
  NoDup (NMap.keys m) -> NoDup (NMap.keys (NMap.delete id m)).
Proof.
  destruct id as [k|]; [|now rewrite NMapFacts.delete_NaN].
  induction m as [|[k' v'] m IH]; simpl; [auto|].
  intro Hnd. inversion Hnd as [|? ? Hnotin Hnd']; subst.
  destruct (k =? k'); simpl; [auto|].
  constructor; [|auto].
  intro Hin. apply Hnotin. eapply NMapFacts.keys_delete; eassumption.
Qed.

Lemma NoDup_keys_set m k v :
  NoDup (NMap.keys m) -> NoDup (NMap.keys (NMap.set k v m)).
Proof.
  intro Hnd. destruct (NMap.get (Some k) m) as [v0|] eqn:Hk.
  - now rewrite (keys_set_present _ _ _ _ Hk).
  - rewrite (set_absent _ _ _ Hk). unfold NMap.keys.
    rewrite map_app. simpl.
    apply NoDup_app; [exact Hnd | repeat constructor; auto |].
    intros x Hx [<-|[]]. now apply get_None_keys in Hk.
Qed.

End Facts.
End MapInv.

(* ================================================================== *)
(** ** The invariant of the store *)

Module StoreInvFacts.
Import StoreOps StoreInv.

Section Keyed.
Context {V : Type} (id_of : V -> Z).
Implicit Types (m : NMap.t V) (k next : Z) (v : V).

Lemma keyed_get m next k v :
  keyed id_of next m -> NMap.get (Some k) m = Some v ->
  id_of v = k /\ 1 <= k < next.
Proof.
  intros (_ & _ & Hall) Hget. rewrite Forall_forall in Hall.
  exact (Hall _ (MapInv.get_In _ _ _ Hget)).
Qed.

Lemma keyed_next_absent m next :
  keyed id_of next m -> NMap.get (Some next) m = None.
Proof.
  intro Hk. destruct (NMap.get (Some next) m) as [v|] eqn:E; [|reflexivity].
  destruct (keyed_get _ _ _ _ Hk E). lia.
Qed.

Lemma keyed_set_fresh m next v :
  keyed id_of next m -> id_of v = next ->
  keyed id_of (next + 1) (NMap.set next v m).
Proof.
  intros (Hone & Hnd & Hall) Hid. split; [lia|]. split.
  - now apply MapInv.NoDup_keys_set.
  - rewrite Forall_forall in Hall |- *. intros [k' v'] Hin.
    apply MapInv.In_set in Hin as [Heq|Hin].
    + injection Heq as -> ->. simpl. lia.
    + specialize (Hall _ Hin). simpl in *. lia.
Qed.

Lemma keyed_set_same m next k v v0 :
  keyed id_of next m -> NMap.get (Some k) m = Some v0 -> id_of v = k ->
  keyed id_of next (NMap.set k v m).
Proof.
  intros Hk Hget Hid. destruct (keyed_get _ _ _ _ Hk Hget) as [_ Hrange].
  destruct Hk as (Hone & Hnd & Hall). split; [lia|]. split.
  - now apply MapInv.NoDup_keys_set.
  - rewrite Forall_forall in Hall |- *. intros [k' v'] Hin.
    apply MapInv.In_set in Hin as [Heq|Hin]; [|now apply Hall].
    injection Heq as -> ->. simpl. lia.
Qed.

Lemma keyed_delete m next id :
  keyed id_of next m -> keyed id_of next (NMap.delete id m).
Proof.
  intros (Hone & Hnd & Hall). split; [lia|]. split.
  - now apply MapInv.NoDup_keys_delete.
  - rewrite Forall_forall in Hall |- *. intros x Hin.
    apply Hall. eapply MapInv.In_delete; eassumption.
Qed.

Lemma keyed_keys_ok m next : keyed id_of next m -> keys_ok next m.
Proof.
  intros (Hone & Hnd & Hall). split; [exact Hone|]. split; [exact Hnd|].
  eapply Forall_impl; [|exact Hall]. intros kv H. exact (proj2 H).
Qed.

End Keyed.

Section Keys.
Context {V : Type}.
Implicit Types (m : NMap.t V) (k next : Z) (v : V).

Lemma keys_ok_get m next k v :
  keys_ok next m -> NMap.get (Some k) m = Some v -> 1 <= k < next.
Proof.
  intros (_ & _ & Hall) Hget. rewrite Forall_forall in Hall.
  exact (Hall _ (MapInv.get_In _ _ _ Hget)).
Qed.

Lemma keys_ok_next_absent m next :
  keys_ok next m -> NMap.get (Some next) m = None.
Proof.
  intro Hk. destruct (NMap.get (Some next) m) as [v|] eqn:E; [|reflexivity].
  pose proof (keys_ok_get _ _ _ _ Hk E). lia.
Qed.

Lemma keys_ok_set_fresh m next v :
  keys_ok next m -> keys_ok (next + 1) (NMap.set next v m).
Proof.
  intros (Hone & Hnd & Hall). split; [lia|]. split.
  - now apply MapInv.NoDup_keys_set.
  - rewrite Forall_forall in Hall |- *. intros [k' v'] Hin.
    apply MapInv.In_set in Hin as [Heq|Hin].
    + injection Heq as -> ->. simpl. lia.
    + specialize (Hall _ Hin). simpl in *. lia.
Qed.

Lemma keys_ok_set_same m next k v v0 :
  keys_ok next m -> NMap.get (Some k) m = Some v0 ->
  keys_ok next (NMap.set k v m).
Proof.
  intros Hk Hget. pose proof (keys_ok_get _ _ _ _ Hk Hget) as Hrange.
  destruct Hk as (Hone & Hnd & Hall). split; [lia|]. split.
  - now apply MapInv.NoDup_keys_set.
  - rewrite Forall_forall in Hall |- *. intros [k' v'] Hin.
    apply MapInv.In_set in Hin as [Heq|Hin]; [|now apply Hall].
    injection Heq as -> ->. simpl. lia.
Qed.

Lemma keys_ok_delete m next id :
  keys_ok next m -> keys_ok next (NMap.delete id m).
Proof.
  intros (Hone & Hnd & Hall). split; [lia|]. split.
  - now apply MapInv.NoDup_keys_delete.
  - rewrite Forall_forall in Hall |- *. intros x Hin.
    apply Hall. eapply MapInv.In_delete; eassumption.
Qed.

End Keys.

Lemma wf_empty : wf MemStorage.empty.
Proof.
  repeat split; simpl; try lia; constructor.
Qed.

Lemma wf_run (o : op) (s : MemStorage.t) : wf s -> wf (run o s).
Proof.
  intro Hwf. pose proof Hwf as (Hv & Hu & Hc).
  destruct o as [u|id p|iv now|id u|id|id|name]; simpl.
  - split; [exact Hv|]. split; [|exact Hc].
    now apply keyed_set_fresh.
  - unfold MemStorage.updateUserPassword.
    destruct id as [k|];
      [destruct (NMap.get (Some k) (MemStorage.users s)) as [user|] eqn:E|];
      simpl; try exact Hwf.
    split; [exact Hv|]. split; [|exact Hc].
    apply keyed_set_same with (v0 := user); [assumption..|].
    exact (proj1 (keyed_get _ _ _ _ _ Hu E)).
  - split; [|split; assumption]. now apply keys_ok_set_fresh.
  - unfold MemStorage.updateVideo.
    destruct id as [k|];
      [destruct (NMap.get (Some k) (MemStorage.videos s)) as [e|] eqn:E|];
      simpl; try exact Hwf.
    split; [|split; assumption].
    now apply keys_ok_set_same with (v0 := e).
  - split; [|split; assumption]. now apply keys_ok_delete.
  - unfold MemStorage.incrementViews.
    destruct id as [k|];
      [destruct (NMap.get (Some k) (MemStorage.videos s)) as [e|] eqn:E|];
      simpl; try exact Hwf.
    split; [|split; assumption].
    now apply keys_ok_set_same with (v0 := e).
  - split; [exact Hv|]. split; [exact Hu|].
    now apply keyed_set_fresh.
Qed.

Lemma wf_constructor : wf MemStorage.constructor.
Proof.
  unfold MemStorage.constructor, DEFAULT_CATEGORIES. cbn [fold_left].
  repeat match goal with
  | |- wf (snd (MemStorage.createCategory ?n ?s)) =>
      apply (wf_run (CreateCategory n) s)
  | |- wf (snd (MemStorage.createUser ?u ?s)) =>
      apply (wf_run (CreateUser u) s)
  end.
  exact wf_empty.
Qed.

Lemma reachable_wf (s : MemStorage.t) : reachable s -> wf s.
Proof.
  induction 1 as [|o s _ IH]; [exact wf_constructor | now apply wf_run].
Qed.

(** *** Stores in which every video is under its own identifier *)

Lemma keeping_ids_reachable (s : MemStorage.t) :
  reachable_keeping_ids s -> reachable s.
Proof. induction 1; now constructor. Qed.

Lemma ids_are_keys_run (o : op) (s : MemStorage.t) :
  keeps_id o -> ids_are_keys s -> ids_are_keys (run o s).
Proof.
  unfold ids_are_keys. intros Hkeep Hall.
  destruct o as [u|id p|iv now|id u|id|id|name]; simpl; auto.
  - unfold MemStorage.updateUserPassword.
    destruct id; [destruct (NMap.get _ _)|]; simpl; auto.
  - rewrite Forall_forall in Hall |- *. intros [k' v'] Hin.
    apply MapInv.In_set in Hin as [Heq|Hin]; [|now apply Hall].
    now injection Heq as -> ->.
  - unfold MemStorage.updateVideo.
    destruct id as [k|];
      [destruct (NMap.get (Some k) (MemStorage.videos s)) as [e|] eqn:E|];
      simpl; auto.
    rewrite Forall_forall in Hall |- *. intros [k' v'] Hin.
    apply MapInv.In_set in Hin as [Heq|Hin]; [|now apply Hall].
    injection Heq as -> ->. simpl in Hkeep |- *. rewrite Hkeep. simpl.
    exact (Hall _ (MapInv.get_In _ _ _ E)).
  - rewrite Forall_forall in Hall |- *. intros x Hin.
    apply Hall. eapply MapInv.In_delete; eassumption.
  - unfold MemStorage.incrementViews.
    destruct id as [k|];
      [destruct (NMap.get (Some k) (MemStorage.videos s)) as [e|] eqn:E|];
      simpl; auto.
    rewrite Forall_forall in Hall |- *. intros [k' v'] Hin.
    apply MapInv.In_set in Hin as [Heq|Hin]; [|now apply Hall].
    injection Heq as -> ->. simpl.
    exact (Hall _ (MapInv.get_In _ _ _ E)).
Qed.

Lemma keeping_ids_are_keys (s : MemStorage.t) :
  reachable_keeping_ids s -> ids_are_keys s.
Proof.
  induction 1 as [|o s _ IH Hkeep]; [constructor|].
  now apply ids_are_keys_run.
Qed.

(** In such a store the videos are keyed as the users are. *)
Lemma keeping_ids_keyed (s : MemStorage.t) :
  reachable_keeping_ids s ->
  keyed Video.id (MemStorage.nextVideoId s) (MemStorage.videos s).
Proof.
  intro H. pose proof (keeping_ids_are_keys s H) as Hids.
  destruct (reachable_wf s (keeping_ids_reachable s H))
    as ((Hone & Hnd & Hall) & _).
  split; [exact Hone|]. split; [exact Hnd|].
  unfold ids_are_keys in Hids. rewrite Forall_forall in *.
  intros kv Hin. split; [now apply Hids | now apply Hall].
Qed.

End StoreInvFacts.

(* ================================================================== *)
(** ** More on sorting *)

Module SortMore.

Section Generic.
Context {A : Type} (cmp : A -> A -> Z).
Hypothesis cmp_total : forall a b, 0 < cmp a b -> cmp b a <= 0.
Hypothesis cmp_trans :
  forall a b c, cmp a b <= 0 -> cmp b c <= 0 -> cmp a c <= 0.




End Generic.

Section Related.
Context {A : Type} (cmp : A -> A -> Z) (R : A -> A -> Prop).
Hypothesis cmp_R :
  forall a a' b b', R a a' -> R b b' -> cmp a b = cmp a' b'.

Lemma insert_related (x x' : A) (l l' : list A) :
  R x x' -> Forall2 R l l' ->
  Forall2 R (JS.insert cmp x l) (JS.insert cmp x' l').
Proof.
  intros Hx. induction 1 as [|y y' l l' Hy Hl IH]; simpl.
  - repeat constructor. exact Hx.
  - rewrite (cmp_R _ _ _ _ Hx Hy).
    destruct (cmp x' y' <=? 0); repeat constructor; auto.
Qed.

Lemma sort_related (l l' : list A) :
  Forall2 R l l' -> Forall2 R (JS.sort cmp l) (JS.sort cmp l').
Proof.
  induction 1; simpl; [constructor | now apply insert_related].
Qed.

End Related.





Lemma same_slot_listing (l l' : list Video.t) :
  Forall2 StoreInv.same_slot l l' ->
  map Video.id (JS.sort MemStorage.byUploadDateDesc l)
  = map Video.id (JS.sort MemStorage.byUploadDateDesc l').
Proof.
  intro H.
  assert (Hs : Forall2 StoreInv.same_slot
                 (JS.sort MemStorage.byUploadDateDesc l)
                 (JS.sort MemStorage.byUploadDateDesc l')).
  { apply sort_related; [|exact H].
    intros a a' b b' [_ Ha] [_ Hb]. unfold MemStorage.byUploadDateDesc.
    lia. }
  induction Hs as [|a b la lb [Hid _] _ IH]; simpl; congruence.
Qed.

End SortMore.

(* ================================================================== *)
(** ** More on MemStorage *)

Module StoreMore.
Import StoreOps StoreInv.

Lemma set_videos_same (s : MemStorage.t) :
  MemStorage.set_videos s (MemStorage.videos s) (MemStorage.nextVideoId s)
  = s.
Proof. now destruct s. Qed.

Lemma set_users_same (s : MemStorage.t) :
  MemStorage.set_users s (MemStorage.users s) (MemStorage.nextUserId s) = s.
Proof. now destruct s. Qed.

Lemma Forall2_same {V : Type} (R : V -> V -> Prop) (l : list V) :
  (forall x, R x x) -> Forall2 R l l.
Proof. intro H. induction l; constructor; auto. Qed.

Lemma values_set_related {V : Type} (R : V -> V -> Prop)
    (m : NMap.t V) (k : Z) (v e : V) :
  (forall x, R x x) -> NMap.get (Some k) m = Some e -> R v e ->
  Forall2 R (NMap.values (NMap.set k v m)) (NMap.values m).
Proof.
  intros Hrefl Hget Hv. induction m as [|[k' v'] m IH]; [discriminate|].
  simpl in Hget |- *. destruct (k =? k') eqn:E; simpl.
  - injection Hget as ->. constructor; [exact Hv|].
    now apply Forall2_same.
  - constructor; [apply Hrefl | now apply IH].
Qed.

Lemma delete_app_last {V : Type} (m : NMap.t V) (k : Z) (v : V) :
  ~ In k (NMap.keys m) ->
  NMap.delete (Some k) (m ++ [(k, v)])%list = m.
Proof.
  induction m as [|[k' v'] m IH]; simpl; intro H.
  - now rewrite Z.eqb_refl.
  - destruct (k =? k') eqn:E.
    + apply Z.eqb_eq in E. subst. exfalso. auto.
    + f_equal. apply IH. auto.
Qed.

Lemma keyed_ids {V : Type} (id_of : V -> Z) (next : Z) (m : NMap.t V) :
  keyed id_of next m -> map id_of (NMap.values m) = NMap.keys m.
Proof.
  intros (_ & _ & Hall). unfold NMap.values, NMap.keys.
  rewrite map_map. apply map_ext_in. intros kv Hin.
  rewrite Forall_forall in Hall. exact (proj1 (Hall _ Hin)).
Qed.

Lemma In_values {V : Type} (m : NMap.t V) (v : V) :
  In v (NMap.values m) -> exists k, In (k, v) m.
Proof.
  unfold NMap.values. rewrite in_map_iff.
  intros ([k v'] & <- & Hin). now exists k.
Qed.



(** X2.  In a store that the operations lead to when no update carries
    an [id] key, the listing has no two videos with one identifier, and every
    video of the listing is the one found under its identifier, which is at
    least 1 and below the counter. *)
Theorem listing_ids_unique (s : MemStorage.t) :
  reachable_keeping_ids s ->
  NoDup (map Video.id (MemStorage.getAllVideos s))
  /\ forall v, In v (MemStorage.getAllVideos s) ->
       MemStorage.getVideo (Some (Video.id v)) s = Some v
       /\ 1 <= Video.id v < MemStorage.nextVideoId s.
Proof.
  intro Hreach.
  pose proof (StoreInvFacts.keeping_ids_keyed s Hreach) as Hv.
  split.
  - apply Permutation_NoDup
      with (l := map Video.id (NMap.values (MemStorage.videos s))).
    + apply Permutation_map. symmetry. apply SortFacts.sort_perm.
    + rewrite (keyed_ids _ _ _ Hv). exact (proj1 (proj2 Hv)).
  - intros v Hin. apply SortFacts.sort_In in Hin.
    destruct (In_values _ _ Hin) as [k Hk].
    destruct Hv as (_ & Hnd & Hall). rewrite Forall_forall in Hall.
    destruct (Hall _ Hk) as [Hid Hrange]. simpl in Hid, Hrange.
    rewrite Hid. split; [|exact Hrange].
    now apply MapInv.In_get.
Qed.

Lemma listing_ids_unique_witness :
  NoDup (map Video.id (MemStorage.getAllVideos Library.store))
  /\ forall v, In v (MemStorage.getAllVideos Library.store) ->
       MemStorage.getVideo (Some (Video.id v)) Library.store = Some v
       /\ 1 <= Video.id v < 4.
Proof.
  apply (listing_ids_unique Library.store).
  unfold Library.store. repeat constructor.
Defined.

(** An update with an [id] key gives two videos of the listing one
    identifier. *)
Example listing_ids_after_renumbering :
  Library.ids
    (MemStorage.getAllVideos
       (run (UpdateVideo (Some 1) (Cases.renumber 2)) Library.store))
  = [2; 3; 2].
Proof. reflexivity. Qed.

(** X3.  [deleteVideo(id)] answers whether the video was there; after it
    the identifier finds nothing, every other identifier finds what it found
    before, and the counter of the identifiers is as before, so the
    identifier is not given again; when the video was not there the store is
    unchanged. *)
Theorem deleteVideo_lookup (s : MemStorage.t) (id : Z) :
  (fst (MemStorage.deleteVideo (Some id) s) = true
   <-> exists v, MemStorage.getVideo (Some id) s = Some v)
  /\ MemStorage.getVideo (Some id) (snd (MemStorage.deleteVideo (Some id) s))
     = None
  /\ (forall k, k <> id ->
        MemStorage.getVideo (Some k) (snd (MemStorage.deleteVideo (Some id) s))
        = MemStorage.getVideo (Some k) s)
  /\ MemStorage.nextVideoId (snd (MemStorage.deleteVideo (Some id) s))
     = MemStorage.nextVideoId s
  /\ (MemStorage.getVideo (Some id) s = None ->
      snd (MemStorage.deleteVideo (Some id) s) = s)
  /\ MemStorage.deleteVideo JS.NaN s = (false, s).
Proof.
  unfold MemStorage.deleteVideo, MemStorage.getVideo, NMap.has. simpl.
  split; [|split; [|split; [|split; [|split]]]].
  - destruct (NMap.get (Some id) (MemStorage.videos s)) as [v|].
    + split; eauto.
    + split; [discriminate | intros [v H]; discriminate].
  - apply NMapFacts.get_delete_same.
  - intros k Hk. apply NMapFacts.get_delete_other. congruence.
  - reflexivity.
  - intro Hnone. rewrite (MapInv.delete_absent _ _ Hnone).
    apply set_videos_same.
  - rewrite NMapFacts.get_NaN, NMapFacts.delete_NaN.
    now rewrite set_videos_same.
Qed.

(** X4.  In a store the server can be in, deleting the video that
    [createVideo] has just made gives back the videos of before, in their
    order; only the counter has moved on. *)
Theorem create_then_delete (s : MemStorage.t) (iv : InsertVideo.t)
    (now : Z) :
  reachable s ->
  MemStorage.videos
    (snd (MemStorage.deleteVideo (Some (MemStorage.nextVideoId s))
            (snd (MemStorage.createVideo iv now s))))
  = MemStorage.videos s
  /\ MemStorage.nextVideoId
       (snd (MemStorage.deleteVideo (Some (MemStorage.nextVideoId s))
               (snd (MemStorage.createVideo iv now s))))
     = MemStorage.nextVideoId s + 1.
Proof.
  intro Hreach.
  destruct (StoreInvFacts.reachable_wf s Hreach) as (Hv & _ & _).
  pose proof (StoreInvFacts.keys_ok_next_absent _ _ Hv) as Hnone.
  split; [|reflexivity]. simpl.
  rewrite (MapInv.set_absent _ _ _ Hnone).
  apply delete_app_last. now apply MapInv.get_None_keys.
Qed.

Lemma create_then_delete_witness :
  MemStorage.videos
    (snd (MemStorage.deleteVideo (Some 2)
            (snd (MemStorage.createVideo Library.rome 1700000900000
                    Fixtures.clip_store))))
  = [(1, Fixtures.clip)].
Proof.
  exact (proj1 (create_then_delete Fixtures.clip_store Library.rome
                  1700000900000 StoreFacts.clip_store_reachable)).
Defined.

(** X5.  [updateVideo] on a video that is there: the video it returns is
    the one then found under the identifier asked for; each of its fields,
    [id], [views] and [uploadDate] too, is the one of the patch, or the one
    of before when the patch has none.  Every other identifier finds what it
    found before and the keys of the map are as before, in their order; when
    the patch has no [id] and no [uploadDate], the listing has the same
    identifiers in the same order. *)
Theorem updateVideo_keeps (s : MemStorage.t) (id : Z)
    (updates : VideoPatch.t) (e : Video.t) :
  MemStorage.getVideo (Some id) s = Some e ->
  exists u,
    fst (MemStorage.updateVideo (Some id) updates s) = Some u
    /\ MemStorage.getVideo (Some id)
         (snd (MemStorage.updateVideo (Some id) updates s)) = Some u
    /\ Video.id u = MemStorage.patched (Video.id e) (VideoPatch.id updates)
    /\ Video.views u
       = MemStorage.patched (Video.views e) (VideoPatch.views updates)
    /\ Video.uploadDate u
       = MemStorage.patched (Video.uploadDate e)
           (VideoPatch.uploadDate updates)
    /\ Video.title u
       = MemStorage.patched (Video.title e) (VideoPatch.title updates)
    /\ Video.description u
       = MemStorage.patched (Video.description e)
           (VideoPatch.description updates)
    /\ Video.fileName u
       = MemStorage.patched (Video.fileName e) (VideoPatch.fileName updates)
    /\ Video.filePath u
       = MemStorage.patched (Video.filePath e) (VideoPatch.filePath updates)
    /\ Video.embedUrl u
       = MemStorage.patched (Video.embedUrl e) (VideoPatch.embedUrl updates)
    /\ Video.isEmbedded u
       = MemStorage.patched (Video.isEmbedded e)
           (VideoPatch.isEmbedded updates)
    /\ Video.thumbnailPath u
       = MemStorage.patched (Video.thumbnailPath e)
           (VideoPatch.thumbnailPath updates)
    /\ Video.category u
       = MemStorage.patched (Video.category e) (VideoPatch.category updates)
    /\ Video.uploaderId u
       = MemStorage.patched (Video.uploaderId e)
           (VideoPatch.uploaderId updates)
    /\ Video.duration u
       = MemStorage.patched (Video.duration e) (VideoPatch.duration updates)
    /\ (forall k, k <> id ->
          MemStorage.getVideo (Some k)
            (snd (MemStorage.updateVideo (Some id) updates s))
          = MemStorage.getVideo (Some k) s)
    /\ NMap.keys
         (MemStorage.videos
            (snd (MemStorage.updateVideo (Some id) updates s)))
       = NMap.keys (MemStorage.videos s)
    /\ (VideoPatch.id updates = None ->
        VideoPatch.uploadDate updates = None ->
        map Video.id
          (MemStorage.getAllVideos
             (snd (MemStorage.updateVideo (Some id) updates s)))
        = map Video.id (MemStorage.getAllVideos s)).
Proof.
  unfold MemStorage.getVideo, MemStorage.updateVideo. intro He. rewrite He.
  eexists. split; [reflexivity|]. cbn [snd MemStorage.videos
    MemStorage.set_videos].
  split; [apply NMapFacts.get_set_same|].
  repeat (split; [reflexivity|]). split; [|split].
  - intros k Hk. apply NMapFacts.get_set_other. congruence.
  - exact (MapInv.keys_set_present _ _ _ _ He).
  - intros Hid Hdate.
    unfold MemStorage.getAllVideos. cbn [MemStorage.videos].
    apply SortMore.same_slot_listing.
    apply (values_set_related same_slot) with (e := e);
      [split; reflexivity | exact He |].
    split; cbn [Video.id Video.uploadDate]; [rewrite Hid | rewrite Hdate];
      reflexivity.
Qed.

Lemma updateVideo_keeps_witness :
  exists u,
    MemStorage.getVideo (Some 1)
      (snd (MemStorage.updateVideo (Some 1) (Cases.retitle "Rome, 1999")
              Library.store)) = Some u
    /\ Video.title u = "Rome, 1999"
    /\ Video.category u = Some "Travel"
    /\ Video.views u = 0
    /\ map Video.id
         (MemStorage.getAllVideos
            (snd (MemStorage.updateVideo (Some 1)
                    (Cases.retitle "Rome, 1999") Library.store)))
       = [2; 3; 1].
Proof.
  destruct (updateVideo_keeps Library.store 1 (Cases.retitle "Rome, 1999")
              (fst (MemStorage.createVideo Library.rome 1000
                      MemStorage.constructor))
              eq_refl)
    as (u & _ & Hget & _ & Hviews & _ & Htitle & _ & _ & _ & _ & _ & _
        & Hcat & _ & _ & _ & _ & Horder).
  exists u. split; [exact Hget|]. split; [exact Htitle|].
  split; [exact Hcat|]. split; [exact Hviews|].
  exact (Horder eq_refl eq_refl).
Defined.



(** X7.  An identifier that finds nothing, or that is [NaN]: [updateVideo],
    [incrementViews] and [updateUserPassword] return [undefined] and leave the
    store as it is. *)
Theorem missing_id_changes_nothing (s : MemStorage.t) (id : JS.number)
    (updates : VideoPatch.t) (newPassword : string) :
  (MemStorage.getVideo id s = None ->
   MemStorage.updateVideo id updates s = (None, s)
   /\ MemStorage.incrementViews id s = (None, s))
  /\ (MemStorage.getUser id s = None ->
      MemStorage.updateUserPassword id newPassword s = (None, s))
  /\ MemStorage.getVideo JS.NaN s = None
  /\ MemStorage.getUser JS.NaN s = None.
Proof.
  unfold MemStorage.getVideo, MemStorage.getUser, MemStorage.updateVideo,
    MemStorage.incrementViews, MemStorage.updateUserPassword.
  split; [|split; [|split]].
  - intro H. destruct id as [k|]; [rewrite H|]; split; reflexivity.
  - intro H. destruct id as [k|]; [rewrite H|]; reflexivity.
  - apply NMapFacts.get_NaN.
  - apply NMapFacts.get_NaN.
Qed.




End StoreMore.

(* ================================================================== *)
(** ** The accounts of the store *)

Module AccountFacts.
Import StoreOps StoreInv.

Lemma find_app_l {A : Type} (p : A -> bool) (l l' : list A) (x : A) :
  find p l = Some x -> find p (l ++ l') = Some x.
Proof.
  induction l as [|a l IH]; simpl; [discriminate|].
  destruct (p a); auto.
Qed.

Lemma find_app_r {A : Type} (p : A -> bool) (l l' : list A) :
  find p l = None -> find p (l ++ l') = find p l'.
Proof.
  induction l as [|a l IH]; simpl; [reflexivity|].
  destruct (p a); [discriminate | auto].
Qed.

Lemma map_related {A B : Type} (f : A -> B) (l l' : list A) :
  Forall2 (fun a b => f a = f b) l l' -> map f l = map f l'.
Proof. induction 1; simpl; congruence. Qed.

(** X10.  In a store the server can be in, [createUser] does not look at
    the names that are taken: when the name is free the new account is the
    one [getUserByUsername] finds, and when an account has the name, that
    account is still the one found and the new one is not; in both cases the
    new account is under the next identifier. *)
Theorem createUser_then_find (s : MemStorage.t) (iu : InsertUser.t) :
  reachable s ->
  MemStorage.getUser (Some (MemStorage.nextUserId s))
    (snd (MemStorage.createUser iu s))
  = Some (fst (MemStorage.createUser iu s))
  /\ (MemStorage.getUserByUsername (InsertUser.username iu) s = None ->
      MemStorage.getUserByUsername (InsertUser.username iu)
        (snd (MemStorage.createUser iu s))
      = Some (fst (MemStorage.createUser iu s)))
  /\ (forall u,
        MemStorage.getUserByUsername (InsertUser.username iu) s = Some u ->
        MemStorage.getUserByUsername (InsertUser.username iu)
          (snd (MemStorage.createUser iu s)) = Some u
        /\ User.id u <> User.id (fst (MemStorage.createUser iu s))).
Proof.
  intro Hreach.
  destruct (StoreInvFacts.reachable_wf s Hreach) as (_ & Hu & _).
  pose proof (StoreInvFacts.keyed_next_absent _ _ _ Hu) as Hnone.
  unfold MemStorage.getUser, MemStorage.getUserByUsername,
    MemStorage.createUser.
  cbn [fst snd MemStorage.users MemStorage.set_users].
  split; [apply NMapFacts.get_set_same|].
  rewrite (MapInv.set_absent _ _ _ Hnone).
  unfold NMap.values. rewrite map_app. cbn [map snd].
  split.
  - intro Hfree. rewrite (find_app_r _ _ _ Hfree). cbn [find User.username].
    now rewrite String.eqb_refl.
  - intros u Hfound. split; [now apply find_app_l|].
    apply find_some in Hfound as [Hin _].
    destruct (StoreMore.In_values _ _ Hin) as [k Hk].
    destruct Hu as (_ & _ & Hall). rewrite Forall_forall in Hall.
    destruct (Hall _ Hk) as [Hid Hrange]. simpl in *. lia.
Qed.

Lemma createUser_then_find_witness :
  MemStorage.getUserByUsername "admin" Cases.twin_store = Some Fixtures.admin
  /\ MemStorage.getUser (Some 2) Cases.twin_store
     = Some (User.mk 2 "admin" "other-pass" false).
Proof.
  destruct (createUser_then_find MemStorage.constructor
              (InsertUser.mk "admin" "other-pass" false)
              reachable_constructor) as (Hnew & _ & Hold).
  split; [|exact Hnew].
  exact (proj1 (Hold Fixtures.admin eq_refl)).
Defined.

(** X11.  [updateUserPassword] on an account that is there: the account it
    returns is the one then found; it has the new password and the
    identifier, the name and the flag of before.  Every other identifier
    finds what it found before, the names are in the order of before, and no
    video is touched. *)
Theorem updateUserPassword_keeps (s : MemStorage.t) (id : Z)
    (newPassword : string) (u : User.t) :
  MemStorage.getUser (Some id) s = Some u ->
  exists u',
    fst (MemStorage.updateUserPassword (Some id) newPassword s) = Some u'
    /\ MemStorage.getUser (Some id)
         (snd (MemStorage.updateUserPassword (Some id) newPassword s))
       = Some u'
    /\ User.password u' = newPassword
    /\ same_account u' u
    /\ (forall k, k <> id ->
          MemStorage.getUser (Some k)
            (snd (MemStorage.updateUserPassword (Some id) newPassword s))
          = MemStorage.getUser (Some k) s)
    /\ map User.username
         (MemStorage.getAllUsers
            (snd (MemStorage.updateUserPassword (Some id) newPassword s)))
       = map User.username (MemStorage.getAllUsers s)
    /\ MemStorage.videos
         (snd (MemStorage.updateUserPassword (Some id) newPassword s))
       = MemStorage.videos s.
Proof.
  unfold MemStorage.getUser, MemStorage.updateUserPassword. intro Hu.
  rewrite Hu. eexists. split; [reflexivity|].
  cbn [snd MemStorage.users MemStorage.set_users MemStorage.videos].
  split; [apply NMapFacts.get_set_same|].
  split; [reflexivity|]. split; [repeat split|].
  split; [|split; [|reflexivity]].
  - intros k Hk. apply NMapFacts.get_set_other. congruence.
  - unfold MemStorage.getAllUsers. cbn [MemStorage.users].
    apply map_related.
    apply StoreMore.values_set_related with (e := u); auto.
Qed.

Lemma updateUserPassword_keeps_witness :
  exists u',
    MemStorage.getUser (Some 1)
      (snd (MemStorage.updateUserPassword (Some 1) "s3cret-new"
              Fixtures.clip_store)) = Some u'
    /\ User.password u' = "s3cret-new"
    /\ User.username u' = "admin"
    /\ User.isAdmin u' = true.
Proof.
  destruct (updateUserPassword_keeps Fixtures.clip_store 1 "s3cret-new"
              Fixtures.admin eq_refl)
    as (u' & _ & Hget & Hpw & (_ & Hname & Hflag) & _).
  exists u'. repeat split; assumption.
Defined.

(** The first record that [p] accepts, after the record under [k] made
    place for one that [p] treats alike. *)
Lemma find_values_set {V : Type} (id_of : V -> Z) (p : V -> bool)
    (next : Z) (m : NMap.t V) (k : Z) (v e a : V) :
  keyed id_of next m -> NMap.get (Some k) m = Some e -> p v = p e ->
  find p (NMap.values m) = Some a ->
  find p (NMap.values (NMap.set k v m))
  = Some (if id_of a =? k then v else a).
Proof.
  intros (Hone & Hnd & Hall) Hget Hp.
  induction m as [|[k0 v0] m IH]; [discriminate|].
  inversion Hnd as [|? ? Hnotin Hnd']; subst.
  inversion Hall as [|? ? [Hid0 _] Hall']; subst. simpl in Hid0.
  simpl in Hget |- *. destruct (k =? k0) eqn:E.
  - apply Z.eqb_eq in E. subst k0. injection Hget as ->.
    simpl. rewrite Hp. destruct (p e) eqn:Hpe.
    + intro H. injection H as <-. now rewrite Hid0, Z.eqb_refl.
    + intro Hfind. rewrite Hfind. f_equal.
      apply find_some in Hfind as [Hin _].
      destruct (StoreMore.In_values _ _ Hin) as [k' Hk'].
      rewrite Forall_forall in Hall'.
      destruct (Hall' _ Hk') as [Hid' _]. simpl in Hid'.
      replace (id_of a =? k) with false; [reflexivity|].
      symmetry. apply Z.eqb_neq. intro Heq. apply Hnotin.
      rewrite <- Heq, Hid'. change k' with (fst (k', a)).
      now apply in_map.
  - simpl. destruct (p v0) eqn:Hp0.
    + intro H. injection H as <-. rewrite Hid0.
      apply Z.eqb_neq in E.
      replace (k0 =? k) with false by (symmetry; apply Z.eqb_neq; lia).
      reflexivity.
    + now apply IH.
Qed.

Lemma run_account (o : op) (s : MemStorage.t) (k : Z) (u : User.t) :
  wf s -> MemStorage.getUser (Some k) s = Some u ->
  exists u', MemStorage.getUser (Some k) (run o s) = Some u'
             /\ same_account u u'.
Proof.
  intros (_ & Hu & _) Hget. unfold MemStorage.getUser in *.
  assert (Hsame : same_account u u) by (repeat split).
  destruct o as [iu|id p|iv now|id upd|id|id|name]; simpl; eauto.
  - exists u. split; [|exact Hsame].
    rewrite NMapFacts.get_set_other; [exact Hget|].
    destruct (StoreInvFacts.keyed_get _ _ _ _ _ Hu Hget). lia.
  - unfold MemStorage.updateUserPassword.
    destruct id as [j|]; [|eauto].
    destruct (NMap.get (Some j) (MemStorage.users s)) as [e|] eqn:E;
      [|eauto].
    simpl. destruct (Z.eq_dec j k) as [->|Hne].
    + rewrite NMapFacts.get_set_same. eexists. split; [reflexivity|].
      rewrite Hget in E. injection E as <-. repeat split.
    + rewrite NMapFacts.get_set_other by assumption. eauto.
  - unfold MemStorage.updateVideo.
    destruct id; [destruct (NMap.get _ (MemStorage.videos s))|]; eauto.
  - unfold MemStorage.incrementViews.
    destruct id; [destruct (NMap.get _ (MemStorage.videos s))|]; eauto.
Qed.

Lemma same_account_trans (a b c : User.t) :
  same_account a b -> same_account b c -> same_account a c.
Proof. unfold same_account. intuition congruence. Qed.

(** X12.  No operation of the store removes an account, or changes its
    identifier, its name or its flag of administrator: in a store the server
    can be in, an account that is there is there after any run of
    operations, the same but for its password. *)
Theorem accounts_persist (s : MemStorage.t) (k : Z) (u : User.t)
    (ops : list op) :
  reachable s ->
  MemStorage.getUser (Some k) s = Some u ->
  exists u', MemStorage.getUser (Some k) (run_all ops s) = Some u'
             /\ same_account u u'.
Proof.
  intros Hreach. apply StoreInvFacts.reachable_wf in Hreach.
  revert s u Hreach. induction ops as [|o ops IH]; intros s u Hwf Hget.
  - exists u. split; [exact Hget | repeat split].
  - destruct (run_account o s k u Hwf Hget) as (u1 & H1 & Hs1).
    destruct (IH (run o s) u1 (StoreInvFacts.wf_run o s Hwf) H1)
      as (u' & H' & Hs').
    exists u'. split; [exact H' | eapply same_account_trans; eassumption].
Qed.

Lemma accounts_persist_witness :
  exists u',
    MemStorage.getUser (Some 1)
      (run_all [UpdateUserPassword (Some 1) "s3cret-new";
                CreateUser (InsertUser.mk "admin" "other-pass" true);
                DeleteVideo (Some 1)]
         Fixtures.clip_store) = Some u'
    /\ User.username u' = "admin" /\ User.isAdmin u' = true.
Proof.
  destruct (accounts_persist Fixtures.clip_store 1 Fixtures.admin
              [UpdateUserPassword (Some 1) "s3cret-new";
               CreateUser (InsertUser.mk "admin" "other-pass" true);
               DeleteVideo (Some 1)]
              StoreFacts.clip_store_reachable eq_refl)
    as (u' & Hget & _ & Hname & Hflag).
  exists u'. split; [exact Hget|].
  split; [symmetry; exact Hname | symmetry; exact Hflag].
Defined.

(** In every store the server can be in, the account 1 is the one of the
    constructor: it is named [admin], it is an administrator, and
    [getUserByUsername("admin")] finds it. *)
Lemma reachable_admin (s : MemStorage.t) :
  reachable s ->
  exists a,
    MemStorage.getUser (Some 1) s = Some a
    /\ User.id a = 1 /\ User.username a = "admin" /\ User.isAdmin a = true
    /\ MemStorage.getUserByUsername "admin" s = Some a.
Proof.
  induction 1 as [|o s Hreach (a & Hget & Hid & Hname & Hflag & Hfind)].
  - exists Fixtures.admin. repeat split; reflexivity.
  - pose proof (StoreInvFacts.reachable_wf s Hreach) as Hwf.
    destruct (run_account o s 1 a Hwf Hget) as (a' & Hget' & Hi & Hn & Hf).
    exists a'. split; [exact Hget'|].
    split; [congruence|]. split; [congruence|]. split; [congruence|].
    (* the first account with the name is still the first *)
    destruct Hwf as (_ & Hu & _).
    pose proof (StoreInvFacts.keyed_next_absent _ _ _ Hu) as Hnone.
    unfold MemStorage.getUserByUsername, MemStorage.getUser in *.
    destruct o as [iu|id p|iv now|id upd|id|id|name]; simpl in *;
      try (rewrite Hget in Hget'; injection Hget' as <-; exact Hfind).
    + rewrite NMapFacts.get_set_other in Hget'
        by (destruct (StoreInvFacts.keyed_get _ _ _ _ _ Hu Hget); lia).
      rewrite Hget in Hget'. injection Hget' as <-.
      rewrite (MapInv.set_absent _ _ _ Hnone).
      unfold NMap.values. rewrite map_app. now apply find_app_l.
    + unfold MemStorage.updateUserPassword in *.
      destruct id as [j|];
        [|simpl in *; rewrite Hget in Hget'; injection Hget' as <-;
          exact Hfind].
      destruct (NMap.get (Some j) (MemStorage.users s)) as [e|] eqn:E;
        [|simpl in *; rewrite Hget in Hget'; injection Hget' as <-;
          exact Hfind].
      simpl in *.
      rewrite (find_values_set User.id
                 (fun user => String.eqb (User.username user) "admin")
                 _ _ j
                 (User.mk (User.id e) (User.username e) p (User.isAdmin e))
                 e a Hu E eq_refl Hfind).
      rewrite Hid. f_equal. destruct (Z.eq_dec j 1) as [->|Hne].
      * rewrite NMapFacts.get_set_same in Hget'. now injection Hget' as <-.
      * rewrite NMapFacts.get_set_other in Hget' by assumption.
        rewrite Hget in Hget'. injection Hget' as <-.
        replace (1 =? j) with false by (symmetry; apply Z.eqb_neq; lia).
        reflexivity.
    + unfold MemStorage.updateVideo in *.
      destruct id; [destruct (NMap.get _ (MemStorage.videos s))|];
        simpl in *; rewrite Hget in Hget'; injection Hget' as <-;
        exact Hfind.
    + unfold MemStorage.incrementViews in *.
      destruct id; [destruct (NMap.get _ (MemStorage.videos s))|];
        simpl in *; rewrite Hget in Hget'; injection Hget' as <-;
        exact Hfind.
Qed.

End AccountFacts.

(* ================================================================== *)
(** ** The routes of the accounts *)

Module AccountRoutes.
Import Routes Accounts StoreOps StoreInv.

(** What [loginSchema] accepts. *)
Lemma loginSchema_ok (o : Json.object) (c : Login.t) :
  loginSchema o = Zod.Ok c
  <-> Json.get "username" o = Some (Json.Str (Login.username c))
      /\ (3 <= String.length (Login.username c))%nat
      /\ Json.get "password" o = Some (Json.Str (Login.password c))
      /\ (6 <= String.length (Login.password c))%nat.
Proof.
  unfold loginSchema, Zod.string_min, Zod.string_, Zod.bind, Zod.refine.
  split.
  - destruct (Json.get "username" o) as [[| | |u|]|]; try discriminate.
    destruct (Nat.leb 3 (String.length u)) eqn:Hu; try discriminate.
    destruct (Json.get "password" o) as [[| | |p|]|]; try discriminate.
    destruct (Nat.leb 6 (String.length p)) eqn:Hp; try discriminate.
    intro H. injection H as <-. simpl.
    apply Nat.leb_le in Hu, Hp. auto.
  - destruct c as [u p]. cbn [Login.username Login.password].
    intros (-> & Hu & -> & Hp).
    apply Nat.leb_le in Hu, Hp. now rewrite Hu, Hp.
Qed.



(** X15.  A login with a name of fewer than three characters or a password
    of fewer than six is answered with 400 whatever the store has, also when
    the store has an account with that name and that password. *)
Theorem login_validates_first (req : Request) (w : World)
    (username password : string) :
  Json.get "username" (body req) = Some (Json.Str username) ->
  Json.get "password" (body req) = Some (Json.Str password) ->
  (String.length username < 3)%nat \/ (String.length password < 6)%nat ->
  login req w = mkResult (mkResponse 400 ValidationError) (session_user req).
Proof.
  intros Hu Hp Hshort. unfold login.
  destruct (loginSchema (body req)) as [c|] eqn:Hc; [|reflexivity].
  apply loginSchema_ok in Hc as (Hu' & Hlu & Hp' & Hlp).
  rewrite Hu in Hu'. rewrite Hp in Hp'.
  injection Hu' as ->. injection Hp' as ->. lia.
Qed.

Lemma login_validates_first_witness :
  MemStorage.getUserByUsername "bob"
    (run (CreateUser (InsertUser.mk "bob" "abc12" false))
       MemStorage.constructor)
  = Some (User.mk 2 "bob" "abc12" false)
  /\ login (Cases.login_request "bob" "abc12")
       (mkWorld (run (CreateUser (InsertUser.mk "bob" "abc12" false))
                   MemStorage.constructor)
          (fun _ => None))
     = mkResult (mkResponse 400 ValidationError) None.
Proof.
  split; [reflexivity|].
  apply (login_validates_first (Cases.login_request "bob" "abc12") _
           "bob" "abc12"); [reflexivity | reflexivity |].
  right. simpl. lia.
Defined.







End AccountRoutes.

(* ================================================================== *)
(** ** The routes of the videos *)

Module VideoRouteFacts.
Import Routes VideoRoutes StoreOps StoreInv Numerals Intake.

(** X13.  In a store the server can be in, a login under the name [admin]
    that succeeds puts the account 1 in the session, and it is an
    administrator: with that session the routes of the administrator answer
    200, [/admin/users] with every account of the store, passwords
    included, and [/admin/videos] with the full listing.  Without a session,
    or with one of an account that is not an administrator, both answer
    403. *)
Theorem admin_login_opens_admin_routes (req areq : Request) (w : World)
    (password : string) :
  reachable (store w) ->
  loginSchema (body req) = Zod.Ok (Login.mk "admin" password) ->
  Accounts.status (Accounts.response (Accounts.login req w)) = 200 ->
  session_user areq = Accounts.session (Accounts.login req w) ->
  (exists a, session_user areq = Some a
             /\ User.id a = 1 /\ User.isAdmin a = true
             /\ MemStorage.getUser (Some 1) (store w) = Some a)
  /\ Accounts.response (Accounts.admin_users areq w)
     = Accounts.mkResponse 200
         (Accounts.Users (MemStorage.getAllUsers (store w)))
  /\ Accounts.response (Accounts.admin_videos areq w)
     = Accounts.mkResponse 200
         (Accounts.Videos (MemStorage.getAllVideos (store w)))
  /\ (forall other,
        session_user other = None
        \/ (exists u, session_user other = Some u /\ User.isAdmin u = false) ->
        Accounts.status (Accounts.response (Accounts.admin_users other w))
        = 403
        /\ Accounts.status
             (Accounts.response (Accounts.admin_videos other w)) = 403).
Proof.
  intros Hreach Hc Hok Hsess.
  destruct (AccountFacts.reachable_admin _ Hreach)
    as (a & Hget & Hid & Hname & Hflag & Hfind).
  assert (Ha : session_user areq = Some a).
  { rewrite Hsess. revert Hok. unfold Accounts.login.
    rewrite Hc. cbn [Login.username Login.password]. rewrite Hfind.
    destruct (negb (String.eqb (User.password a) password));
      [discriminate | reflexivity]. }
  split; [exists a; auto|].
  unfold Accounts.admin_users, Accounts.admin_videos, Accounts.requireAdmin.
  rewrite Ha, Hflag. cbn [negb Accounts.response].
  split; [reflexivity|]. split; [reflexivity|].
  intros other [Hnone | (u & Hu & Hnot)].
  - rewrite Hnone. split; reflexivity.
  - rewrite Hu, Hnot. split; reflexivity.
Qed.

Lemma admin_login_opens_admin_routes_witness :
  Accounts.response
    (Accounts.admin_users (Cases.video_request (Some Fixtures.admin) "")
       Fixtures.clip_world)
  = Accounts.mkResponse 200
      (Accounts.Users [Fixtures.admin; Fixtures.viewer])
  /\ Accounts.status
       (Accounts.response
          (Accounts.admin_users
             (Cases.video_request (Some Fixtures.viewer) "")
             Fixtures.clip_world)) = 403.
Proof.
  destruct (admin_login_opens_admin_routes
              (Cases.login_request "admin" "admin123")
              (Cases.video_request (Some Fixtures.admin) "")
              Fixtures.clip_world "admin123"
              StoreFacts.clip_store_reachable eq_refl eq_refl eq_refl)
    as (_ & Husers & _ & Hclosed).
  split; [exact Husers|].
  apply (Hclosed (Cases.video_request (Some Fixtures.viewer) "")).
  right. exists Fixtures.viewer. split; reflexivity.
Defined.

(** X18.  Without a session, the four routes behind [requireAuth] answer
    401 and change neither the store nor the disk, whatever the request
    carries. *)
Theorem unauthenticated_changes_nothing (env : Env) (req : Request)
    (w : World) :
  session_user req = None ->
  change_password req w = respond (json 401 (Message "Unauthorized")) w req
  /\ post_videos env req w
     = respond (json 401 (Message "Unauthorized")) w req
  /\ put_video req w
     = respond (json 401 (Message "Unauthorized")) w req
  /\ delete_video req w
     = respond (json 401 (Message "Unauthorized")) w req
  /\ world (respond (json 401 (Message "Unauthorized")) w req) = w.
Proof.
  intro H.
  unfold change_password, post_videos, put_video, delete_video, requireAuth.
  rewrite H. repeat split.
Qed.

Lemma unauthenticated_changes_nothing_witness :
  outcome (delete_video (Cases.video_request None "1") Fixtures.clip_world)
  = Responded (json 401 (Message "Unauthorized"))
  /\ world (post_videos Fixtures.sample_env
              (mkRequest None "" None None None []
                 (Some [("title", Json.Str "Film")])
                 [mkFilePart "file" "film.mp4" "video/mp4"
                    Cases.film_bytes])
              Fixtures.clip_world)
     = Fixtures.clip_world.
Proof.
  split.
  - destruct (unauthenticated_changes_nothing Fixtures.sample_env
                (Cases.video_request None "1") Fixtures.clip_world
                eq_refl) as (_ & _ & _ & Hdel & _).
    now rewrite Hdel.
  - destruct (unauthenticated_changes_nothing Fixtures.sample_env
                (mkRequest None "" None None None []
                   (Some [("title", Json.Str "Film")])
                   [mkFilePart "file" "film.mp4" "video/mp4"
                      Cases.film_bytes])
                Fixtures.clip_world eq_refl)
      as (_ & Hpost & _).
    now rewrite Hpost.
Defined.

(** X19.  A deletion by the uploader of the video, or by an
    administrator, is answered with 200: the identifier then finds nothing,
    every other identifier finds what it found before, the file of the video
    is gone from the disk and every other path is as before. *)
Theorem delete_video_removes (req : Request) (w : World) (su : User.t)
    (video : Video.t) :
  session_user req = Some su ->
  MemStorage.getVideo (JS.parseInt (params_id req) 0) (store w)
    = Some video ->
  User.isAdmin su = true \/ Video.uploaderId video = User.id su ->
  outcome (delete_video req w)
  = Responded (json 200 (Confirmation "Video deleted successfully"))
  /\ MemStorage.getVideo (JS.parseInt (params_id req) 0)
       (store (world (delete_video req w))) = None
  /\ (forall k, Some k <> JS.parseInt (params_id req) 0 ->
        MemStorage.getVideo (Some k) (store (world (delete_video req w)))
        = MemStorage.getVideo (Some k) (store w))
  /\ (forall p, Video.filePath video = Some p ->
        disk (world (delete_video req w)) p = None)
  /\ (forall q, Video.filePath video <> Some q ->
        disk (world (delete_video req w)) q = disk w q).
Proof.
  intros Hsess Hget Hmay.
  unfold delete_video, requireAuth. rewrite Hsess, Hget.
  assert (Hgate : negb (User.isAdmin su)
                  && negb (Video.uploaderId video =? User.id su) = false).
  { destruct Hmay as [-> | ->]; [reflexivity|].
    rewrite Z.eqb_refl. apply andb_false_r. }
  rewrite Hgate. cbn [respond outcome world store disk].
  destruct (JS.parseInt (params_id req) 0) as [k|] eqn:Hk;
    [|unfold MemStorage.getVideo in Hget;
      rewrite NMapFacts.get_NaN in Hget; discriminate].
  split; [reflexivity|].
  unfold MemStorage.getVideo, MemStorage.deleteVideo.
  cbn [snd MemStorage.videos MemStorage.set_videos].
  split; [apply NMapFacts.get_delete_same|]. split.
  - intros k' Hk'. apply NMapFacts.get_delete_other. congruence.
  - split.
    + intros p Hp. rewrite Hp. unfold Fs.existsSync, Fs.unlinkSync.
      destruct (disk w p) eqn:Hd; [now rewrite String.eqb_refl | exact Hd].
    + intros q Hq. destruct (Video.filePath video) as [p|]; [|reflexivity].
      destruct (Fs.existsSync (disk w) (Some p)); [|reflexivity].
      unfold Fs.unlinkSync.
      destruct (String.eqb q p) eqn:E; [|reflexivity].
      apply String.eqb_eq in E. congruence.
Qed.

Lemma delete_video_removes_witness :
  outcome (delete_video (Cases.video_request (Some Fixtures.admin) "1")
             Fixtures.clip_world)
  = Responded (json 200 (Confirmation "Video deleted successfully"))
  /\ disk (world (delete_video
                    (Cases.video_request (Some Fixtures.admin) "1")
                    Fixtures.clip_world)) Fixtures.clip_path = None.
Proof.
  destruct (delete_video_removes
              (Cases.video_request (Some Fixtures.admin) "1")
              Fixtures.clip_world Fixtures.admin Fixtures.clip
              eq_refl eq_refl (or_introl eq_refl))
    as (Hout & _ & _ & Hfile & _).
  split; [exact Hout|]. apply Hfile. reflexivity.
Defined.





End VideoRouteFacts.

(* ================================================================== *)
(** ** Uploading, and streaming what was uploaded *)

Module UploadFacts.
Import Routes VideoRoutes StoreOps StoreInv Numerals Intake.

(** The record of an upload has the file name, the path and the uploader
    that the handler sets, whatever [videoData] says of them. *)
Lemma insertVideoSchema_upload (data : Json.object) (f : StoredFile)
    (user : User.t) (iv : InsertVideo.t) :
  insertVideoSchema (upload_fields data f user) = Zod.Ok iv ->
  InsertVideo.fileName iv = Some (file_originalname f)
  /\ InsertVideo.filePath iv = Some (file_path f)
  /\ InsertVideo.uploaderId iv = User.id user
  /\ Json.get "title" data = Some (Json.Str (InsertVideo.title iv)).
Proof.
  unfold insertVideoSchema, upload_fields, Json.set, Zod.bind, Zod.string_,
    Zod.string_nullish, Zod.boolean_nullish, Zod.number_,
    Zod.number_nullish.
  cbn [Json.get String.eqb Ascii.eqb Bool.eqb].
  repeat match goal with
  | |- context [match Json.get ?k data with _ => _ end] =>
      destruct (Json.get k data) as [[| | | |]|]; try discriminate
  end;
  intro H; injection H as <-; auto.
Qed.

(** An upload that passes the intake reaches the handler with its file
    on the disk. *)
Lemma post_videos_accepted (env : Env) (req : Request) (w : World)
    (user : User.t) (part : FilePart) :
  accepted req user part ->
  post_videos env req w
  = match videoData req with
    | None =>
        respond (json 500 (Message "Error uploading video"))
          (mkWorld (store w)
             (Fs.writeFile (stored_path env part) (content part) (disk w)))
          req
    | Some data =>
        match insertVideoSchema (upload_fields data (stored env part) user)
        with
        | Zod.ZodError =>
            respond (json 400 ValidationError)
              (mkWorld (store w)
                 (Fs.writeFile (stored_path env part) (content part)
                    (disk w)))
              req
        | Zod.Ok validated =>
            respond
              (json 201
                 (OneVideo
                    (fst (MemStorage.createVideo validated (now env)
                            (store w)))))
              (mkWorld
                 (snd (MemStorage.createVideo validated (now env) (store w)))
                 (Fs.writeFile (stored_path env part) (content part)
                    (disk w)))
              req
        end
    end.
Proof.
  intros (Hsess & Hfiles & Hfield & Hfilter & Hsize).
  unfold post_videos, requireAuth, upload_single. rewrite Hsess, Hfiles.
  cbn [upload_parts]. rewrite Hfield, String.eqb_refl, Hfilter.
  replace (fileSizeLimit <? Z.of_nat (List.length (content part)))
    with false by (symmetry; apply Z.ltb_ge; exact Hsize).
  cbn [negb]. unfold stored.
  destruct (videoData req) as [data|]; [|reflexivity].
  destruct (insertVideoSchema _); reflexivity.
Qed.

(** C2.  The handler of [POST /videos] has no URL-embed variant.  An
    authenticated request whose body passes [embedVideoSchema] (a valid URL,
    a title, [isEmbedded: true]) and that brings no file, as the variant
    asks, is answered with 400 and creates no record: the store and the disk
    are as before.  And whatever the request, a record that the handler
    creates has the path of a file that the request brought and that is
    then on the disk. *)
Theorem embed_request_creates_nothing
    (is_url : string -> bool) (env : Env) (req : Request) (w : World)
    (user : User.t) (data : EmbedVideo.t) :
  session_user req = Some user ->
  embedVideoSchema is_url (body req) = Zod.Ok data ->
  files req = [] ->
  (outcome (post_videos env req w)
   = Responded (json 400 (Message "No video file uploaded"))
   /\ world (post_videos env req w) = w)
  /\ (forall (env' : Env) (req' : Request) (w' : World) (video : Video.t),
         outcome (post_videos env' req' w')
         = Responded (json 201 (OneVideo video)) ->
         exists part,
           files req' = [part]
           /\ Video.filePath video = Some (stored_path env' part)
           /\ disk (world (post_videos env' req' w')) (stored_path env' part)
              = Some (content part)).
Proof.
  intros Hsess _ Hfiles. split.
  - unfold post_videos, requireAuth, upload_single.
    rewrite Hsess, Hfiles. destruct w. split; reflexivity.
  - clear. intros env req w video Hout.
    assert (Hacc : exists user part,
               accepted req user part /\ files req = [part]).
    { unfold post_videos, requireAuth, upload_single in Hout.
      destruct (session_user req) as [user|] eqn:Hsess;
        [|discriminate Hout].
      destruct (files req) as [|part rest] eqn:Hfiles;
        [discriminate Hout|].
      cbn [upload_parts] in Hout.
      destruct (String.eqb (fieldname part) "file") eqn:Hfield;
        [|discriminate Hout].
      destruct (fileFilter part) eqn:Hfilter; [|discriminate Hout].
      destruct (fileSizeLimit <? Z.of_nat (List.length (content part)))
        eqn:Hsize; [discriminate Hout|].
      destruct rest as [|p2 rest]; [|discriminate Hout].
      exists user, part. split; [|reflexivity].
      apply Z.ltb_ge in Hsize. apply String.eqb_eq in Hfield.
      repeat split; assumption. }
    destruct Hacc as (user & part & Hacc & Hfiles).
    rewrite (post_videos_accepted env req w user part Hacc) in Hout |- *.
    exists part. split; [exact Hfiles|].
    destruct (videoData req) as [data|]; [|discriminate Hout].
    destruct (insertVideoSchema _) as [iv|] eqn:Hiv; [|discriminate Hout].
    destruct (insertVideoSchema_upload _ _ _ _ Hiv) as (_ & Hpath & _).
    injection Hout as <-. split; [exact Hpath|].
    cbn [respond world disk]. unfold Fs.writeFile.
    now rewrite String.eqb_refl.
Qed.

Lemma embed_request_creates_nothing_witness :
  outcome (post_videos Fixtures.sample_env Fixtures.embed_request
             Fixtures.clip_world)
  = Responded (json 400 (Message "No video file uploaded"))
  /\ MemStorage.getAllVideos
       (store (world (post_videos Fixtures.sample_env Fixtures.embed_request
                        Fixtures.clip_world)))
     = [Fixtures.clip].
Proof.
  destruct (embed_request_creates_nothing Fixtures.web_url
              Fixtures.sample_env Fixtures.embed_request Fixtures.clip_world
              Fixtures.viewer
              (EmbedVideo.mk "Talk" None "https://example.org/v/1"
                 (Some "Education"))
              eq_refl eq_refl eq_refl) as ((Hout & Hworld) & _).
  split; [exact Hout|]. rewrite Hworld. reflexivity.
Defined.

(** X22.  An upload that passes the intake, with metadata that pass the
    schema, is answered with 201 and the new record: its uploader is the
    session user, its file name the one of the part and its path the one
    under which the file was stored, whatever the metadata say of the three;
    it has no view and the time of the clock.  The record is then found
    under its identifier and the bytes of the part are on the disk under
    that path. *)
Theorem upload_creates_video (env : Env) (req : Request) (w : World)
    (user : User.t) (part : FilePart) (data : Json.object)
    (iv : InsertVideo.t) :
  accepted req user part ->
  videoData req = Some data ->
  insertVideoSchema (upload_fields data (stored env part) user) = Zod.Ok iv ->
  exists video,
    outcome (post_videos env req w) = Responded (json 201 (OneVideo video))
    /\ MemStorage.getVideo (Some (Video.id video))
         (store (world (post_videos env req w))) = Some video
    /\ Video.id video = MemStorage.nextVideoId (store w)
    /\ Video.uploaderId video = User.id user
    /\ Video.fileName video = Some (originalname part)
    /\ Video.filePath video = Some (stored_path env part)
    /\ Json.get "title" data = Some (Json.Str (Video.title video))
    /\ Video.views video = 0
    /\ Video.uploadDate video = now env
    /\ disk (world (post_videos env req w)) (stored_path env part)
       = Some (content part).
Proof.
  intros Hacc Hdata Hiv.
  rewrite (post_videos_accepted env req w user part Hacc), Hdata, Hiv.
  destruct (insertVideoSchema_upload _ _ _ _ Hiv)
    as (Hname & Hpath & Hup & Htitle).
  eexists. split; [reflexivity|].
  cbn [respond world store disk].
  split; [apply NMapFacts.get_set_same|].
  repeat (split; [first [reflexivity | assumption]|]).
  unfold Fs.writeFile. now rewrite String.eqb_refl.
Qed.

Lemma upload_creates_video_witness :
  exists video,
    outcome (post_videos Fixtures.sample_env Cases.film_upload_request
               Fixtures.clip_world)
    = Responded (json 201 (OneVideo video))
    /\ Video.id video = 2
    /\ Video.uploaderId video = 2
    /\ Video.filePath video = Some Cases.film_path
    /\ disk (world (post_videos Fixtures.sample_env
                      Cases.film_upload_request Fixtures.clip_world))
         Cases.film_path
       = Some Cases.film_bytes.
Proof.
  assert (Hacc : accepted Cases.film_upload_request Fixtures.viewer
                   (mkFilePart "file" "film.mp4" "video/mp4"
                      Cases.film_bytes)).
  { repeat split. vm_compute. discriminate. }
  destruct (upload_creates_video Fixtures.sample_env
              Cases.film_upload_request Fixtures.clip_world Fixtures.viewer
              (mkFilePart "file" "film.mp4" "video/mp4" Cases.film_bytes)
              [("title", Json.Str "Film"); ("uploaderId", Json.Num 1);
               ("filePath", Json.Str "/etc/passwd")]
              (InsertVideo.mk "Film" None (Some "film.mp4")
                 (Some Cases.film_path) None None None None 2 None)
              Hacc eq_refl eq_refl)
    as (video & Hout & _ & Hid & Hup & _ & Hpath & _ & _ & _ & Hdisk).
  exists video. repeat split; assumption.
Defined.

(** X23.  An upload that passes the intake and whose metadata do not parse
    or do not pass the schema is answered with 500 or with 400 and creates no
    record; the file of the part stays on the disk. *)
Theorem upload_rejected_keeps_file (env : Env) (req : Request) (w : World)
    (user : User.t) (part : FilePart) :
  accepted req user part ->
  match videoData req with
  | None => True
  | Some data =>
      insertVideoSchema (upload_fields data (stored env part) user)
      = Zod.ZodError
  end ->
  outcome (post_videos env req w)
  = Responded
      match videoData req with
      | None => json 500 (Message "Error uploading video")
      | Some _ => json 400 ValidationError
      end
  /\ store (world (post_videos env req w)) = store w
  /\ disk (world (post_videos env req w)) (stored_path env part)
     = Some (content part).
Proof.
  intros Hacc Hbad.
  rewrite (post_videos_accepted env req w user part Hacc).
  assert (Hfile : Fs.writeFile (stored_path env part) (content part) (disk w)
                    (stored_path env part) = Some (content part)).
  { unfold Fs.writeFile. now rewrite String.eqb_refl. }
  destruct (videoData req) as [data|].
  - rewrite Hbad. repeat split. exact Hfile.
  - repeat split. exact Hfile.
Qed.

Lemma upload_rejected_keeps_file_witness :
  outcome (post_videos Fixtures.sample_env Cases.untitled_upload_request
             Fixtures.clip_world)
  = Responded (json 400 ValidationError)
  /\ MemStorage.getAllVideos
       (store (world (post_videos Fixtures.sample_env
                        Cases.untitled_upload_request Fixtures.clip_world)))
     = [Fixtures.clip]
  /\ disk (world (post_videos Fixtures.sample_env
                    Cases.untitled_upload_request Fixtures.clip_world))
       Cases.film_path
     = Some Cases.film_bytes.
Proof.
  assert (Hacc : accepted Cases.untitled_upload_request Fixtures.viewer
                   (mkFilePart "file" "film.mp4" "video/mp4"
                      Cases.film_bytes)).
  { repeat split. vm_compute. discriminate. }
  destruct (upload_rejected_keeps_file Fixtures.sample_env
              Cases.untitled_upload_request Fixtures.clip_world
              Fixtures.viewer
              (mkFilePart "file" "film.mp4" "video/mp4" Cases.film_bytes)
              Hacc eq_refl) as (Hout & Hstore & Hdisk).
  split; [exact Hout|]. split; [|exact Hdisk].
  rewrite Hstore. reflexivity.
Defined.

(** A printed identifier is read back by [parseInt] without radix. *)
Lemma strip_hex_digits (s : string) :
  all_digits s = true -> JS.strip_hex_prefix s = None.
Proof.
  destruct s as [|c [|d s]]; [reflexivity | |].
  - intros _.
    destruct c as [[] [] [] [] [] [] [] []]; reflexivity.
  - cbn [all_digits]. intro H.
    apply andb_true_iff in H as [_ H]. apply andb_true_iff in H as [Hd _].
    destruct c as [[] [] [] [] [] [] [] []]; try reflexivity;
      destruct d as [[] [] [] [] [] [] [] []]; try reflexivity;
      vm_compute in Hd; discriminate.
Qed.

Lemma parseInt_printed (z : Z) :
  0 <= z -> JS.parseInt (JS.to_string (Some z)) 0 = Some z.
Proof.
  intro Hz.
  pose proof (JSFacts.parseInt_to_string z Hz) as H10.
  pose proof (JSFacts.to_string_digits z Hz) as Hdig.
  unfold JS.parseInt in *.
  destruct (JS.strip_sign (JS.trim_start (JS.to_string (Some z))))
    as [sign s1] eqn:Hs.
  cbn [Z.eqb orb] in *.
  assert (Hs1 : s1 = JS.to_string (Some z)).
  { destruct (JS.to_string (Some z)) as [|c s] eqn:E; [now inversion Hs|].
    cbn [all_digits] in Hdig. apply andb_true_iff in Hdig as [Hc _].
    unfold is_digit in Hc. apply andb_true_iff in Hc as [Hlo Hhi].
    cbn [JS.trim_start] in Hs.
    assert (Hws : JS.is_white_space c = false).
    { unfold JS.is_white_space.
      apply orb_false_iff; split; [apply andb_false_iff|]; lia. }
    rewrite Hws in Hs.
    destruct c as [[] [] [] [] [] [] [] []]; cbn in Hs;
      try (now inversion Hs);
      vm_compute in Hlo, Hhi; congruence. }
  rewrite strip_hex_digits by (now rewrite Hs1).
  exact H10.
Qed.

(** X24.  What was uploaded is what is streamed: in a store the server can
    be in, after an upload that creates a record, a request for
    [/stream/<id>] of the new identifier, without [Range], is answered with
    200, the length of the part and its bytes. *)
Theorem upload_then_stream (env : Env) (req sreq : Request) (w : World)
    (user : User.t) (part : FilePart) (data : Json.object)
    (iv : InsertVideo.t) :
  reachable (store w) ->
  accepted req user part ->
  videoData req = Some data ->
  insertVideoSchema (upload_fields data (stored env part) user) = Zod.Ok iv ->
  params_id sreq = JS.to_string (Some (MemStorage.nextVideoId (store w))) ->
  headers_range sreq = None ->
  outcome (stream sreq (world (post_videos env req w)))
  = Responded
      (mkResponse 200
         [("Content-Length",
           HNum (Some (Z.of_nat (List.length (content part)))));
          ("Content-Type", HStr "video/mp4")]
         (Bytes (content part))).
Proof.
  intros Hreach Hacc Hdata Hiv Hid Hrange.
  destruct (StoreInvFacts.reachable_wf _ Hreach) as ((Hone & _) & _).
  rewrite (post_videos_accepted env req w user part Hacc), Hdata, Hiv.
  destruct (insertVideoSchema_upload _ _ _ _ Hiv) as (_ & Hpath & _).
  cbn [respond world]. unfold stream. cbn [store disk].
  rewrite Hid, parseInt_printed by lia.
  unfold MemStorage.getVideo, MemStorage.createVideo.
  cbn [snd MemStorage.videos MemStorage.set_videos].
  rewrite NMapFacts.get_set_same. cbn [Video.filePath].
  rewrite Hpath. cbn [file_path stored].
  unfold Fs.existsSync, Fs.statSync_size, Fs.writeFile.
  rewrite String.eqb_refl, Hrange. cbn [negb respond outcome].
  unfold stream_full, Fs.createReadStream. cbn [Video.filePath].
  now rewrite String.eqb_refl.
Qed.

Lemma upload_then_stream_witness :
  outcome (stream (Cases.video_request None "2")
             (world (post_videos Fixtures.sample_env
                       Cases.film_upload_request Fixtures.clip_world)))
  = Responded
      (mkResponse 200
         [("Content-Length", HNum (Some 3));
          ("Content-Type", HStr "video/mp4")]
         (Bytes Cases.film_bytes)).
Proof.
  assert (Hacc : accepted Cases.film_upload_request Fixtures.viewer
                   (mkFilePart "file" "film.mp4" "video/mp4"
                      Cases.film_bytes)).
  { repeat split. vm_compute. discriminate. }
  exact (upload_then_stream Fixtures.sample_env Cases.film_upload_request
           (Cases.video_request None "2") Fixtures.clip_world
           Fixtures.viewer
           (mkFilePart "file" "film.mp4" "video/mp4" Cases.film_bytes)
           [("title", Json.Str "Film"); ("uploaderId", Json.Num 1);
            ("filePath", Json.Str "/etc/passwd")]
           (InsertVideo.mk "Film" None (Some "film.mp4")
              (Some Cases.film_path) None None None None 2 None)
           StoreFacts.clip_store_reachable Hacc eq_refl eq_refl eq_refl
           eq_refl).
Defined.

End UploadFacts.

(* ================================================================== *)
(** ** More on streaming, listing and updating *)

Module RouteEdges.
Import Routes VideoRoutes StoreOps StoreInv Numerals Intake Fixtures.

(** X25.  A suffix range is not served: for a video whose record and file
    exist, a header [bytes=-<n>], and any header that goes on with [-] after
    [bytes=], is answered with 500. *)
Theorem stream_suffix_range_is_500 (req : Request) (w : World)
    (video : Video.t) (path : string) (content : list Byte.byte)
    (rest : string) :
  MemStorage.getVideo (JS.parseInt (params_id req) 0) (store w)
    = Some video ->
  Video.filePath video = Some path ->
  disk w path = Some content ->
  headers_range req = Some ("bytes=-" ++ rest)%string ->
  outcome (stream req w)
  = Responded (json 500 (Message "Error streaming video")).
Proof.
  intros Hget Hpath Hfs Hrange.
  destruct (StreamFacts.exists_of_file _ _ _ Hfs) as [Hex Hsize].
  unfold stream. rewrite Hget, Hpath, Hex, Hsize, Hrange.
  cbn [negb respond outcome].
  change (JS.truthy ("bytes=-" ++ rest)) with true. cbn iota.
  unfold stream_range.
  change (JS.replace_first "bytes=" "" ("bytes=-" ++ rest))
    with (JS.replace_first "bytes=" "" ("bytes=" ++ String "-" rest)).
  rewrite JSFacts.replace_first_bytes.
  cbn [JS.split Ascii.eqb Bool.eqb].
  destruct (JS.split "-" rest); reflexivity.
Qed.

Lemma stream_suffix_range_is_500_witness :
  outcome (stream (stream_request (Some "bytes=-500")) clip_world)
  = Responded (json 500 (Message "Error streaming video")).
Proof.
  exact (stream_suffix_range_is_500 (stream_request (Some "bytes=-500"))
           clip_world clip clip_path clip_bytes "500" eq_refl eq_refl
           eq_refl eq_refl).
Defined.

(** X26.  A range that starts in the file and ends at or after its end
    (and is within [Number.MAX_SAFE_INTEGER]) is answered with 206 and a
    [Content-Length] of [end - start + 1], but the body has the
    [fileSize - start] bytes that are left, which are fewer. *)
Theorem stream_range_past_end (req : Request) (w : World)
    (video : Video.t) (path : string) (content : list Byte.byte)
    (start end_ : Z) :
  MemStorage.getVideo (JS.parseInt (params_id req) 0) (store w)
    = Some video ->
  Video.filePath video = Some path ->
  disk w path = Some content ->
  headers_range req = Some (range_header start (Some end_)) ->
  0 <= start < Z.of_nat (List.length content) ->
  Z.of_nat (List.length content) <= end_ <= Fs.MAX_SAFE_INTEGER ->
  exists body,
    outcome (stream req w)
    = Responded
        (mkResponse 206
           (partial_headers start end_ (Z.of_nat (List.length content)))
           (Bytes body))
    /\ body = skipn (Z.to_nat start) content
    /\ Z.of_nat (List.length body) = Z.of_nat (List.length content) - start
    /\ Z.of_nat (List.length body) < end_ - start + 1.
Proof.
  intros Hget Hpath Hfs Hrange Hstart Hend.
  destruct (StreamFacts.exists_of_file _ _ _ Hfs) as [Hex Hsize].
  exists (skipn (Z.to_nat start) content).
  assert (Hlen : Z.of_nat (List.length (skipn (Z.to_nat start) content))
                 = Z.of_nat (List.length content) - start)
    by (rewrite length_skipn; lia).
  split; [|split; [reflexivity | split; [exact Hlen | lia]]].
  unfold stream. rewrite Hget, Hpath, Hex, Hsize, Hrange.
  rewrite StreamFacts.range_header_truthy. cbn [negb respond outcome].
  f_equal.
  rewrite (StreamFacts.stream_range_ok (disk w) video path content start
             (Some end_) Hpath Hfs) by (cbn [range_end]; lia).
  cbn [range_end]. do 2 f_equal. unfold Fs.slice.
  apply firstn_all2. rewrite length_skipn. lia.
Qed.

Lemma stream_range_past_end_witness :
  exists body,
    outcome (stream (stream_request (Some "bytes=900-1999")) clip_world)
    = Responded
        (mkResponse 206
           [("Content-Range", HStr "bytes 900-1999/1000");
            ("Accept-Ranges", HStr "bytes");
            ("Content-Length", HNum (Some 1100));
            ("Content-Type", HStr "video/mp4")]
           (Bytes body))
    /\ List.length body = 100%nat.
Proof.
  destruct (stream_range_past_end (stream_request (Some "bytes=900-1999"))
              clip_world clip clip_path clip_bytes 900 1999
              eq_refl eq_refl eq_refl eq_refl
              ltac:(vm_compute; split; congruence)
              ltac:(vm_compute; split; congruence))
    as (body & Hout & Hbody & _).
  exists body. split; [exact Hout|]. rewrite Hbody. reflexivity.
Defined.



(** The update of a video by its uploader or an administrator. *)
Lemma put_video_allowed (req : Request) (w : World) (su : User.t)
    (video : Video.t) :
  session_user req = Some su ->
  MemStorage.getVideo (JS.parseInt (params_id req) 0) (store w)
    = Some video ->
  User.isAdmin su = true \/ Video.uploaderId video = User.id su ->
  exists k u,
    JS.parseInt (params_id req) 0 = Some k
    /\ MemStorage.updateVideo (Some k) (patch_of_body (body req)) (store w)
       = (Some u,
          snd (MemStorage.updateVideo (Some k) (patch_of_body (body req))
                 (store w)))
    /\ put_video req w
       = respond (json 200 (OneVideo u))
           (mkWorld
              (snd (MemStorage.updateVideo (Some k)
                      (patch_of_body (body req)) (store w)))
              (disk w)) req.
Proof.
  intros Hsess Hget Hmay.
  destruct (JS.parseInt (params_id req) 0) as [k|] eqn:Hk;
    [|unfold MemStorage.getVideo in Hget;
      rewrite NMapFacts.get_NaN in Hget; discriminate].
  unfold put_video, requireAuth. rewrite Hsess, Hk, Hget.
  assert (Hgate : negb (User.isAdmin su)
                  && negb (Video.uploaderId video =? User.id su) = false).
  { destruct Hmay as [-> | ->]; [reflexivity|].
    rewrite Z.eqb_refl. apply andb_false_r. }
  rewrite Hgate. exists k. unfold MemStorage.updateVideo.
  unfold MemStorage.getVideo in Hget. rewrite Hget.
  eexists. repeat split.
Qed.

(** C5.  The counter of a video can go down.  The clip has been viewed
    twice and its counter is 2; its uploader then sends
    [PUT /videos/1] with the body [{"views": 0}].  The handler gives the body
    to [updateVideo], which spreads it over the video: the answer is 200 with
    a video of no view, and that is the video then in the store, in which
    nothing else has changed. *)
Theorem put_views_lowers_counter :
  StoreOps.reachable (store Cases.viewed_twice)
  /\ option_map Video.views
       (MemStorage.getVideo (Some 1) (store Cases.viewed_twice)) = Some 2
  /\ outcome (put_video Cases.reset_views_request Cases.viewed_twice)
     = Responded (json 200 (OneVideo clip))
  /\ MemStorage.getVideo (Some 1)
       (store (world (put_video Cases.reset_views_request
                        Cases.viewed_twice)))
     = Some clip
  /\ Video.views clip = 0
  /\ store (world (put_video Cases.reset_views_request Cases.viewed_twice))
     = StoreOps.run
         (StoreOps.UpdateVideo (Some 1)
            (patch_of_body [("views", Json.Num 0)]))
         (store Cases.viewed_twice).
Proof.
  split; [|repeat split].
  exact (StoreOps.reachable_run (StoreOps.IncrementViews (Some 1)) _
           (StoreOps.reachable_run (StoreOps.IncrementViews (Some 1)) _
              StoreFacts.clip_store_reachable)).
Qed.

(** X28.  An update by a session user who is not an administrator and not
    the uploader is answered with 403 and changes nothing, whatever its
    body.  An update by the uploader or an administrator is answered with
    200 and the video as it then is in the store under the identifier asked
    for: with the views and the creation time of before when the body has no
    such key, and with those of the body when it has; the disk is
    untouched. *)
Theorem put_video_gate (req : Request) (w : World) (su : User.t)
    (video : Video.t) :
  session_user req = Some su ->
  MemStorage.getVideo (JS.parseInt (params_id req) 0) (store w)
    = Some video ->
  (User.isAdmin su = false /\ Video.uploaderId video <> User.id su ->
   put_video req w
   = respond (json 403 (Message "Not authorized to update this video")) w
       req)
  /\ (User.isAdmin su = true \/ Video.uploaderId video = User.id su ->
      exists u,
        outcome (put_video req w) = Responded (json 200 (OneVideo u))
        /\ MemStorage.getVideo (JS.parseInt (params_id req) 0)
             (store (world (put_video req w))) = Some u
        /\ (Json.get "views" (body req) = None ->
            Video.views u = Video.views video)
        /\ (forall n, Json.get "views" (body req) = Some (Json.Num n) ->
                      Video.views u = n)
        /\ (Json.get "uploadDate" (body req) = None ->
            Video.uploadDate u = Video.uploadDate video)
        /\ (forall n, Json.get "uploadDate" (body req) = Some (Json.Num n) ->
                      Video.uploadDate u = n)
        /\ disk (world (put_video req w)) = disk w).
Proof.
  intros Hsess Hget. split.
  - intros [Hadmin Hother]. unfold put_video, requireAuth.
    rewrite Hsess, Hget, Hadmin.
    replace (Video.uploaderId video =? User.id su) with false
      by (symmetry; now apply Z.eqb_neq).
    reflexivity.
  - intro Hmay.
    destruct (put_video_allowed req w su video Hsess Hget Hmay)
      as (k & u & Hk & Hupd & Hput).
    exists u. rewrite Hput, Hk. cbn [respond outcome world store disk].
    split; [reflexivity|].
    rewrite Hk in Hget. unfold MemStorage.getVideo in *.
    unfold MemStorage.updateVideo in *. rewrite Hget in *.
    cbn [snd MemStorage.videos MemStorage.set_videos] in *.
    injection Hupd as <-.
    split; [apply NMapFacts.get_set_same|].
    cbn [Video.views Video.uploadDate patch_of_body VideoPatch.views
         VideoPatch.uploadDate].
    unfold number_key.
    repeat split; try (intros n H); try intro H; now rewrite H.
Qed.

Lemma put_video_gate_witness :
  outcome (put_video
             (Cases.update_request (Some viewer) "1"
                [("title", Json.Str "Mine")])
             clip_world)
  = Responded (json 403 (Message "Not authorized to update this video"))
  /\ exists u,
       outcome (put_video
                  (Cases.update_request (Some admin) "1"
                     [("title", Json.Str "Clip, cut"); ("views", Json.Num 9)])
                  clip_world)
       = Responded (json 200 (OneVideo u))
       /\ Video.views u = 9
       /\ Video.uploadDate u = 1700000000000.
Proof.
  destruct (put_video_gate
              (Cases.update_request (Some viewer) "1"
                 [("title", Json.Str "Mine")])
              clip_world viewer clip eq_refl eq_refl) as [Hno _].
  destruct (put_video_gate
              (Cases.update_request (Some admin) "1"
                 [("title", Json.Str "Clip, cut"); ("views", Json.Num 9)])
              clip_world admin clip eq_refl eq_refl) as [_ Hyes].
  split.
  - rewrite Hno; [reflexivity|]. split; [reflexivity | discriminate].
  - destruct (Hyes (or_introl eq_refl))
      as (u & Hout & _ & _ & Hviews & Hdate & _).
    exists u. split; [exact Hout|].
    split; [exact (Hviews 9 eq_refl) | exact (Hdate eq_refl)].
Defined.

(** X29.  The uploader can give the video away: an update by an uploader
    who is not an administrator, whose body names another user as
    uploader, is answered with 200, and after it the same session is
    answered with 403 when it updates or deletes the video, whatever the
    body of its request. *)
Theorem put_video_gives_away (req req' : Request) (w : World) (su : User.t)
    (video : Video.t) (k : Z) :
  session_user req = Some su ->
  User.isAdmin su = false ->
  MemStorage.getVideo (JS.parseInt (params_id req) 0) (store w)
    = Some video ->
  Video.uploaderId video = User.id su ->
  Json.get "uploaderId" (body req) = Some (Json.Num k) ->
  k <> User.id su ->
  session_user req' = session_user req ->
  params_id req' = params_id req ->
  (exists u,
      outcome (put_video req w) = Responded (json 200 (OneVideo u))
      /\ Video.uploaderId u = k)
  /\ outcome (delete_video req' (world (put_video req w)))
     = Responded (json 403 (Message "Not authorized to delete this video"))
  /\ outcome (put_video req' (world (put_video req w)))
     = Responded (json 403 (Message "Not authorized to update this video")).
Proof.
  intros Hsess Hadmin Hget Hown Hgiven Hk Hsess' Hid'.
  destruct (put_video_allowed req w su video Hsess Hget
              (or_intror Hown)) as (j & u & Hj & Hupd & Hput).
  rewrite Hput. cbn [respond outcome world].
  rewrite Hj in Hget. unfold MemStorage.getVideo in Hget.
  assert (Hu : Video.uploaderId u = k).
  { unfold MemStorage.updateVideo in Hupd. rewrite Hget in Hupd.
    injection Hupd as <-.
    cbn [Video.uploaderId patch_of_body VideoPatch.uploaderId].
    unfold number_key. now rewrite Hgiven. }
  assert (Hget' : MemStorage.getVideo (Some j)
                    (snd (MemStorage.updateVideo (Some j)
                            (patch_of_body (body req)) (store w)))
                  = Some u).
  { unfold MemStorage.updateVideo in *. rewrite Hget in *.
    injection Hupd as <-. unfold MemStorage.getVideo.
    cbn [snd MemStorage.videos MemStorage.set_videos].
    apply NMapFacts.get_set_same. }
  split; [exists u; split; [reflexivity | exact Hu]|].
  unfold delete_video, put_video, requireAuth.
  rewrite Hsess', Hid', Hsess, Hj. cbn [store]. rewrite Hget', Hadmin, Hu.
  replace (k =? User.id su) with false by (symmetry; now apply Z.eqb_neq).
  split; reflexivity.
Qed.

Lemma put_video_gives_away_witness :
  outcome (delete_video (Cases.video_request (Some viewer) "2")
             (world (put_video
                       (Cases.update_request (Some viewer) "2"
                          [("uploaderId", Json.Num 1)])
                       (world (post_videos sample_env
                                 Cases.film_upload_request clip_world)))))
  = Responded (json 403 (Message "Not authorized to delete this video")).
Proof.
  destruct (put_video_gives_away
              (Cases.update_request (Some viewer) "2"
                 [("uploaderId", Json.Num 1)])
              (Cases.video_request (Some viewer) "2")
              (world (post_videos sample_env Cases.film_upload_request
                        clip_world))
              viewer
              (fst (MemStorage.createVideo
                      (InsertVideo.mk "Film" None (Some "film.mp4")
                         (Some Cases.film_path) None None None None 2 None)
                      (now sample_env) clip_store))
              1 eq_refl eq_refl eq_refl eq_refl eq_refl ltac:(discriminate)
              eq_refl eq_refl)
    as (_ & Hdel & _).
  exact Hdel.
Defined.

End RouteEdges.

(* ================================================================== *)
(** ** The categories *)

Module CategoryFacts.
Import Routes StoreOps StoreInv.

Lemma run_categories (o : op) (s : MemStorage.t) :
  wf s ->
  exists more,
    MemStorage.getAllCategories (run o s)
    = (MemStorage.getAllCategories s ++ more)%list.
Proof.
  intros (_ & _ & Hc). unfold MemStorage.getAllCategories.
  destruct o as [iu|id p|iv now|id upd|id|id|name]; simpl;
    try (exists []; now rewrite app_nil_r).
  - unfold MemStorage.updateUserPassword.
    destruct id; [destruct (NMap.get _ (MemStorage.users s))|];
      exists []; now rewrite app_nil_r.
  - unfold MemStorage.updateVideo.
    destruct id; [destruct (NMap.get _ (MemStorage.videos s))|];
      exists []; now rewrite app_nil_r.
  - unfold MemStorage.incrementViews.
    destruct id; [destruct (NMap.get _ (MemStorage.videos s))|];
      exists []; now rewrite app_nil_r.
  - rewrite (MapInv.set_absent _ _ _
               (StoreInvFacts.keyed_next_absent _ _ _ Hc)).
    unfold NMap.values. rewrite map_app. eexists. reflexivity.
Qed.

(** X30.  In every store the server can be in, [GET /categories] answers
    with the seven categories of the constructor first, ["All"] at their
    head, under the identifiers 1 to 7 and in their order; what was created
    since comes after them. *)
Theorem categories_start_with_defaults (req : Request) (w : World) :
  reachable (store w) ->
  exists more,
    Accounts.response (Accounts.get_categories req w)
    = Accounts.mkResponse 200
        (Accounts.Categories
           ([Category.mk 1 "All"; Category.mk 2 "Travel";
             Category.mk 3 "Sports"; Category.mk 4 "Education";
             Category.mk 5 "Technology"; Category.mk 6 "Entertainment";
             Category.mk 7 "Music"] ++ more)).
Proof.
  unfold Accounts.get_categories. cbn [Accounts.response].
  generalize (store w). clear. intros s Hreach.
  induction Hreach as [|o s Hreach (more & IH)].
  - exists []. reflexivity.
  - destruct (run_categories o s (StoreInvFacts.reachable_wf s Hreach))
      as (more' & Hrun).
    exists (more ++ more')%list. rewrite Hrun.
    injection IH as IH. rewrite IH. reflexivity.
Qed.

Lemma categories_start_with_defaults_witness :
  exists more,
    Accounts.response
      (Accounts.get_categories (Cases.video_request None "")
         (mkWorld
            (run (CreateCategory "Cooking") Fixtures.clip_store)
            (fun _ => None)))
    = Accounts.mkResponse 200
        (Accounts.Categories
           ([Category.mk 1 "All"; Category.mk 2 "Travel";
             Category.mk 3 "Sports"; Category.mk 4 "Education";
             Category.mk 5 "Technology"; Category.mk 6 "Entertainment";
             Category.mk 7 "Music"] ++ more)).
Proof.
  apply (categories_start_with_defaults (Cases.video_request None "")).
  exact (reachable_run (CreateCategory "Cooking") Fixtures.clip_store
           StoreFacts.clip_store_reachable).
Defined.

End CategoryFacts.
